(** * Variable Debug Web Server: a model of [main.go] and its registry protocol

    The program is a Go HTTP server whose handler registers every inbound
    request in a mutex-guarded registry, sends the response headers, and
    blocks on a per-request channel; a second goroutine reads lines from
    standard input and, on each line, drains the registry and closes the
    channel of every drained request.

    The development follows the source file line by line:
    - [GoInt]   : Go's [int] on the 64-bit targets the Makefile builds;
    - [GoStd]   : the few standard-library calls the handler makes
                  ([time.Format], [json.Encoder.Encode], [http.ResponseWriter]);
    - the data model ([pendingRequest], [Server]);
    - one small-step machine per goroutine ([hstep] for [handleRequest],
      [tstep] for [waitForEnter]), whose program counters are source lines;
    - [exec]/[run]: the interleaving of all goroutines and of the
      environment (connections arriving, operator input, the clock);
    - the invariants of every reachable state and the properties of the
      registry that follow from them. *)

From Stdlib Require Import ZArith Lia Ascii String DecimalString.
From stdpp Require Import base list strings gmap.

Set Default Proof Using "Type".

(** ** Go's [int] *)

Module GoInt.

(** The Makefile builds for amd64 and arm64 only, where [int] has 64 bits. *)
Definition int_min : Z := (- 2 ^ 63)%Z.
Definition int_max : Z := (2 ^ 63 - 1)%Z.

(** Two's-complement wrap-around of a mathematical integer into [int]. *)
Definition wrap (z : Z) : Z := ((z + 2 ^ 63) mod 2 ^ 64 - 2 ^ 63)%Z.

(** [x++] on an [int]. *)
Definition incr (x : Z) : Z := wrap (x + 1).

(** Saturation to the [int64] range, as [time.Time.Sub] does. *)
Definition saturate (z : Z) : Z := Z.max int_min (Z.min int_max z).

End GoInt.

(** ** The standard-library calls of the handler *)

Module GoStd.

(** A [time.Time] as nanoseconds since the Unix epoch. *)
Definition Time := Z.

(** [t.Sub(u)]: a [time.Duration] in nanoseconds, saturated. *)
Definition Sub (t u : Time) : Z := GoInt.saturate (t - u).

(** *** [time.Time.UTC().Format(time.RFC3339)] *)

Definition digit (n : Z) : ascii :=
  ascii_of_nat (48 + Z.to_nat (n mod 10)).

(** [appendInt(b, x, 2)] for [0 <= x < 100]. *)
Definition pad2 (n : Z) : string :=
  String (digit (n / 10)) (String (digit n) EmptyString).

(** Decimal digits of a natural number, most significant first. *)
Definition decimal (n : N) : string := NilZero.string_of_uint (N.to_uint n).

(** [appendInt(b, x, 4)]: sign, then at least four digits. *)
Definition pad4 (x : Z) : string :=
  let u := Z.abs x in
  let body :=
    if (u <? 10000)%Z
    then String (digit (u / 1000)) (String (digit (u / 100))
           (String (digit (u / 10)) (String (digit u) EmptyString)))
    else decimal (Z.to_N u) in
  if (x <? 0)%Z then String "-"%char body else body.

(** Proleptic Gregorian date of a day count relative to 1970-01-01. *)
Definition civil (days : Z) : Z * Z * Z :=
  let z := (days + 719468)%Z in
  let era := (z / 146097)%Z in
  let doe := (z - era * 146097)%Z in
  let yoe := ((doe - doe / 1460 + doe / 36524 - doe / 146096) / 365)%Z in
  let doy := (doe - (365 * yoe + yoe / 4 - yoe / 100))%Z in
  let mp := ((5 * doy + 2) / 153)%Z in
  let d := (doy - (153 * mp + 2) / 5 + 1)%Z in
  let m := if (mp <? 10)%Z then (mp + 3)%Z else (mp - 9)%Z in
  let y := (yoe + era * 400 + (if (m <=? 2)%Z then 1 else 0))%Z in
  (y, m, d).

(** The layout ["2006-01-02T15:04:05Z07:00"] applied to a time in UTC:
    no fractional seconds, and the zone is printed as [Z]. *)
Definition formatRFC3339UTC (t : Time) : string :=
  let secs := (t / 1000000000)%Z in
  let days := (secs / 86400)%Z in
  let sod := (secs mod 86400)%Z in
  let '(y, m, d) := civil days in
  pad4 y +:+ "-" +:+ pad2 m +:+ "-" +:+ pad2 d +:+ "T" +:+
  pad2 (sod / 3600) +:+ ":" +:+ pad2 (sod / 60 mod 60) +:+ ":" +:+
  pad2 (sod mod 60) +:+ "Z".

(** *** [encoding/json] on a [map[string]string] *)

(** Bytes the encoder copies unchanged inside a string literal (the
    HTML-safe set: printable ASCII except the quote, the backslash and
    [<], [>], [&]). *)
Definition htmlSafe (c : ascii) : bool :=
  let n := nat_of_ascii c in
  (32 <=? n) && (n <? 127) &&
  negb (n =? 34) && negb (n =? 92) &&
  negb (n =? 60) && negb (n =? 62) && negb (n =? 38).

Definition dquote : ascii := ascii_of_nat 34.

Definition hexDigit (n : nat) : ascii :=
  if n <? 10 then ascii_of_nat (48 + n) else ascii_of_nat (87 + n).

(** The escape of one byte.  Bytes above 127 belong to multi-byte UTF-8
    sequences, which the encoder copies when they are valid; they are
    copied here. *)
Definition escapeByte (c : ascii) : string :=
  let n := nat_of_ascii c in
  if htmlSafe c || (128 <=? n) then String c EmptyString
  else if n =? 34 then String "\"%char (String dquote EmptyString)
  else if n =? 92 then "\\"
  else if n =? 10 then "\n"
  else if n =? 13 then "\r"
  else if n =? 9 then "\t"
  else "\u00" +:+ String (hexDigit (n / 16)) (String (hexDigit (n mod 16)) EmptyString).

Fixpoint escape (s : string) : string :=
  match s with
  | EmptyString => EmptyString
  | String c s' => escapeByte c +:+ escape s'
  end.

Definition quote (s : string) : string :=
  String dquote (escape s) +:+ String dquote EmptyString.

Fixpoint members (kvs : list (string * string)) : string :=
  match kvs with
  | [] => EmptyString
  | [(k, v)] => quote k +:+ ":" +:+ quote v
  | (k, v) :: rest => quote k +:+ ":" +:+ quote v +:+ "," +:+ members rest
  end.

(** [json.NewEncoder(w).Encode(m)] writes the object followed by a
    newline.  [kvs] lists the entries of the map by increasing key. *)
Definition Encode (kvs : list (string * string)) : string :=
  "{" +:+ members kvs +:+ "}" +:+ String (ascii_of_nat 10) EmptyString.

End GoStd.

Arguments GoStd.digit : simpl never.
Arguments GoStd.formatRFC3339UTC : simpl never.
Arguments GoStd.Encode : simpl never.

(** *** [http.ResponseWriter] as the server hands it to a handler *)

Module Http.

Definition StatusOK : Z := 200%Z.

(** What travels on a connection: the status line with the header
    block, then pieces of the body. *)
Inductive wmsg :=
| WHead (status : Z) (hdr : list (string * string))
| WBody (s : string).

Record ResponseWriter := mkWriter {
  header : list (string * string);   (* the map returned by [Header()] *)
  wroteHeader : bool;                (* [WriteHeader] already called *)
  buffered : list wmsg;              (* written, not yet on the wire *)
  wire : list wmsg;                  (* sent to the client, in order *)
  isFlusher : bool                   (* dynamic type implements [http.Flusher] *)
}.

(** The writer of a fresh connection; the server's own response type
    implements [http.Flusher]. *)
Definition newWriter : ResponseWriter := mkWriter [] false [] [] true.

(** [w.Header().Set(k, v)] *)
Definition Set_ (k v : string) (w : ResponseWriter) : ResponseWriter :=
  mkWriter ((k, v) :: filter (λ kv, kv.1 ≠ k) (header w))
           (wroteHeader w) (buffered w) (wire w) (isFlusher w).

(** [w.WriteHeader(code)]: the header block is fixed at the first call. *)
Definition WriteHeader (code : Z) (w : ResponseWriter) : ResponseWriter :=
  if wroteHeader w then w
  else mkWriter (header w) true (buffered w ++ [WHead code (header w)])
                (wire w) (isFlusher w).

(** [flusher.Flush()]: sends the header block if it was not sent, then
    everything buffered. *)
Definition Flush (w : ResponseWriter) : ResponseWriter :=
  let w1 := WriteHeader StatusOK w in
  mkWriter (header w1) (wroteHeader w1) [] (wire w1 ++ buffered w1) (isFlusher w1).

(** [w.Write(b)] *)
Definition Write_ (b : string) (w : ResponseWriter) : ResponseWriter :=
  let w1 := WriteHeader StatusOK w in
  mkWriter (header w1) (wroteHeader w1) (buffered w1 ++ [WBody b])
           (wire w1) (isFlusher w1).

(** A request as far as the handler reads it. *)
Record Request := mkRequest {
  RemoteAddr : string;
  URLPath : string;
  Method : string
}.

#[global] Instance Request_eq_dec : EqDecision Request.
Proof. solve_decision. Defined.

End Http.

(** ** The data model of [main.go] *)

(** A channel is named by its index in the channel store. *)
Abbreviation chan := nat (only parsing).

(** [type pendingRequest struct] (lines 40-46).  The registry holds
    pointers to these objects; no field is assigned after line 70, and each
    object owns the channel made for it, so an object is identified by its
    fields.  The state of the channel itself lives in the channel store of
    the [World]. *)
Record pendingRequest := mkPending {
  requestTime : GoStd.Time;
  responseChan : chan;
  remoteAddr : string;
  path : string;
  method : string
}.

#[global] Instance pendingRequest_eq_dec : EqDecision pendingRequest.
Proof. solve_decision. Defined.

(** Who holds the mutex.  [sync.Mutex] does not record its holder; the
    holder is kept as an auxiliary value that [Unlock] never reads. *)
Inductive owner := OwnHandler (t : nat) | OwnTrigger.

#[global] Instance owner_eq_dec : EqDecision owner.
Proof. solve_decision. Defined.

(** [type Server struct] (lines 48-52). *)
Record Server := mkServer {
  mu : option owner;
  pendingRequests : list pendingRequest;
  requestCounter : Z
}.

(** [NewServer] (lines 54-58). *)
Definition NewServer : Server := mkServer None [] 0%Z.

(** [len(s)] of a slice, as an [int]. *)
Definition len {A} (l : list A) : Z := Z.of_nat (length l).

(** ** The registry operations, as the critical sections compute them *)

(** Lines 74-77 of [handleRequest], between [Lock] and [Unlock]: the new
    state, the request number and the pending count. *)
Definition register (req : pendingRequest) (s : Server) : Server * Z * Z :=
  let s1 := mkServer (mu s) (pendingRequests s ++ [req]) (requestCounter s) in
  let s2 := mkServer (mu s1) (pendingRequests s1) (GoInt.incr (requestCounter s1)) in
  let requestNum := requestCounter s2 in
  let pendingCount := len (pendingRequests s2) in
  (s2, requestNum, pendingCount).

(** Lines 115-117 of [waitForEnter], between [Lock] and [Unlock]: the new
    state, the drained slice and its length. *)
Definition drainAll (s : Server) : Server * list pendingRequest * Z :=
  let pendingRequests_ := pendingRequests s in
  let count := len pendingRequests_ in
  let s1 := mkServer (mu s) [] (requestCounter s) in
  (s1, pendingRequests_, count).

(** Lines 135-138 and 147 of [main].  The environment is a finite map;
    [os.Getenv] returns the empty string for a variable that is not set. *)
Definition Getenv (env : gmap string string) (k : string) : string :=
  default EmptyString (env !! k).

Definition port (env : gmap string string) : string :=
  let port := Getenv env "PORT" in
  if decide (port = EmptyString) then "8080" else port.

Definition addr (env : gmap string string) : string := ":" +:+ port env.

(** ** Standard output *)

Inductive arg := AStr (s : string) | AInt (n : Z) | AClock (t : GoStd.Time) | ADuration (d : Z).

(** A call of [fmt.Println] or [fmt.Printf], with the format string of
    the source and its arguments ([AClock t] stands for
    [t.Format("15:04:05")]). *)
Inductive print :=
| Println (s : string)
| Printf (format : string) (args : list arg).

Definition fmtRequest : string := "\n[%s] Request #%d: %s %s from %s\n".
Definition fmtPending : string := "Pending requests: %d (Press ENTER to release all)\n".
Definition fmtSent : string := "[%s] Request #%d: Response body sent after waiting %s\n".
Definition fmtReleasing : string := "\nReleasing %d pending request(s)...\n".
Definition msgNoPending : string := "No pending requests".

(** ** Outcomes of a step *)

Inductive result (A : Type) :=
| Ok (a : A)
| Blocked                (* the goroutine cannot move now *)
| Panic (msg : string).  (* a run-time panic of the Go runtime *)
Arguments Ok {A} a.
Arguments Blocked {A}.
Arguments Panic {A} msg.

Definition bind {A B} (m : result A) (k : A → result B) : result B :=
  match m with
  | Ok a => k a
  | Blocked => Blocked
  | Panic msg => Panic msg
  end.

(** ** The goroutine of [handleRequest] *)

(** Program counters are the source lines about to run. *)
Inductive hpc :=
| H61 | H64 | H73 | H74 | H75 | H76 | H77 | H78 | H80 | H82
| H85 | H86 | H89 | H94 | H96 | H97 | H99 | H103 | H104 | H108 | HDone.

#[global] Instance hpc_eq_dec : EqDecision hpc.
Proof. solve_decision. Defined.

Record Handler := mkHandler {
  h_pc : hpc;
  h_w : Http.ResponseWriter;
  h_r : Http.Request;
  h_requestTime : GoStd.Time;
  h_req : pendingRequest;
  h_requestNum : Z;
  h_pendingCount : Z;
  h_responseTime : GoStd.Time;
  h_duration : Z;
  h_timestamp : string
}.

Definition h_goto (pc : hpc) (h : Handler) : Handler :=
  mkHandler pc (h_w h) (h_r h) (h_requestTime h) (h_req h) (h_requestNum h)
            (h_pendingCount h) (h_responseTime h) (h_duration h) (h_timestamp h).
Definition h_set_w (w : Http.ResponseWriter) (h : Handler) : Handler :=
  mkHandler (h_pc h) w (h_r h) (h_requestTime h) (h_req h) (h_requestNum h)
            (h_pendingCount h) (h_responseTime h) (h_duration h) (h_timestamp h).
Definition h_set_requestTime (x : GoStd.Time) (h : Handler) : Handler :=
  mkHandler (h_pc h) (h_w h) (h_r h) x (h_req h) (h_requestNum h)
            (h_pendingCount h) (h_responseTime h) (h_duration h) (h_timestamp h).
Definition h_set_req (x : pendingRequest) (h : Handler) : Handler :=
  mkHandler (h_pc h) (h_w h) (h_r h) (h_requestTime h) x (h_requestNum h)
            (h_pendingCount h) (h_responseTime h) (h_duration h) (h_timestamp h).
Definition h_set_requestNum (x : Z) (h : Handler) : Handler :=
  mkHandler (h_pc h) (h_w h) (h_r h) (h_requestTime h) (h_req h) x
            (h_pendingCount h) (h_responseTime h) (h_duration h) (h_timestamp h).
Definition h_set_pendingCount (x : Z) (h : Handler) : Handler :=
  mkHandler (h_pc h) (h_w h) (h_r h) (h_requestTime h) (h_req h) (h_requestNum h)
            x (h_responseTime h) (h_duration h) (h_timestamp h).
Definition h_set_responseTime (x : GoStd.Time) (h : Handler) : Handler :=
  mkHandler (h_pc h) (h_w h) (h_r h) (h_requestTime h) (h_req h) (h_requestNum h)
            (h_pendingCount h) x (h_duration h) (h_timestamp h).
Definition h_set_duration (x : Z) (h : Handler) : Handler :=
  mkHandler (h_pc h) (h_w h) (h_r h) (h_requestTime h) (h_req h) (h_requestNum h)
            (h_pendingCount h) (h_responseTime h) x (h_timestamp h).
Definition h_set_timestamp (x : string) (h : Handler) : Handler :=
  mkHandler (h_pc h) (h_w h) (h_r h) (h_requestTime h) (h_req h) (h_requestNum h)
            (h_pendingCount h) (h_responseTime h) (h_duration h) x.

(** The goroutine the HTTP server starts for a request [r]: it is about to
    run line 61, and its locals hold zero values. *)
Definition newHandler (r : Http.Request) : Handler :=
  mkHandler H61 Http.newWriter r 0%Z
            (mkPending 0%Z 0 EmptyString EmptyString EmptyString)
            0%Z 0%Z 0%Z 0%Z EmptyString.

(** ** The goroutine of [waitForEnter] *)

Inductive tpc :=
| T112 | T114 | T115 | T116 | T117 | T118 | T120 | T121 | T125
| T128 (i : nat)   (* the [range] loop, about to visit index [i] *)
| TExit.

#[global] Instance tpc_eq_dec : EqDecision tpc.
Proof. solve_decision. Defined.

Record Trigger := mkTrigger {
  t_pc : tpc;
  t_pendingRequests : list pendingRequest;   (* the local of line 115 *)
  t_count : Z                                (* the local of line 116 *)
}.

Definition newTrigger : Trigger := mkTrigger T112 [] 0%Z.

(** ** The whole program state *)

Record World := mkWorld {
  srv : Server;
  chans : list bool;              (* channel store: [true] once closed *)
  handlers : list Handler;        (* one goroutine per connection *)
  trig : Trigger;
  stdin : list string;            (* lines typed and not yet scanned *)
  stdinClosed : bool;
  stdout : list print;
  clock : GoStd.Time;
  registered : list pendingRequest;  (* history: every append of line 74 *)
  released : list pendingRequest     (* history: every close of line 129 *)
}.

Definition set_srv (x : Server) (w : World) : World :=
  mkWorld x (chans w) (handlers w) (trig w) (stdin w) (stdinClosed w)
          (stdout w) (clock w) (registered w) (released w).
Definition set_chans (x : list bool) (w : World) : World :=
  mkWorld (srv w) x (handlers w) (trig w) (stdin w) (stdinClosed w)
          (stdout w) (clock w) (registered w) (released w).
Definition set_handlers (x : list Handler) (w : World) : World :=
  mkWorld (srv w) (chans w) x (trig w) (stdin w) (stdinClosed w)
          (stdout w) (clock w) (registered w) (released w).
Definition set_trig (x : Trigger) (w : World) : World :=
  mkWorld (srv w) (chans w) (handlers w) x (stdin w) (stdinClosed w)
          (stdout w) (clock w) (registered w) (released w).
Definition set_stdin (x : list string) (w : World) : World :=
  mkWorld (srv w) (chans w) (handlers w) (trig w) x (stdinClosed w)
          (stdout w) (clock w) (registered w) (released w).
Definition set_stdinClosed (x : bool) (w : World) : World :=
  mkWorld (srv w) (chans w) (handlers w) (trig w) (stdin w) x
          (stdout w) (clock w) (registered w) (released w).
Definition set_clock (x : GoStd.Time) (w : World) : World :=
  mkWorld (srv w) (chans w) (handlers w) (trig w) (stdin w) (stdinClosed w)
          (stdout w) x (registered w) (released w).
Definition set_registered (x : list pendingRequest) (w : World) : World :=
  mkWorld (srv w) (chans w) (handlers w) (trig w) (stdin w) (stdinClosed w)
          (stdout w) (clock w) x (released w).
Definition set_released (x : list pendingRequest) (w : World) : World :=
  mkWorld (srv w) (chans w) (handlers w) (trig w) (stdin w) (stdinClosed w)
          (stdout w) (clock w) (registered w) x.

(** [fmt.Println] and [fmt.Printf] append to standard output. *)
Definition emit (p : print) (w : World) : World :=
  mkWorld (srv w) (chans w) (handlers w) (trig w) (stdin w) (stdinClosed w)
          (stdout w ++ [p]) (clock w) (registered w) (released w).

(** [s.mu.Lock()] by [who]: possible only while the mutex is free. *)
Definition Lock (who : owner) (w : World) : result World :=
  match mu (srv w) with
  | None => Ok (set_srv (mkServer (Some who) (pendingRequests (srv w))
                                  (requestCounter (srv w))) w)
  | Some _ => Blocked
  end.

(** [s.mu.Unlock()]: a fatal error on a mutex that is not locked. *)
Definition Unlock (w : World) : result World :=
  match mu (srv w) with
  | Some _ => Ok (set_srv (mkServer None (pendingRequests (srv w))
                                    (requestCounter (srv w))) w)
  | None => Panic "sync: unlock of unlocked mutex"
  end.

(** [make(chan struct{})]: a fresh, open, unbuffered channel. *)
Definition makeChan (w : World) : chan * World :=
  (length (chans w), set_chans (chans w ++ [false]) w).

(** [close(c)] *)
Definition closeChan (c : chan) (w : World) : result World :=
  match chans w !! c with
  | Some false => Ok (set_chans (<[c := true]> (chans w)) w)
  | Some true => Panic "close of closed channel"
  | None => Panic "close of nil channel"
  end.

(** [<-c] on a channel nobody sends on: returns once [c] is closed. *)
Definition recvChan (c : chan) (w : World) : result World :=
  match chans w !! c with
  | Some true => Ok w
  | _ => Blocked
  end.

(** One statement of [handleRequest] (lines 60-108), run by goroutine [t]
    whose locals are [h]. *)
Definition hstep (t : nat) (w : World) (h : Handler) : result (World * Handler) :=
  let s := srv w in
  match h_pc h with
  | H61 => (* requestTime := time.Now() *)
      Ok (w, h_goto H64 (h_set_requestTime (clock w) h))
  | H64 => (* req := &pendingRequest{...} *)
      let '(c, w1) := makeChan w in
      let req := mkPending (h_requestTime h) c (Http.RemoteAddr (h_r h))
                           (Http.URLPath (h_r h)) (Http.Method (h_r h)) in
      Ok (w1, h_goto H73 (h_set_req req h))
  | H73 => (* s.mu.Lock() *)
      bind (Lock (OwnHandler t) w) (λ w1, Ok (w1, h_goto H74 h))
  | H74 => (* s.pendingRequests = append(s.pendingRequests, req) *)
      Ok (set_registered (registered w ++ [h_req h])
            (set_srv (mkServer (mu s) (pendingRequests s ++ [h_req h])
                               (requestCounter s)) w),
          h_goto H75 h)
  | H75 => (* s.requestCounter++ *)
      Ok (set_srv (mkServer (mu s) (pendingRequests s)
                            (GoInt.incr (requestCounter s))) w,
          h_goto H76 h)
  | H76 => (* requestNum := s.requestCounter *)
      Ok (w, h_goto H77 (h_set_requestNum (requestCounter s) h))
  | H77 => (* pendingCount := len(s.pendingRequests) *)
      Ok (w, h_goto H78 (h_set_pendingCount (len (pendingRequests s)) h))
  | H78 => (* s.mu.Unlock() *)
      bind (Unlock w) (λ w1, Ok (w1, h_goto H80 h))
  | H80 =>
      Ok (emit (Printf fmtRequest
                  [AClock (h_requestTime h); AInt (h_requestNum h);
                   AStr (Http.Method (h_r h)); AStr (Http.URLPath (h_r h));
                   AStr (Http.RemoteAddr (h_r h))]) w,
          h_goto H82 h)
  | H82 =>
      Ok (emit (Printf fmtPending [AInt (h_pendingCount h)]) w, h_goto H85 h)
  | H85 => (* w.Header().Set("Content-Type", "text/plain") *)
      Ok (w, h_goto H86 (h_set_w (Http.Set_ "Content-Type" "text/plain" (h_w h)) h))
  | H86 => (* w.WriteHeader(http.StatusOK) *)
      Ok (w, h_goto H89 (h_set_w (Http.WriteHeader Http.StatusOK (h_w h)) h))
  | H89 => (* if flusher, ok := w.(http.Flusher); ok { flusher.Flush() } *)
      Ok (w, h_goto H94
               (if Http.isFlusher (h_w h) then h_set_w (Http.Flush (h_w h)) h else h))
  | H94 => (* <-req.responseChan *)
      bind (recvChan (responseChan (h_req h)) w) (λ w1, Ok (w1, h_goto H96 h))
  | H96 => (* responseTime := time.Now() *)
      Ok (w, h_goto H97 (h_set_responseTime (clock w) h))
  | H97 => (* duration := responseTime.Sub(requestTime) *)
      Ok (w, h_goto H99
               (h_set_duration (GoStd.Sub (h_responseTime h) (h_requestTime h)) h))
  | H99 =>
      Ok (emit (Printf fmtSent
                  [AClock (h_responseTime h); AInt (h_requestNum h);
                   ADuration (h_duration h)]) w,
          h_goto H103 h)
  | H103 => (* timestamp := time.Now().UTC().Format(time.RFC3339) *)
      Ok (w, h_goto H104 (h_set_timestamp (GoStd.formatRFC3339UTC (clock w)) h))
  | H104 => (* json.NewEncoder(w).Encode(map[string]string{"timestamp": timestamp}) *)
      Ok (w, h_goto H108
               (h_set_w (Http.Write_ (GoStd.Encode [("timestamp", h_timestamp h)])
                                     (h_w h)) h))
  | H108 => (* return: the server sends what is still buffered *)
      Ok (w, h_goto HDone (h_set_w (Http.Flush (h_w h)) h))
  | HDone => Blocked
  end.

Definition t_goto (pc : tpc) (g : Trigger) : Trigger :=
  mkTrigger pc (t_pendingRequests g) (t_count g).

(** One statement of [waitForEnter] (lines 110-132). *)
Definition tstep (w : World) : result World :=
  let s := srv w in
  let g := trig w in
  match t_pc g with
  | T112 => (* for scanner.Scan() *)
      match stdin w with
      | _ :: rest => Ok (set_trig (t_goto T114 g) (set_stdin rest w))
      | [] => if stdinClosed w then Ok (set_trig (t_goto TExit g) w) else Blocked
      end
  | T114 => (* s.mu.Lock() *)
      bind (Lock OwnTrigger w) (λ w1, Ok (set_trig (t_goto T115 g) w1))
  | T115 => (* pendingRequests := s.pendingRequests *)
      Ok (set_trig (mkTrigger T116 (pendingRequests s) (t_count g)) w)
  | T116 => (* count := len(pendingRequests) *)
      Ok (set_trig (mkTrigger T117 (t_pendingRequests g)
                              (len (t_pendingRequests g))) w)
  | T117 => (* s.pendingRequests = make([]*pendingRequest, 0) *)
      Ok (set_trig (t_goto T118 g)
            (set_srv (mkServer (mu s) [] (requestCounter s)) w))
  | T118 => (* s.mu.Unlock() *)
      bind (Unlock w) (λ w1, Ok (set_trig (t_goto T120 g) w1))
  | T120 => (* if count == 0 *)
      Ok (set_trig (t_goto (if (t_count g =? 0)%Z then T121 else T125) g) w)
  | T121 => (* fmt.Println("No pending requests"); continue *)
      Ok (set_trig (t_goto T112 g) (emit (Println msgNoPending) w))
  | T125 =>
      Ok (set_trig (t_goto (T128 0) g)
            (emit (Printf fmtReleasing [AInt (t_count g)]) w))
  | T128 i => (* for _, req := range pendingRequests { close(req.responseChan) } *)
      match t_pendingRequests g !! i with
      | Some req =>
          bind (closeChan (responseChan req) w)
               (λ w1, Ok (set_trig (t_goto (T128 (S i)) g)
                            (set_released (released w1 ++ [req]) w1)))
      | None => Ok (set_trig (t_goto T112 g) w)
      end
  | TExit => Blocked
  end.

(** ** The interleaving *)

Inductive action :=
| AServe (r : Http.Request)  (* the HTTP server starts [handleRequest] for a request *)
| AHandler (t : nat)         (* goroutine [t] of [handleRequest] runs one statement *)
| ATrigger                   (* [waitForEnter] runs one statement *)
| AInput (line : string)     (* the operator types a line *)
| AEOF                       (* the operator's input stream closes *)
| ATick (d : N).             (* time passes *)

#[global] Instance action_eq_dec : EqDecision action.
Proof. solve_decision. Defined.

Definition exec (a : action) (w : World) : result World :=
  match a with
  | AServe r => Ok (set_handlers (handlers w ++ [newHandler r]) w)
  | AHandler t =>
      match handlers w !! t with
      | Some h =>
          bind (hstep t w h)
               (λ '(w1, h1), Ok (set_handlers (<[t := h1]> (handlers w1)) w1))
      | None => Blocked
      end
  | ATrigger => tstep w
  | AInput line =>
      if stdinClosed w then Blocked else Ok (set_stdin (stdin w ++ [line]) w)
  | AEOF => Ok (set_stdinClosed true w)
  | ATick d => Ok (set_clock (clock w + Z.of_N d)%Z w)
  end.

Fixpoint run (sch : list action) (w : World) : result World :=
  match sch with
  | [] => Ok w
  | a :: sch' => bind (exec a w) (run sch')
  end.

(** [main] (lines 134-156) once the listener is up: a fresh server, the
    goroutine of [waitForEnter] about to scan, no connection yet, and the
    start-up banner on standard output. *)
Definition banner (env : gmap string string) : list print :=
  [Printf "Starting server on http://localhost%s\n" [AStr (addr env)];
   Println "The server can hold multiple requests.";
   Println "Press ENTER to release ALL pending requests at once.";
   Println EmptyString].

Definition init (env : gmap string string) (now : GoStd.Time) : World :=
  mkWorld NewServer [] [] newTrigger [] false (banner env) now [] [].

Definition reachable (w : World) : Prop :=
  ∃ env now sch, run sch (init env now) = Ok w.

(** ** Regions of the two programs *)

(** Lines 74-78: between [Lock] and [Unlock] in [handleRequest]. *)
Definition hcrit (pc : hpc) : bool :=
  match pc with H74 | H75 | H76 | H77 | H78 => true | _ => false end.

(** Lines 115-118: between [Lock] and [Unlock] in [waitForEnter]. *)
Definition tcrit (pc : tpc) : bool :=
  match pc with T115 | T116 | T117 | T118 => true | _ => false end.

(** Line 70 has run: [req] and its channel exist. *)
Definition allocated (pc : hpc) : bool :=
  match pc with H61 | H64 => false | _ => true end.

(** Line 74 has run: [req] was appended to the registry. *)
Definition appended (pc : hpc) : bool :=
  match pc with H61 | H64 | H73 | H74 => false | _ => true end.

(** Line 76 has run: [requestNum] holds the request's number. *)
Definition numbered (pc : hpc) : bool :=
  match pc with H61 | H64 | H73 | H74 | H75 | H76 => false | _ => true end.

(** Line 94 has run: the release signal was received. *)
Definition resumed (pc : hpc) : bool :=
  match pc with
  | H96 | H97 | H99 | H103 | H104 | H108 | HDone => true
  | _ => false
  end.

(** The drained requests the trigger still has to signal. *)
Definition inflight (g : Trigger) : list pendingRequest :=
  match t_pc g with
  | T118 | T120 | T121 | T125 => t_pendingRequests g
  | T128 i => drop i (t_pendingRequests g)
  | _ => []
  end.

(** The request numbers handed out so far, by goroutine. *)
Definition issued (hs : list Handler) : list Z :=
  omap (λ h, if numbered (h_pc h) then Some (h_requestNum h) else None) hs.

Ltac hstep_cases H :=
  match type of H with
  | hstep _ ?w ?h = Ok _ =>
      unfold hstep, Lock, Unlock, recvChan, makeChan in H;
      destruct (h_pc h) eqn:?; simpl in H;
      repeat match type of H with
      | context [match ?x with _ => _ end] => destruct x eqn:?; simpl in H
      end;
      try discriminate H;
      injection H as <- <-
  end.

Ltac tstep_cases H :=
  match type of H with
  | tstep ?w = Ok _ =>
      unfold tstep, Lock, Unlock, closeChan in H;
      destruct (t_pc (trig w)) eqn:Htpc; simpl in H;
      repeat match type of H with
      | context [match ?x with _ => _ end] => destruct x eqn:?; simpl in H
      end;
      try discriminate H;
      injection H as <-
  end.

(** ** Mutual exclusion *)

Record inv_mutex (w : World) : Prop := {
  mutex_handler t h :
    handlers w !! t = Some h →
    hcrit (h_pc h) = true ↔ mu (srv w) = Some (OwnHandler t);
  mutex_trigger :
    tcrit (t_pc (trig w)) = true ↔ mu (srv w) = Some OwnTrigger;
  mutex_holder t :
    mu (srv w) = Some (OwnHandler t) → t < length (handlers w)
}.

(** ** The registry, the drained batch and the channels *)

Record inv_registry (w : World) : Prop := {
  (** every request ever appended is signalled, in flight, or pending,
      in this order *)
  reg_split :
    registered w =
    released w ++ inflight (trig w) ++ pendingRequests (srv w);
  (** between lines 115 and 117 the local slice is the registry's *)
  reg_alias :
    t_pc (trig w) = T116 ∨ t_pc (trig w) = T117 →
    t_pendingRequests (trig w) = pendingRequests (srv w);
  (** [count] is the length of the drained slice once line 116 has run *)
  reg_count :
    match t_pc (trig w) with
    | T117 | T118 | T120 | T125 | T128 _ =>
        t_count (trig w) = len (t_pendingRequests (trig w))
    | T121 => t_pendingRequests (trig w) = [] ∧ t_count (trig w) = 0%Z
    | _ => True
    end;
  reg_nodup : NoDup (responseChan <$> registered w);
  reg_closed c :
    chans w !! c = Some true ↔ c ∈ responseChan <$> released w;
  reg_alloc r :
    r ∈ registered w → responseChan r < length (chans w);
  han_alloc t h :
    handlers w !! t = Some h → allocated (h_pc h) = true →
    responseChan (h_req h) < length (chans w);
  han_distinct t1 t2 h1 h2 :
    handlers w !! t1 = Some h1 → handlers w !! t2 = Some h2 →
    allocated (h_pc h1) = true → allocated (h_pc h2) = true →
    responseChan (h_req h1) = responseChan (h_req h2) → t1 = t2;
  han_appended t h :
    handlers w !! t = Some h → allocated (h_pc h) = true →
    if appended (h_pc h) then h_req h ∈ registered w
    else responseChan (h_req h) ∉ responseChan <$> registered w
}.

(** The invariants established so far, together. *)
Definition inv (w : World) : Prop := inv_mutex w ∧ inv_registry w.

(** ** Who may touch the registry *)

Definition is_trigger (a : action) : bool :=
  match a with ATrigger => true | _ => false end.

Definition is_handler (t : nat) (a : action) : bool :=
  match a with AHandler t' => bool_decide (t' = t) | _ => false end.

(** The number of statements a goroutine runs in a schedule. *)
Definition tsteps (sch : list action) : nat := length (filter is_trigger sch).
Definition hsteps (t : nat) (sch : list action) : nat :=
  length (filter (is_handler t) sch).

(** ** The critical section of [waitForEnter] (lines 114-118) *)

(** Where the drain stands after [k] statements of [waitForEnter], in a
    run that started in [w0] just after the [Lock] of line 114. *)
Definition drain_stage (k : nat) (w0 w : World) : Prop :=
  requestCounter (srv w) = requestCounter (srv w0) ∧
  registered w = registered w0 ∧ released w = released w0 ∧
  match k with
  | 0 => t_pc (trig w) = T115 ∧
         pendingRequests (srv w) = pendingRequests (srv w0)
  | 1 => t_pc (trig w) = T116 ∧
         t_pendingRequests (trig w) = pendingRequests (srv w0) ∧
         pendingRequests (srv w) = pendingRequests (srv w0)
  | 2 => t_pc (trig w) = T117 ∧
         t_pendingRequests (trig w) = pendingRequests (srv w0) ∧
         t_count (trig w) = len (pendingRequests (srv w0)) ∧
         pendingRequests (srv w) = pendingRequests (srv w0)
  | 3 => t_pc (trig w) = T118 ∧
         t_pendingRequests (trig w) = pendingRequests (srv w0) ∧
         t_count (trig w) = len (pendingRequests (srv w0)) ∧
         pendingRequests (srv w) = []
  | _ => t_pc (trig w) = T120 ∧
         t_pendingRequests (trig w) = pendingRequests (srv w0) ∧
         t_count (trig w) = len (pendingRequests (srv w0)) ∧
         pendingRequests (srv w) = [] ∧ mu (srv w) = None
  end.

(** ** Sample runs *)

Definition ex_req : Http.Request := Http.mkRequest "10.0.0.7:40000" "/probe" "GET".
Definition ex_req2 : Http.Request := Http.mkRequest "10.0.0.8:40001" "/other" "POST".
Definition ex_now : GoStd.Time := 1765802096123456789%Z.

Definition world_of (r : result World) : World :=
  match r with Ok w => w | _ => init ∅ 0%Z end.

(** One request is registered and waits; the operator has typed a line and
    [waitForEnter] has just locked the mutex. *)
Definition ex_sched_locked : list action :=
  [AServe ex_req] ++ replicate 13 (AHandler 0) ++ [AInput EmptyString; ATrigger; ATrigger].
Definition ex_locked : World := world_of (run ex_sched_locked (init ∅ ex_now)).

(** The drain, while a second connection arrives. *)
Definition ex_sched_drain : list action :=
  [ATrigger; AServe ex_req2; ATrigger; AHandler 1; ATrigger].
Definition ex_drained : World :=
  world_of (run (ex_sched_drain ++ [ATrigger]) ex_locked).

(** The second request registers after the drain. *)
Definition ex_sched_after : list action := replicate 7 (AHandler 1).
Definition ex_after : World := world_of (run ex_sched_after ex_drained).

(** ** After an empty drain (lines 120-122) *)

(** Where [waitForEnter] stands after [k] statements, in a run that started
    in [w0] just after the [Unlock] of line 118 with [count = 0]. *)
Definition idle_stage (k : nat) (w0 w : World) : Prop :=
  released w = released w0 ∧
  match k with
  | 0 => t_pc (trig w) = T120 ∧ t_count (trig w) = 0%Z
  | 1 => t_pc (trig w) = T121
  | _ => t_pc (trig w) = T112 ∧ last (stdout w) = Some (Println msgNoPending)
  end.

(** An empty registry when the operator types a line. *)
Definition ex_sched_idle : list action := [AInput EmptyString; ATrigger; ATrigger].
Definition ex_idle : World := world_of (run ex_sched_idle (init ∅ ex_now)).
Definition ex_sched_idle_drain : list action :=
  [ATrigger; AServe ex_req; ATrigger; ATrigger].
Definition ex_idle_drained : World :=
  world_of (run (ex_sched_idle_drain ++ [ATrigger]) ex_idle).
Definition ex_sched_idle_report : list action := [AHandler 0; ATrigger].
Definition ex_idle_reported : World :=
  world_of (run (ex_sched_idle_report ++ [ATrigger]) ex_idle_drained).

(** ** The release loop (lines 120-131) *)

(** Where [waitForEnter] stands after [k] statements, in a run that started
    in [w0] just after the [Unlock] of line 118 with a non-empty drained
    slice: the test of line 120, the [Printf] of line 125, then one [close]
    for each index, then the exit of the loop. *)
Definition release_stage (k : nat) (w0 w : World) : Prop :=
  let B := t_pendingRequests (trig w0) in
  t_pendingRequests (trig w) = B ∧ t_count (trig w) = len B ∧
  match k with
  | 0 => t_pc (trig w) = T120 ∧ released w = released w0 ∧
         ∃ pre, stdout w = stdout w0 ++ pre
  | 1 => t_pc (trig w) = T125 ∧ released w = released w0 ∧
         ∃ pre, stdout w = stdout w0 ++ pre
  | S (S i) =>
      t_pc (trig w) = (if decide (i ≤ length B) then T128 i else T112) ∧
      released w = released w0 ++ take i B ∧
      ∃ pre post,
        stdout w = stdout w0 ++ pre ++ Printf fmtReleasing [AInt (len B)] :: post
  end.

(** Two requests wait; the operator has typed a line and [waitForEnter]
    has drained both and unlocked the mutex. *)
Definition ex_sched_two : list action :=
  [AServe ex_req; AServe ex_req2] ++ replicate 13 (AHandler 0) ++
  replicate 13 (AHandler 1) ++ [AInput EmptyString] ++ replicate 6 ATrigger.
Definition ex_two : World := world_of (run ex_sched_two (init ∅ ex_now)).

(** The release of both, while time passes and the first handler resumes. *)
Definition ex_sched_release : list action :=
  [ATrigger; ATick 5000000000; ATrigger; ATrigger; AHandler 0; ATrigger].
Definition ex_two_released : World :=
  world_of (run (ex_sched_release ++ [ATrigger]) ex_two).

(** The same release stopped after the first [close]. *)
Definition ex_sched_release1 : list action := [ATrigger; ATick 5000000000; ATrigger].
Definition ex_two_released1 : World :=
  world_of (run (ex_sched_release1 ++ [ATrigger]) ex_two).

(** ** What a handler has done, by program counter *)

Definition contentType : list (string * string) := [("Content-Type", "text/plain")].

(** The response writer of a handler about to run line [pc]; [ts] is the
    local [timestamp]. *)
Definition writer_at (pc : hpc) (ts : string) : Http.ResponseWriter :=
  let w0 := Http.newWriter in
  let w1 := Http.Set_ "Content-Type" "text/plain" w0 in
  let w2 := Http.WriteHeader Http.StatusOK w1 in
  let w3 := Http.Flush w2 in
  let w4 := Http.Write_ (GoStd.Encode [("timestamp", ts)]) w3 in
  match pc with
  | H61 | H64 | H73 | H74 | H75 | H76 | H77 | H78 | H80 | H82 | H85 => w0
  | H86 => w1
  | H89 => w2
  | H94 | H96 | H97 | H99 | H103 | H104 => w3
  | H108 => w4
  | HDone => Http.Flush w4
  end.

(** Line 61 has run. *)
Definition arrived (pc : hpc) : bool :=
  match pc with H61 => false | _ => true end.

(** Line 96 has run. *)
Definition timed (pc : hpc) : bool :=
  match pc with H97 | H99 | H103 | H104 | H108 | HDone => true | _ => false end.

(** Line 103 has run. *)
Definition stamped (pc : hpc) : bool :=
  match pc with H104 | H108 | HDone => true | _ => false end.

Record handler_ok (w : World) (h : Handler) : Prop := {
  ok_writer : h_w h = writer_at (h_pc h) (h_timestamp h);
  ok_req :
    allocated (h_pc h) = true →
    h_req h = mkPending (h_requestTime h) (responseChan (h_req h))
                        (Http.RemoteAddr (h_r h)) (Http.URLPath (h_r h))
                        (Http.Method (h_r h));
  ok_arrived : arrived (h_pc h) = true → (h_requestTime h ≤ clock w)%Z;
  ok_resumed :
    resumed (h_pc h) = true → chans w !! responseChan (h_req h) = Some true;
  ok_timed :
    timed (h_pc h) = true →
    (h_requestTime h ≤ h_responseTime h ≤ clock w)%Z;
  ok_stamped :
    stamped (h_pc h) = true →
    ∃ tm, h_timestamp h = GoStd.formatRFC3339UTC tm ∧
          (h_responseTime h ≤ tm ≤ clock w)%Z
}.

Definition inv_handler (w : World) : Prop :=
  ∀ t h, handlers w !! t = Some h → handler_ok w h.

(** [n] consecutive statements of one handler, with no other goroutine in
    between. *)
Fixpoint hrun (n : nat) (t : nat) (w : World) (h : Handler) : result (World * Handler) :=
  match n with
  | 0 => Ok (w, h)
  | S n' => bind (hstep t w h) (λ '(w1, h1), hrun n' t w1 h1)
  end.

(** The body line 107 writes for a clock reading [tm]. *)
Definition timestampJSON (tm : GoStd.Time) : string :=
  "{" +:+ String GoStd.dquote "timestamp" +:+ String GoStd.dquote ":" +:+
  String GoStd.dquote (GoStd.formatRFC3339UTC tm) +:+
  String GoStd.dquote "}" +:+ String (ascii_of_nat 10) EmptyString.

(** Strings the JSON encoder copies unchanged. *)
Fixpoint safeString (s : string) : bool :=
  match s with
  | EmptyString => true
  | String c s' => GoStd.htmlSafe c && safeString s'
  end.

(** After the release, the first handler runs to its end. *)
Definition ex_sched_finish : list action := replicate 6 (AHandler 0).
Definition ex_done : World := world_of (run ex_sched_finish ex_two_released).
Definition ex_handler (w : World) (t : nat) : Handler :=
  default (newHandler ex_req) (handlers w !! t).

(** ** The critical section of [handleRequest] (lines 73-78) *)

Definition section_pc (k : nat) : hpc :=
  match k with 0 => H74 | 1 => H75 | 2 => H76 | 3 => H77 | 4 => H78 | _ => H80 end.

(** Where goroutine [t] stands after [k] of its statements, in a run that
    started in [w0] just after its [Lock] of line 73. *)
Definition register_stage (t : nat) (k : nat) (w0 w : World) : Prop :=
  ∃ h0 h, handlers w0 !! t = Some h0 ∧ handlers w !! t = Some h ∧
    h_req h = h_req h0 ∧
    h_pc h = section_pc k ∧
    pendingRequests (srv w) =
      (if decide (k = 0) then pendingRequests (srv w0)
       else pendingRequests (srv w0) ++ [h_req h0]) ∧
    registered w =
      (if decide (k = 0) then registered w0 else registered w0 ++ [h_req h0]) ∧
    requestCounter (srv w) =
      (if decide (k ≤ 1) then requestCounter (srv w0)
       else GoInt.incr (requestCounter (srv w0))) ∧
    (3 ≤ k → h_requestNum h = GoInt.incr (requestCounter (srv w0))) ∧
    (4 ≤ k → h_pendingCount h = len (pendingRequests (srv w0) ++ [h_req h0])) ∧
    (5 ≤ k → mu (srv w) = None).

(** The second request of [ex_drained] has locked the mutex. *)
Definition ex_sched_reg_locked : list action := replicate 2 (AHandler 1).
Definition ex_reg_locked : World :=
  world_of (run ex_sched_reg_locked ex_drained).
Definition ex_sched_reg : list action :=
  [AHandler 1; ATrigger; AHandler 1; AServe ex_req; AHandler 1; AHandler 1].
Definition ex_registered : World :=
  world_of (run (ex_sched_reg ++ [AHandler 1]) ex_reg_locked).

(** ** The request numbers *)

(** The line the holder of the mutex is about to run, when the holder is a
    goroutine of [handleRequest]. *)
Definition holder_pc (w : World) : option hpc :=
  match mu (srv w) with
  | Some (OwnHandler t) => h_pc <$> handlers w !! t
  | _ => None
  end.

(** A request is appended and not yet counted (between lines 74 and 75). *)
Definition uncounted (w : World) : nat :=
  match holder_pc w with Some H75 => 1 | _ => 0 end.

(** A request is appended and its number not yet read (lines 74 to 76). *)
Definition unnumbered (w : World) : nat :=
  match holder_pc w with Some H75 | Some H76 => 1 | _ => 0 end.

(** The number the registration of rank [i] (from 0) receives. *)
Definition number_of (i : nat) : Z := GoInt.wrap (Z.of_nat i + 1).

Definition numf (h : Handler) : option Z :=
  if numbered (h_pc h) then Some (h_requestNum h) else None.

Record inv_counter (w : World) : Prop := {
  cnt_bound : unnumbered w ≤ length (registered w);
  cnt_uncounted : uncounted w ≤ unnumbered w;
  cnt_counter :
    requestCounter (srv w) =
    GoInt.wrap (Z.of_nat (length (registered w) - uncounted w));
  cnt_issued :
    issued (handlers w) ≡ₚ
    number_of <$> seq 0 (length (registered w) - unnumbered w)
}.

(** [n] registrations one after the other, each followed by a drain as when
    the operator releases every request at once: the numbers returned. *)
Fixpoint registrations (n : nat) (req : pendingRequest) (s : Server) : list Z :=
  match n with
  | 0 => []
  | S n' =>
      let '(s1, requestNum, _) := register req s in
      let '(s2, _, _) := drainAll s1 in
      requestNum :: registrations n' req s2
  end.

Definition ex_pending : pendingRequest :=
  mkPending ex_now 0 "10.0.0.7:40000" "/probe" "GET".

(** ** Further sample runs *)

(** The first handler of [ex_reg_locked] waits; the second holds the mutex. *)
Definition ex_sched_eof : list action := [AEOF; ATrigger].
Definition ex_exited : World := world_of (run ex_sched_eof (init ∅ ex_now)).
Definition ex_sched_after_exit : list action :=
  [AServe ex_req] ++ replicate 13 (AHandler 0) ++ [ATick 7; AServe ex_req2].
Definition ex_after_exit : World := world_of (run ex_sched_after_exit ex_exited).

(** No line is ever typed: two requests arrive and wait. *)
Definition ex_sched_silent : list action :=
  [AServe ex_req; AServe ex_req2] ++ replicate 13 (AHandler 0) ++
  replicate 13 (AHandler 1) ++ [ATick 60000000000; AEOF; ATrigger].
Definition ex_silent : World := world_of (run ex_sched_silent (init ∅ ex_now)).

Definition is_input (a : action) : bool :=
  match a with AInput _ => true | _ => false end.

(** The state of a run in which the operator has typed nothing. *)
Definition silent (w : World) : Prop :=
  stdin w = [] ∧ (t_pc (trig w) = T112 ∨ t_pc (trig w) = TExit) ∧
  released w = [].

(** Two requests wait and the operator has typed a line that
    [waitForEnter] has not read yet. *)
Definition ex_sched_waiting : list action :=
  [AServe ex_req; AServe ex_req2] ++ replicate 13 (AHandler 0) ++
  replicate 13 (AHandler 1) ++ [AInput EmptyString].
Definition ex_waiting : World := world_of (run ex_sched_waiting (init ∅ ex_now)).

(** The registry after the critical sections of several handlers, one after
    the other. *)
Definition register_all (reqs : list pendingRequest) (s : Server) : Server :=
  foldl (λ s r, (register r s).1.1) s reqs.

(** ** The arrival and release lines a handler prints *)

(** Line 82 has run. *)
Definition announced (pc : hpc) : bool :=
  match pc with
  | H85 | H86 | H89 | H94 | H96 | H97 | H99 | H103 | H104 | H108 | HDone => true
  | _ => false
  end.

(** Line 100 has run. *)
Definition reported (pc : hpc) : bool :=
  match pc with H103 | H104 | H108 | HDone => true | _ => false end.

Record handler_logged (w : World) (h : Handler) : Prop := {
  log_arrival :
    announced (h_pc h) = true →
    ∃ pre mid post,
      stdout w =
      pre ++ Printf fmtRequest
               [AClock (h_requestTime h); AInt (h_requestNum h);
                AStr (Http.Method (h_r h)); AStr (Http.URLPath (h_r h));
                AStr (Http.RemoteAddr (h_r h))]
          :: mid ++ Printf fmtPending [AInt (h_pendingCount h)] :: post;
  log_first :
    h_pc h = H82 →
    Printf fmtRequest
      [AClock (h_requestTime h); AInt (h_requestNum h);
       AStr (Http.Method (h_r h)); AStr (Http.URLPath (h_r h));
       AStr (Http.RemoteAddr (h_r h))] ∈ stdout w;
  log_duration :
    h_pc h = H99 ∨ reported (h_pc h) = true →
    h_duration h = GoStd.Sub (h_responseTime h) (h_requestTime h);
  log_release :
    reported (h_pc h) = true →
    Printf fmtSent
      [AClock (h_responseTime h); AInt (h_requestNum h);
       ADuration (h_duration h)] ∈ stdout w
}.

Definition inv_logged (w : World) : Prop :=
  ∀ t h, handlers w !! t = Some h → handler_logged w h.

(** ** Standing still *)

(** No goroutine of the program can run a statement. *)
Definition quiescent (w : World) : Prop :=
  exec ATrigger w = Blocked ∧ ∀ t, exec (AHandler t) w = Blocked.

(** ** Progress *)

(** The statements [handleRequest] has still to run before it returns. *)
Definition hrank (pc : hpc) : nat :=
  match pc with
  | H61 => 20 | H64 => 19 | H73 => 18 | H74 => 17 | H75 => 16 | H76 => 15
  | H77 => 14 | H78 => 13 | H80 => 12 | H82 => 11 | H85 => 10 | H86 => 9
  | H89 => 8 | H94 => 7 | H96 => 6 | H97 => 5 | H99 => 4 | H103 => 3
  | H104 => 2 | H108 => 1 | HDone => 0
  end.

(** Line 91 has run: the handler waits at line 94 or is past it. *)
Definition parked (pc : hpc) : bool :=
  match pc with
  | H94 | H96 | H97 | H99 | H103 | H104 | H108 | HDone => true
  | _ => false
  end.

(** A bound on the statements [waitForEnter] has still to run before it
    scans the input again. *)
Definition trank (w : World) : nat :=
  let g := trig w in
  match t_pc g with
  | T112 | TExit => 0
  | T114 => 9 + length (pendingRequests (srv w))
  | T115 => 8 + length (pendingRequests (srv w))
  | T116 => 7 + length (t_pendingRequests g)
  | T117 => 6 + length (t_pendingRequests g)
  | T118 => 5 + length (t_pendingRequests g)
  | T120 => 4 + length (t_pendingRequests g)
  | T121 => 1
  | T125 => 2 + length (t_pendingRequests g)
  | T128 i => 1 + (length (t_pendingRequests g) - i)
  end.

(** Line 117 has run in the present round of [waitForEnter]. *)
Definition drained (pc : tpc) : bool :=
  match pc with T114 | T115 | T116 | T117 => false | _ => true end.

(** The mutex is free or held by goroutine [t] of [handleRequest]. *)
Definition free_for (t : nat) (w : World) : Prop :=
  mu (srv w) = None ∨ mu (srv w) = Some (OwnHandler t).

(** No goroutine of [handleRequest] holds the mutex. *)
Definition no_handler_holds (w : World) : Prop :=
  ∀ t, mu (srv w) ≠ Some (OwnHandler t).

(** A statement of the program, as opposed to an event of its
    environment. *)
Definition is_program (a : action) : bool :=
  match a with AHandler _ | ATrigger => true | _ => false end.

(** A schedule in which only the program runs. *)
Definition program_only (sch : list action) : Prop :=
  Forall (λ a, is_program a = true) sch.

(** * Properties *)

(** ** Basic facts about the step functions *)

Lemma exec_handler t w w' :
  exec (AHandler t) w = Ok w' →
  ∃ h w1 h1, handlers w !! t = Some h ∧ hstep t w h = Ok (w1, h1) ∧
             w' = set_handlers (<[t := h1]> (handlers w1)) w1.
Proof.
  simpl. destruct (handlers w !! t) as [h|] eqn:Hh; [|done].
  destruct (hstep t w h) as [[w1 h1]| |] eqn:Hs; simpl; [|done..].
  intros [= <-]. by eexists _, _, _.
Qed.

Lemma hstep_handlers t w h w1 h1 :
  hstep t w h = Ok (w1, h1) → handlers w1 = handlers w ∧ trig w1 = trig w.
Proof. intros H. hstep_cases H; done. Qed.

Lemma lookup_handlers_insert (hs : list Handler) t h1 t' h' :
  <[t := h1]> hs !! t' = Some h' →
  (t' = t ∧ h' = h1) ∨ (t' ≠ t ∧ hs !! t' = Some h').
Proof.
  intros H. destruct (decide (t' = t)) as [->|Hne].
  - left. split; [done|].
    destruct (decide (t < length hs)).
    + rewrite list_lookup_insert_eq in H by done. congruence.
    + rewrite list_insert_ge in H by lia.
      apply lookup_lt_Some in H. lia.
  - right. rewrite list_lookup_insert_ne in H by done. done.
Qed.

Lemma inv_mutex_init env now : inv_mutex (init env now).
Proof. split; simpl; [intros t h H; by rewrite lookup_nil in H | done..]. Qed.

(** What a statement of the handler does to the mutex. *)
Lemma hstep_mutex t w h w1 h1 :
  hstep t w h = Ok (w1, h1) →
  (hcrit (h_pc h1) = hcrit (h_pc h) ∧ mu (srv w1) = mu (srv w)) ∨
  (h_pc h = H73 ∧ h_pc h1 = H74 ∧
   mu (srv w) = None ∧ mu (srv w1) = Some (OwnHandler t)) ∨
  (h_pc h = H78 ∧ h_pc h1 = H80 ∧ mu (srv w1) = None).
Proof. intros H. hstep_cases H; simpl; auto 10. Qed.

Lemma tstep_mutex w w1 :
  tstep w = Ok w1 →
  handlers w1 = handlers w ∧
  ((tcrit (t_pc (trig w1)) = tcrit (t_pc (trig w)) ∧ mu (srv w1) = mu (srv w)) ∨
   (t_pc (trig w) = T114 ∧ t_pc (trig w1) = T115 ∧
    mu (srv w) = None ∧ mu (srv w1) = Some OwnTrigger) ∨
   (t_pc (trig w) = T118 ∧ t_pc (trig w1) = T120 ∧ mu (srv w1) = None)).
Proof. intros H. tstep_cases H; simpl; auto 10. Qed.

Lemma inv_mutex_exec a w w' :
  inv_mutex w → exec a w = Ok w' → inv_mutex w'.
Proof.
  intros [IH IT IL] Hex. destruct a as [r|t| |l| |d].
  - injection Hex as <-. split; simpl; [|done|].
    + intros t h [H|[Hl H]]%lookup_app_Some; [by apply IH|].
      apply list_lookup_singleton_Some in H as [Ht <-]. simpl.
      split; [done|]. intros Hmu%IL. lia.
    + intros t Hmu%IL. rewrite length_app. lia.
  - apply exec_handler in Hex as (h & w1 & h1 & Hh & Hs & ->).
    destruct (hstep_handlers _ _ _ _ _ Hs) as [Ehs Etr].
    pose proof (IH _ _ Hh) as IHt.
    apply hstep_mutex in Hs. simpl. rewrite Ehs.
    split; simpl; rewrite ?Etr, ?length_insert.
    + intros t' h' [[-> ->]|[Hne Hh']]%lookup_handlers_insert.
      * destruct Hs as [[E1 E2]|[(P & P1 & M & M1)|(P & P1 & M1)]].
        -- by rewrite E1, E2.
        -- by rewrite P1, M1.
        -- by rewrite P1, M1.
      * specialize (IH _ _ Hh').
        destruct Hs as [[E1 E2]|[(P & P1 & M & M1)|(P & P1 & M1)]].
        -- by rewrite E2.
        -- rewrite M1. rewrite M in IH. split; [intros Hc%IH; done|].
           intros [= ->]. done.
        -- rewrite M1. rewrite P in IHt. split; [|done].
           intros Hc%IH. assert (mu (srv w) = Some (OwnHandler t)) as Hm
             by by apply IHt. congruence.
    + destruct Hs as [[E1 E2]|[(P & P1 & M & M1)|(P & P1 & M1)]].
      * by rewrite E2.
      * rewrite M1. rewrite M in IT. split; [intros Hc%IT; done|done].
      * rewrite M1. rewrite P in IHt. split; [|done].
        intros Hc%IT. assert (mu (srv w) = Some (OwnHandler t)) as Hm
          by by apply IHt. congruence.
    + intros t' Hmu. destruct (decide (t' = t)) as [->|];
        [by eapply lookup_lt_Some|]. apply IL.
      destruct Hs as [[E1 E2]|[(P & P1 & M & M1)|(P & P1 & M1)]]; congruence.
  - simpl in Hex. apply tstep_mutex in Hex as [Ehs Hex].
    pose proof IT as IT'.
    split; rewrite ?Ehs.
    + intros t h Hh. specialize (IH _ _ Hh).
      destruct Hex as [[E1 E2]|[(P & P1 & M & M1)|(P & P1 & M1)]].
      * by rewrite E2.
      * rewrite M1. rewrite M in IH. split; [intros Hc%IH; done|done].
      * rewrite M1. rewrite P in IT. split; [|done].
        intros Hc%IH. assert (mu (srv w) = Some OwnTrigger) as Hm
          by by apply IT. congruence.
    + destruct Hex as [[E1 E2]|[(P & P1 & M & M1)|(P & P1 & M1)]].
      * by rewrite E1, E2.
      * by rewrite P1, M1.
      * by rewrite P1, M1.
    + intros t Hmu. apply IL.
      destruct Hex as [[E1 E2]|[(P & P1 & M & M1)|(P & P1 & M1)]];
        [congruence..|].
      congruence.
  - simpl in Hex. destruct (stdinClosed w); [done|]. injection Hex as <-. by split.
  - injection Hex as <-. by split.
  - injection Hex as <-. by split.
Qed.

Lemma inv_registry_init env now : inv_registry (init env now).
Proof.
  split; simpl; try done.
  - constructor.
  - intros c. rewrite lookup_nil. split; [done|]. by intros ?%elem_of_nil.
  - by intros r ?%elem_of_nil.
Qed.

(** What a statement of the handler does to the registry. *)
Lemma hstep_registry t w h w1 h1 :
  hstep t w h = Ok (w1, h1) →
  released w1 = released w ∧
  (h_pc h = H64 ∧ h_pc h1 = H73 ∧
   chans w1 = chans w ++ [false] ∧ responseChan (h_req h1) = length (chans w) ∧
   pendingRequests (srv w1) = pendingRequests (srv w) ∧
   registered w1 = registered w) ∨
  released w1 = released w ∧
  (h_pc h = H74 ∧ h_pc h1 = H75 ∧ chans w1 = chans w ∧ h_req h1 = h_req h ∧
   pendingRequests (srv w1) = pendingRequests (srv w) ++ [h_req h] ∧
   registered w1 = registered w ++ [h_req h]) ∨
  released w1 = released w ∧
  (allocated (h_pc h1) = allocated (h_pc h) ∧
   appended (h_pc h1) = appended (h_pc h) ∧
   chans w1 = chans w ∧ h_req h1 = h_req h ∧
   pendingRequests (srv w1) = pendingRequests (srv w) ∧
   registered w1 = registered w).
Proof.
  intros H. hstep_cases H; simpl;
    first [ left; by repeat split
          | right; left; by repeat split
          | right; right; by repeat split ].
Qed.

Lemma inv_registry_exec a w w' :
  inv_mutex w → inv_registry w → exec a w = Ok w' → inv_registry w'.
Proof.
  intros IM [I1 I2 I3 I4 I5 I6 I7 I8 I9] Hex. destruct a as [r|t| |l| |d].
  - injection Hex as <-. split; simpl; try done.
    + intros t h [H|[Hl H]]%lookup_app_Some; [by eapply I7|].
      by apply list_lookup_singleton_Some in H as [Ht <-].
    + intros t1 t2 h1 h2 [H1|[_ H1]]%lookup_app_Some [H2|[_ H2]]%lookup_app_Some;
        [by eapply I8|..].
      all: try (by apply list_lookup_singleton_Some in H1 as [_ <-]).
      by apply list_lookup_singleton_Some in H2 as [_ <-].
    + intros t h [H|[Hl H]]%lookup_app_Some; [by eapply I9|].
      by apply list_lookup_singleton_Some in H as [Ht <-].
  - apply exec_handler in Hex as (h & w1 & h1 & Hh & Hs & ->).
    destruct (hstep_handlers _ _ _ _ _ Hs) as [Ehs Etr].
    pose proof (mutex_handler _ IM _ _ Hh) as IMt.
    pose proof (mutex_trigger _ IM) as IMT.
    pose proof (hstep_mutex _ _ _ _ _ Hs) as Hmu.
    apply hstep_registry in Hs. rewrite Ehs.
    destruct Hs as [(Erel & Hpc & Hpc1 & Ech & Ereq & Epen & Ereg)
                   |[(Erel & Hpc & Hpc1 & Ech & Ereq & Epen & Ereg)
                    |(Erel & Hal & Hap & Ech & Ereq & Epen & Ereg)]].
    + (* line 64: a fresh channel *)
      split; simpl; rewrite ?Etr, ?Erel, ?Epen, ?Ereg, ?Ech; try done.
      * intros c. rewrite <- I5. split.
        -- intros [H|[_ H]]%lookup_app_Some; [done|].
           by apply list_lookup_singleton_Some in H as [_ ?].
        -- apply lookup_app_l_Some.
      * intros r' Hr'%I6. rewrite length_app. simpl. lia.
      * intros t' h' [[-> ->]|[Hne Hh']]%lookup_handlers_insert Ha;
          rewrite length_app; simpl; [lia|].
        specialize (I7 _ _ Hh' Ha). lia.
      * intros t1 t2 h1' h2' [[-> ->]|[Hne1 Hh1']]%lookup_handlers_insert
          [[-> ->]|[Hne2 Hh2']]%lookup_handlers_insert Ha1 Ha2 Heq; [done|..].
        -- specialize (I7 _ _ Hh2' Ha2). lia.
        -- specialize (I7 _ _ Hh1' Ha1). lia.
        -- by eapply I8.
      * intros t' h' [[-> ->]|[Hne Hh']]%lookup_handlers_insert Ha;
          [|by eapply I9].
        rewrite Hpc1. simpl. rewrite Ereq.
        intros (r' & Hr' & Hin)%list_elem_of_fmap. apply I6 in Hin. lia.
    + (* line 74: the append *)
      assert (allocated (h_pc h) = true) as Hah by by rewrite Hpc.
      assert (mu (srv w) = Some (OwnHandler t)) as Hown
        by (apply IMt; by rewrite Hpc).
      pose proof (I9 _ _ Hh Hah) as Hfresh. rewrite Hpc in Hfresh. simpl in Hfresh.
      split; simpl; rewrite ?Etr, ?Erel, ?Epen, ?Ereg, ?Ech; try done.
      * rewrite I1. by rewrite <- !(assoc_L (++)).
      * intros Hpct. assert (tcrit (t_pc (trig w)) = true) as Hc%IMT
          by (destruct Hpct as [-> | ->]; done). congruence.
      * rewrite fmap_app. apply NoDup_app. split_and!; [done| |apply NoDup_singleton].
        intros c Hc ->%list_elem_of_singleton. done.
      * intros r' [Hr'| ->%list_elem_of_singleton]%elem_of_app; [by eapply I6|].
        by eapply I7.
      * intros t' h' [[-> ->]|[Hne Hh']]%lookup_handlers_insert Ha; [|by eapply I7].
        rewrite Ereq. by eapply I7.
      * intros t1 t2 h1' h2' [[-> ->]|[Hne1 Hh1']]%lookup_handlers_insert
          [[-> ->]|[Hne2 Hh2']]%lookup_handlers_insert Ha1 Ha2; rewrite ?Ereq;
          [done|by eapply I8..].
      * intros t' h' [[-> ->]|[Hne Hh']]%lookup_handlers_insert Ha.
        -- rewrite Hpc1, Ereq. simpl. apply elem_of_app. right.
           by apply list_elem_of_singleton.
        -- specialize (I9 _ _ Hh' Ha). destruct (appended (h_pc h')).
           ++ apply elem_of_app. by left.
           ++ rewrite fmap_app. intros [?| Heq%list_elem_of_singleton]%elem_of_app;
                [done|]. simpl in Heq. apply Hne. by eapply I8.
    + (* every other line *)
      split; simpl; rewrite ?Etr, ?Erel, ?Epen, ?Ereg, ?Ech; try done.
      * intros t' h' [[-> ->]|[Hne Hh']]%lookup_handlers_insert Ha; [|by eapply I7].
        rewrite Ereq. eapply I7; [done|]. by rewrite <- Hal.
      * intros t1 t2 h1' h2' [[-> ->]|[Hne1 Hh1']]%lookup_handlers_insert
          [[-> ->]|[Hne2 Hh2']]%lookup_handlers_insert; rewrite ?Ereq, ?Hal;
          [done|by eapply I8..].
      * intros t' h' [[-> ->]|[Hne Hh']]%lookup_handlers_insert; [|by eapply I9].
        rewrite Hal, Hap, Ereq. by eapply I9.
  - simpl in Hex. unfold inflight in I1.
    tstep_cases Hex;
      try rewrite Htpc in I1; try rewrite Htpc in I2; try rewrite Htpc in I3;
      (split; unfold inflight; simpl; try done);
      try (intros [?|?]; done).
    + (* line 116 *) intros _. apply I2. by left.
    + (* line 117 *) rewrite I1, I2 by by right. simpl. by rewrite app_nil_r.
    + (* line 120, count == 0 *)
      split; [|by apply Z.eqb_eq].
      apply Z.eqb_eq in Heqb. rewrite I3 in Heqb. unfold len in Heqb.
      apply nil_length_inv. lia.
    + (* line 121 *) destruct I3 as [E _]. by rewrite I1, E.
    + (* line 129 *)
      rewrite I1. rewrite <- (assoc_L (++)). simpl.
      by rewrite (drop_S _ _ _ Heqo).
    + intros c. rewrite fmap_app, elem_of_app, <- I5. simpl.
      rewrite list_elem_of_singleton.
      destruct (decide (c = responseChan p)) as [->|Hne].
      * rewrite list_lookup_insert_eq by by eapply lookup_lt_Some. tauto.
      * rewrite list_lookup_insert_ne by done. tauto.
    + intros r Hr. rewrite length_insert. by apply I6.
    + intros t h Hh Ha. rewrite length_insert. by eapply I7.
    + (* the loop ends *)
      rewrite I1. rewrite drop_ge; [done|]. by apply lookup_ge_None.
  - simpl in Hex. destruct (stdinClosed w); [done|]. injection Hex as <-. by split.
  - injection Hex as <-. by split.
  - injection Hex as <-. by split.
Qed.

(** ** Runs *)

Lemma run_app sch1 sch2 w :
  run (sch1 ++ sch2) w = bind (run sch1 w) (run sch2).
Proof.
  revert w. induction sch1 as [|a sch1 IH]; intros w; simpl; [done|].
  destruct (exec a w); simpl; auto.
Qed.

Lemma run_app_Ok sch1 sch2 w w2 :
  run (sch1 ++ sch2) w = Ok w2 ↔
  ∃ w1, run sch1 w = Ok w1 ∧ run sch2 w1 = Ok w2.
Proof.
  rewrite run_app. destruct (run sch1 w) as [w1| |]; simpl.
  - split; [by exists w1|]. by intros (? & [= <-] & ?).
  - split; [done|]. by intros (? & ? & ?).
  - split; [done|]. by intros (? & ? & ?).
Qed.

Lemma run_cons_Ok a sch w w2 :
  run (a :: sch) w = Ok w2 ↔ ∃ w1, exec a w = Ok w1 ∧ run sch w1 = Ok w2.
Proof.
  simpl. destruct (exec a w) as [w1| |]; simpl.
  - split; [by exists w1|]. by intros (? & [= <-] & ?).
  - split; [done|]. by intros (? & ? & ?).
  - split; [done|]. by intros (? & ? & ?).
Qed.

Lemma run_snoc_Ok a sch w w2 :
  run (sch ++ [a]) w = Ok w2 ↔ ∃ w1, run sch w = Ok w1 ∧ exec a w1 = Ok w2.
Proof.
  rewrite run_app_Ok. split; intros (w1 & H1 & H2); exists w1; split; try done.
  - simpl in H2. by destruct (exec a w1).
  - simpl. by rewrite H2.
Qed.

Lemma inv_init env now : inv (init env now).
Proof. split; [apply inv_mutex_init | apply inv_registry_init]. Qed.

Lemma inv_exec a w w' : inv w → exec a w = Ok w' → inv w'.
Proof.
  intros [IM IR] Hex. split;
    [by eapply inv_mutex_exec | by eapply inv_registry_exec].
Qed.

Lemma inv_run sch w w' : inv w → run sch w = Ok w' → inv w'.
Proof.
  revert w. induction sch as [|a sch IH]; intros w Hw; simpl.
  - by intros [= <-].
  - destruct (exec a w) as [w1| |] eqn:Hex; simpl; [|done..].
    apply IH. by eapply inv_exec.
Qed.

Lemma reachable_inv w : reachable w → inv w.
Proof. intros (env & now & sch & Hrun). eapply inv_run; [apply inv_init|done]. Qed.

Lemma reachable_run sch w w' : reachable w → run sch w = Ok w' → reachable w'.
Proof.
  intros (env & now & sch0 & Hrun) Hrun'. exists env, now, (sch0 ++ sch).
  apply run_app_Ok. eauto.
Qed.

(** While [waitForEnter] holds the mutex, no other goroutine changes the
    registry, the counter or the histories. *)
Lemma frame_trigger_locked a w w' :
  inv_mutex w → mu (srv w) = Some OwnTrigger → is_trigger a = false →
  exec a w = Ok w' →
  srv w' = srv w ∧ trig w' = trig w ∧
  registered w' = registered w ∧ released w' = released w.
Proof.
  intros IM Hmu Ha Hex. destruct a as [r|t| |l| |d]; try done.
  - by injection Hex as <-.
  - apply exec_handler in Hex as (h & w1 & h1 & Hh & Hs & ->).
    pose proof (mutex_handler _ IM _ _ Hh) as IMt. rewrite Hmu in IMt.
    hstep_cases Hs; simpl in *; try done;
      try (by (assert (Some OwnTrigger = Some (OwnHandler t)) by by apply IMt));
      congruence.
  - simpl in Hex. destruct (stdinClosed w); [done|]. by injection Hex as <-.
  - by injection Hex as <-.
  - by injection Hex as <-.
Qed.

(** While goroutine [t] of [handleRequest] holds the mutex, no other
    goroutine changes the registry, the counter, the list of appends or
    the locals of [t]. *)
Lemma frame_handler_locked t a w w' :
  inv_mutex w → mu (srv w) = Some (OwnHandler t) → is_handler t a = false →
  exec a w = Ok w' →
  srv w' = srv w ∧ registered w' = registered w ∧
  handlers w' !! t = handlers w !! t.
Proof.
  intros IM Hmu Ha Hex. destruct a as [r|t'| |l| |d].
  - injection Hex as <-. simpl. split_and!; [done..|].
    apply lookup_app_l. by apply (mutex_holder _ IM).
  - simpl in Ha. apply bool_decide_eq_false in Ha.
    apply exec_handler in Hex as (h & w1 & h1 & Hh & Hs & ->).
    pose proof (mutex_handler _ IM _ _ Hh) as IMt. rewrite Hmu in IMt.
    assert (hcrit (h_pc h) = false) as Hnc.
    { destruct (hcrit (h_pc h)); [|done].
      assert (Some (OwnHandler t) = Some (OwnHandler t')) by by apply IMt.
      congruence. }
    hstep_cases Hs; simpl in *; try done;
      rewrite ?list_lookup_insert_ne by done; try done; congruence.
  - simpl in Hex. pose proof (mutex_trigger _ IM) as IMT. rewrite Hmu in IMT.
    assert (tcrit (t_pc (trig w)) = false) as Hnc.
    { destruct (tcrit (t_pc (trig w))); [|done].
      by assert (Some (OwnHandler t) = Some OwnTrigger) by by apply IMT. }
    tstep_cases Hex; simpl in *; try done; congruence.
  - simpl in Hex. destruct (stdinClosed w); [done|]. by injection Hex as <-.
  - by injection Hex as <-.
  - by injection Hex as <-.
Qed.

Lemma drain_stage_locked k w0 w :
  inv_mutex w → k < 4 → drain_stage k w0 w → mu (srv w) = Some OwnTrigger.
Proof.
  intros IM Hk (_ & _ & _ & Hst). apply (mutex_trigger _ IM).
  destruct k as [|[|[|[|k]]]]; [..|lia]; destruct Hst as [-> _]; done.
Qed.

Lemma drain_stage_exec a k w0 w w' :
  inv_mutex w → k < 4 → drain_stage k w0 w → exec a w = Ok w' →
  drain_stage (if is_trigger a then S k else k) w0 w'.
Proof.
  intros IM Hk Hst Hex.
  pose proof (drain_stage_locked _ _ _ IM Hk Hst) as Hmu.
  destruct (is_trigger a) eqn:Ha.
  - destruct a; try done. simpl in Hex.
    destruct Hst as (Hc & Hr & Hl & Hst). unfold tstep, Unlock in Hex.
    destruct k as [|[|[|[|k]]]]; [..|lia]; simpl in Hst.
    + destruct Hst as [Hpc Hp]. rewrite Hpc in Hex. injection Hex as <-.
      by repeat split.
    + destruct Hst as (Hpc & Hb & Hp). rewrite Hpc in Hex. injection Hex as <-.
      repeat split; simpl; try done. by rewrite Hb.
    + destruct Hst as (Hpc & Hb & Hn & Hp). rewrite Hpc in Hex.
      injection Hex as <-. by repeat split.
    + destruct Hst as (Hpc & Hb & Hn & Hp). rewrite Hpc, Hmu in Hex.
      injection Hex as <-. by repeat split.
  - destruct (frame_trigger_locked _ _ _ IM Hmu Ha Hex) as (Es & Et & Er & El).
    unfold drain_stage in *. by rewrite Es, Et, Er, El.
Qed.

Lemma tsteps_cons a sch :
  tsteps (a :: sch) = if is_trigger a then S (tsteps sch) else tsteps sch.
Proof.
  unfold tsteps. rewrite filter_cons. by destruct (is_trigger a).
Qed.

Lemma hsteps_cons t a sch :
  hsteps t (a :: sch) = if is_handler t a then S (hsteps t sch) else hsteps t sch.
Proof.
  unfold hsteps. rewrite filter_cons. by destruct (is_handler t a).
Qed.

Lemma drain_stage_run sch k w0 w w' :
  inv w → drain_stage k w0 w → run sch w = Ok w' → k + tsteps sch ≤ 3 →
  drain_stage (k + tsteps sch) w0 w'.
Proof.
  revert k w. induction sch as [|a sch IH]; intros k w Hw Hst Hrun Hk.
  - injection Hrun as <-. unfold tsteps. simpl. by rewrite Nat.add_0_r.
  - apply run_cons_Ok in Hrun as (w1 & Hex & Hrun).
    rewrite tsteps_cons in *.
    assert (k < 4) as Hlt by (destruct (is_trigger a); lia).
    pose proof (drain_stage_exec a k w0 w w1 (proj1 Hw) Hlt Hst Hex) as H1.
    destruct (is_trigger a) eqn:Ha.
    + replace (k + S (tsteps sch)) with (S k + tsteps sch) by lia.
      apply (IH (S k) w1); [by eapply inv_exec|done..|lia].
    + apply (IH k w1); [by eapply inv_exec|done..].
Qed.

(** The whole section: from the state [w0] in which [waitForEnter] has
    just locked the mutex to the state [w1] just after its [Unlock], under
    any interleaving with the other goroutines. *)
Lemma drain_section sch w0 w1 :
  inv w0 → t_pc (trig w0) = T115 → tsteps sch = 3 →
  run (sch ++ [ATrigger]) w0 = Ok w1 →
  drain_stage 4 w0 w1.
Proof.
  intros Hw Hpc Hn (w' & Hrun & Hex)%run_snoc_Ok.
  assert (drain_stage 0 w0 w0) as H0 by by repeat split.
  pose proof (drain_stage_run sch 0 w0 w0 w' Hw H0 Hrun ltac:(lia)) as H3.
  rewrite Hn in H3. simpl in H3.
  apply (drain_stage_exec ATrigger 3 w0 w' w1); [|lia|done..].
  apply (inv_run _ _ _ Hw Hrun).
Qed.

(** The histories only grow. *)
Lemma registered_exec a w w' :
  exec a w = Ok w' → ∃ l, registered w' = registered w ++ l.
Proof.
  intros Hex. destruct a as [r|t| |l| |d].
  - injection Hex as <-. exists []. by rewrite app_nil_r.
  - apply exec_handler in Hex as (h & w1 & h1 & Hh & Hs & ->).
    apply hstep_registry in Hs as [(_ & _ & _ & _ & _ & _ & E)
      |[(_ & _ & _ & _ & _ & _ & E)|(_ & _ & _ & _ & _ & _ & E)]];
      simpl; rewrite E; [exists []|by eexists|exists []]; by rewrite app_nil_r.
  - simpl in Hex. exists []. rewrite app_nil_r. tstep_cases Hex; done.
  - simpl in Hex. destruct (stdinClosed w); [done|]. injection Hex as <-.
    exists []. by rewrite app_nil_r.
  - injection Hex as <-. exists []. by rewrite app_nil_r.
  - injection Hex as <-. exists []. by rewrite app_nil_r.
Qed.

Lemma registered_run sch w w' :
  run sch w = Ok w' → ∃ l, registered w' = registered w ++ l.
Proof.
  revert w. induction sch as [|a sch IH]; intros w Hrun.
  - injection Hrun as <-. exists []. by rewrite app_nil_r.
  - apply run_cons_Ok in Hrun as (w1 & Hex & Hrun).
    apply registered_exec in Hex as [l1 E1]. apply IH in Hrun as [l2 E2].
    exists (l1 ++ l2). by rewrite E2, E1, (assoc_L (++)).
Qed.

Lemma registered_NoDup w : inv w → NoDup (registered w).
Proof. intros [_ IR]. eapply NoDup_fmap_1, (reg_nodup _ IR). Qed.

(** Once it holds the mutex, [waitForEnter] reaches its [Unlock] on its
    own: none of lines 115-118 blocks or panics. *)
Lemma drain_progress w0 :
  inv w0 → t_pc (trig w0) = T115 →
  ∃ w1, run [ATrigger; ATrigger; ATrigger; ATrigger] w0 = Ok w1.
Proof.
  intros [IM _] Hpc.
  assert (mu (srv w0) = Some OwnTrigger) as Hmu
    by (apply (mutex_trigger _ IM); by rewrite Hpc).
  unfold run, exec, tstep. rewrite Hpc. simpl.
  unfold Unlock. simpl. rewrite Hmu. simpl. eauto.
Qed.


(** ** The drain (lines 114-118) *)

(** C1.  [waitForEnter] holds the mutex in [w0] (it has just run line 114);
    [w1] is the state just after its [Unlock] of line 118, reached under any
    interleaving with the other goroutines; [w2] is any later state.  The
    drained slice is exactly the registry of [w0], its length is [count],
    the registry of [w1] is empty, nothing was registered in between, and no
    request registered later is in the drained slice.  Lines 115-118 never
    block or panic. *)
Theorem drainAll_atomic (w0 w1 w2 : World) (sch sch2 : list action) :
  reachable w0 → t_pc (trig w0) = T115 → tsteps sch = 3 →
  run (sch ++ [ATrigger]) w0 = Ok w1 → run sch2 w1 = Ok w2 →
  t_pendingRequests (trig w1) = pendingRequests (srv w0) ∧
  t_count (trig w1) = len (pendingRequests (srv w0)) ∧
  pendingRequests (srv w1) = [] ∧
  registered w1 = registered w0 ∧
  (∀ r, r ∈ pendingRequests (srv w0) → r ∈ registered w0) ∧
  (∃ later, registered w2 = registered w0 ++ later ∧
            ∀ r, r ∈ later → r ∉ t_pendingRequests (trig w1)) ∧
  (∃ w', run [ATrigger; ATrigger; ATrigger; ATrigger] w0 = Ok w').
Proof.
  intros Hreach Hpc Hn Hrun Hrun2.
  pose proof (reachable_inv _ Hreach) as Hw0.
  pose proof (drain_section _ _ _ Hw0 Hpc Hn Hrun)
    as (Hc & Hr & Hl & _ & Hb & Hcnt & Hp & Hmu).
  assert (∀ r, r ∈ pendingRequests (srv w0) → r ∈ registered w0) as Hsub.
  { intros r Hr0. rewrite (reg_split _ (proj2 Hw0)).
    rewrite !elem_of_app. auto. }
  split_and!; try done.
  - destruct (registered_run _ _ _ Hrun2) as [later E]. rewrite Hr in E.
    exists later. split; [done|]. intros r Hlater. rewrite Hb. intros Hin%Hsub.
    assert (NoDup (registered w2)) as Hnd.
    { apply registered_NoDup. eapply inv_run; [|done].
      eapply inv_run; done. }
    rewrite E in Hnd. apply NoDup_app in Hnd as (_ & Hdisj & _).
    by apply (Hdisj r).
  - by apply drain_progress.
Qed.

Lemma drainAll_atomic_witness :
  t_pendingRequests (trig ex_drained) = pendingRequests (srv ex_locked) ∧
  t_count (trig ex_drained) = len (pendingRequests (srv ex_locked)) ∧
  pendingRequests (srv ex_drained) = [] ∧
  registered ex_drained = registered ex_locked ∧
  (∀ r, r ∈ pendingRequests (srv ex_locked) → r ∈ registered ex_locked) ∧
  (∃ later, registered ex_after = registered ex_locked ++ later ∧
            ∀ r, r ∈ later → r ∉ t_pendingRequests (trig ex_drained)) ∧
  (∃ w', run [ATrigger; ATrigger; ATrigger; ATrigger] ex_locked = Ok w').
Proof.
  apply (drainAll_atomic ex_locked ex_drained ex_after ex_sched_drain ex_sched_after).
  - exists ∅, ex_now, ex_sched_locked. vm_compute. reflexivity.
  - vm_compute. reflexivity.
  - vm_compute. reflexivity.
  - vm_compute. reflexivity.
  - vm_compute. reflexivity.
Defined.

(** ** Following one goroutine through a run *)

Section stages.
Context (mv : action → bool) (P : nat → World → Prop) (n : nat).
Hypothesis step : ∀ a k w w',
  inv w → k < n → P k w → exec a w = Ok w' →
  P (if mv a then S k else k) w'.

Lemma stage_run sch k w w' :
  inv w → P k w → run sch w = Ok w' →
  k + length (filter mv sch) < n →
  P (k + length (filter mv sch)) w'.
Proof using step.
  revert k w. induction sch as [|a sch IH]; intros k w Hw Hst Hrun Hk.
  - injection Hrun as <-. simpl. by rewrite Nat.add_0_r.
  - apply run_cons_Ok in Hrun as (w1 & Hex & Hrun).
    rewrite filter_cons in *.
    assert (k < n) as Hlt by (destruct (mv a); simpl in *; lia).
    pose proof (step a k w w1 Hw Hlt Hst Hex) as H1.
    destruct (mv a) eqn:Ha; simpl in *.
    + replace (k + S (length (filter mv sch)))
        with (S k + length (filter mv sch)) by lia.
      apply (IH (S k) w1); [by eapply inv_exec|done..|lia].
    + apply (IH k w1); [by eapply inv_exec|done..].
Qed.

(** A run whose last statement is the goroutine's own. *)
Lemma stage_run_last sch a k w w' :
  inv w → P k w → mv a = true → run (sch ++ [a]) w = Ok w' →
  k + length (filter mv sch) < n →
  P (S (k + length (filter mv sch))) w'.
Proof using step.
  intros Hw Hst Ha (w1 & Hrun & Hex)%run_snoc_Ok Hk.
  pose proof (stage_run _ _ _ _ Hw Hst Hrun Hk) as H1.
  pose proof (step a _ w1 w' (inv_run _ _ _ Hw Hrun) Hk H1 Hex) as H2.
  by rewrite Ha in H2.
Qed.
End stages.

(** A goroutine other than [waitForEnter] changes neither its locals nor
    the history of closes. *)
Lemma frame_not_trigger a w w' :
  is_trigger a = false → exec a w = Ok w' →
  trig w' = trig w ∧ released w' = released w.
Proof.
  intros Ha Hex. destruct a as [r|t| |l| |d]; try done.
  - by injection Hex as <-.
  - apply exec_handler in Hex as (h & w1 & h1 & Hh & Hs & ->).
    hstep_cases Hs; done.
  - simpl in Hex. destruct (stdinClosed w); [done|]. by injection Hex as <-.
  - by injection Hex as <-.
  - by injection Hex as <-.
Qed.

Lemma idle_stage_exec w0 a k w w' :
  inv w → k < 2 → idle_stage k w0 w → exec a w = Ok w' →
  idle_stage (if is_trigger a then S k else k) w0 w'.
Proof.
  intros _ Hk [Hrel Hst] Hex. destruct (is_trigger a) eqn:Ha.
  - destruct a; try done. simpl in Hex. unfold tstep in Hex.
    destruct k as [|[|k]]; [..|lia]; simpl in Hst.
    + destruct Hst as [Hpc Hc]. rewrite Hpc, Hc in Hex. injection Hex as <-.
      by split.
    + rewrite Hst in Hex. injection Hex as <-. split; [done|]. simpl.
      split; [done|]. by rewrite last_snoc.
  - destruct (frame_not_trigger _ _ _ Ha Hex) as [Et El].
    unfold idle_stage. rewrite Et, El.
    destruct k as [|[|k]]; [done..|lia].
Qed.

(** ** An empty release (lines 114-123) *)

(** C3.  [waitForEnter] holds the mutex in [w0] and the registry is empty;
    [w1] is the state just after its [Unlock], [w2] the state just after
    its [Println], under any interleaving.  The drain leaves the registry
    and the counter as they were, no channel is closed between [w0] and
    [w2], the loop is back at line 112 and the last line printed is
    [No pending requests].  None of these statements blocks or panics. *)
Theorem empty_release_trigger (w0 w1 w2 : World) (sch sch' : list action) :
  reachable w0 → t_pc (trig w0) = T115 → pendingRequests (srv w0) = [] →
  tsteps sch = 3 → run (sch ++ [ATrigger]) w0 = Ok w1 →
  tsteps sch' = 1 → run (sch' ++ [ATrigger]) w1 = Ok w2 →
  pendingRequests (srv w1) = pendingRequests (srv w0) ∧
  requestCounter (srv w1) = requestCounter (srv w0) ∧
  registered w1 = registered w0 ∧
  released w2 = released w0 ∧
  (∀ c, chans w2 !! c = Some true ↔ chans w0 !! c = Some true) ∧
  t_pc (trig w2) = T112 ∧
  last (stdout w2) = Some (Println "No pending requests") ∧
  (∃ w', run (replicate 6 ATrigger) w0 = Ok w').
Proof.
  intros Hreach Hpc Hempty Hn Hrun Hn' Hrun'.
  pose proof (reachable_inv _ Hreach) as Hw0.
  pose proof (drain_section _ _ _ Hw0 Hpc Hn Hrun)
    as (Hc & Hr & Hl & Hpc1 & Hb & Hcnt & Hp & Hmu).
  pose proof (inv_run _ _ _ Hw0 Hrun) as Hw1.
  assert (idle_stage 0 w1 w1) as H0.
  { split; [done|]. simpl. split; [done|]. by rewrite Hcnt, Hempty. }
  pose proof (stage_run_last is_trigger (λ k, idle_stage k w1) 2
                (idle_stage_exec w1) sch' ATrigger 0 w1 w2 Hw1 H0 eq_refl Hrun')
    as H2.
  unfold tsteps in Hn'. rewrite Hn' in H2.
  destruct (H2 ltac:(lia)) as (Hrel & Hpc2 & Hout).
  pose proof (inv_run _ _ _ Hw1 Hrun') as Hw2.
  split_and!; try done.
  - by rewrite Hp, Hempty.
  - by rewrite Hrel.
  - intros c. rewrite (reg_closed _ (proj2 Hw2)), (reg_closed _ (proj2 Hw0)).
    by rewrite Hrel, Hl.
  - assert (mu (srv w0) = Some OwnTrigger) as Hmu0
      by (apply (mutex_trigger _ (proj1 Hw0)); by rewrite Hpc).
    unfold replicate, run, exec, tstep. rewrite Hpc. simpl.
    unfold Unlock. simpl. rewrite Hmu0, Hempty. simpl. eauto.
Qed.

(** C9.  The drain leaves [requestCounter] as it was: its value just after
    the [Unlock] of line 118 is its value when the mutex was taken, under
    any interleaving and whatever the registry held. *)
Theorem drainAll_keeps_counter (w0 w1 : World) (sch : list action) :
  reachable w0 → t_pc (trig w0) = T115 → tsteps sch = 3 →
  run (sch ++ [ATrigger]) w0 = Ok w1 →
  requestCounter (srv w1) = requestCounter (srv w0).
Proof.
  intros Hreach Hpc Hn Hrun.
  by destruct (drain_section _ _ _ (reachable_inv _ Hreach) Hpc Hn Hrun)
    as (Hc & _).
Qed.

Lemma empty_release_trigger_witness :
  pendingRequests (srv ex_idle_drained) = pendingRequests (srv ex_idle) ∧
  requestCounter (srv ex_idle_drained) = requestCounter (srv ex_idle) ∧
  registered ex_idle_drained = registered ex_idle ∧
  released ex_idle_reported = released ex_idle ∧
  (∀ c, chans ex_idle_reported !! c = Some true ↔ chans ex_idle !! c = Some true) ∧
  t_pc (trig ex_idle_reported) = T112 ∧
  last (stdout ex_idle_reported) = Some (Println "No pending requests") ∧
  (∃ w', run (replicate 6 ATrigger) ex_idle = Ok w').
Proof.
  apply (empty_release_trigger ex_idle ex_idle_drained ex_idle_reported
           ex_sched_idle_drain ex_sched_idle_report).
  - exists ∅, ex_now, ex_sched_idle. vm_compute. reflexivity.
  - vm_compute. reflexivity.
  - vm_compute. reflexivity.
  - vm_compute. reflexivity.
  - vm_compute. reflexivity.
  - vm_compute. reflexivity.
  - vm_compute. reflexivity.
Defined.

Lemma drainAll_keeps_counter_witness :
  requestCounter (srv ex_drained) = requestCounter (srv ex_locked).
Proof.
  apply (drainAll_keeps_counter ex_locked ex_drained ex_sched_drain).
  - exists ∅, ex_now, ex_sched_locked. vm_compute. reflexivity.
  - vm_compute. reflexivity.
  - vm_compute. reflexivity.
  - vm_compute. reflexivity.
Defined.

(** ** The release loop (lines 120-131) *)

Lemma stdout_exec a w w' :
  exec a w = Ok w' → ∃ l, stdout w' = stdout w ++ l.
Proof.
  intros Hex. destruct a as [r|t| |l| |d].
  - injection Hex as <-. exists []. by rewrite app_nil_r.
  - apply exec_handler in Hex as (h & w1 & h1 & Hh & Hs & ->).
    hstep_cases Hs; simpl; first [by eexists | exists []; by rewrite app_nil_r].
  - simpl in Hex.
    tstep_cases Hex; simpl; first [by eexists | exists []; by rewrite app_nil_r].
  - simpl in Hex. destruct (stdinClosed w); [done|]. injection Hex as <-.
    exists []. by rewrite app_nil_r.
  - injection Hex as <-. exists []. by rewrite app_nil_r.
  - injection Hex as <-. exists []. by rewrite app_nil_r.
Qed.

(** The channel of a request the loop has not visited yet is open: it was
    never closed before. *)
Lemma inflight_open w r :
  inv w → r ∈ inflight (trig w) ++ pendingRequests (srv w) →
  chans w !! responseChan r = Some false.
Proof.
  intros [_ IR] Hin.
  pose proof (reg_split _ IR) as Hsplit. pose proof (reg_nodup _ IR) as Hnd.
  assert (r ∈ registered w) as Hreg.
  { rewrite Hsplit. apply elem_of_app. by right. }
  pose proof (reg_alloc _ IR _ Hreg) as Hlt.
  apply lookup_lt_is_Some in Hlt as [b Hb]. destruct b; [|done]. exfalso.
  apply (reg_closed _ IR) in Hb.
  rewrite Hsplit, fmap_app in Hnd. apply NoDup_app in Hnd as (_ & Hdisj & _).
  apply (Hdisj _ Hb). by apply list_elem_of_fmap_2.
Qed.

Lemma release_stage_exec w0 a k w w' :
  t_pendingRequests (trig w0) ≠ [] →
  inv w → k < length (t_pendingRequests (trig w0)) + 3 →
  release_stage k w0 w → exec a w = Ok w' →
  release_stage (if is_trigger a then S k else k) w0 w'.
Proof.
  intros HB _ Hk (Hb & Hc & Hst) Hex. destruct (is_trigger a) eqn:Ha.
  - destruct a; try done. simpl in Hex. unfold tstep in Hex.
    destruct k as [|[|i]].
    + destruct Hst as (Hpc & Hrel & pre & Hout). rewrite Hpc in Hex.
      assert ((t_count (trig w) =? 0)%Z = false) as Hnz.
      { rewrite Hc. apply Z.eqb_neq. unfold len.
        destruct (t_pendingRequests (trig w0)); [done|]. simpl. lia. }
      rewrite Hnz in Hex. injection Hex as <-.
      split_and!; simpl; eauto.
    + destruct Hst as (Hpc & Hrel & pre & Hout). rewrite Hpc in Hex.
      injection Hex as <-. split_and!; simpl; try done.
      * by rewrite take_0, app_nil_r.
      * exists pre, []. by rewrite Hout, Hc, <- (assoc_L (++)).
    + destruct Hst as (Hpc & Hrel & pre & post & Hout).
      rewrite decide_True in Hpc by lia. rewrite Hpc, Hb in Hex.
      destruct (t_pendingRequests (trig w0) !! i) as [r|] eqn:Hr.
      * unfold closeChan in Hex.
        destruct (chans w !! responseChan r) as [[|]|]; simpl in Hex; try done.
        injection Hex as <-. split_and!; simpl; try done.
        -- apply lookup_lt_Some in Hr. rewrite decide_True by lia. done.
        -- by rewrite Hrel, (take_S_r _ _ _ Hr), (assoc_L (++)).
        -- eauto.
      * injection Hex as <-. apply lookup_ge_None in Hr.
        split_and!; simpl; try done.
        -- rewrite decide_False by lia. done.
        -- by rewrite Hrel, !take_ge by lia.
        -- eauto.
  - destruct (frame_not_trigger _ _ _ Ha Hex) as [Et El].
    destruct (stdout_exec _ _ _ Hex) as [l Hl].
    unfold release_stage. rewrite Et, El, Hl.
    split_and!; try done.
    destruct k as [|[|i]].
    + destruct Hst as (Hpc & Hrel & pre & Hout). split_and!; try done.
      exists (pre ++ l). by rewrite Hout, (assoc_L (++)).
    + destruct Hst as (Hpc & Hrel & pre & Hout). split_and!; try done.
      exists (pre ++ l). by rewrite Hout, (assoc_L (++)).
    + destruct Hst as (Hpc & Hrel & pre & post & Hout). split_and!; try done.
      exists pre, (post ++ l). rewrite Hout.
      by rewrite <- !(assoc_L (++)), <- app_comm_cons.
Qed.

(** On its own, [waitForEnter] runs the test, the [Printf] and the whole
    loop without blocking and without a panic. *)
Lemma release_progress w0 m :
  inv w0 → t_pc (trig w0) = T120 → t_pendingRequests (trig w0) ≠ [] →
  m ≤ length (t_pendingRequests (trig w0)) + 3 →
  ∃ w, run (replicate m ATrigger) w0 = Ok w ∧ release_stage m w0 w.
Proof.
  intros Hw0 Hpc HB. induction m as [|m IH]; intros Hm.
  - exists w0. split; [done|]. split_and!; try done.
    + pose proof (reg_count _ (proj2 Hw0)) as Hc. by rewrite Hpc in Hc.
    + exists []. by rewrite app_nil_r.
  - destruct (IH ltac:(lia)) as (w & Hrun & Hst).
    pose proof (inv_run _ _ _ Hw0 Hrun) as Hw.
    assert (∃ w', exec ATrigger w = Ok w') as [w' Hex].
    { destruct Hst as (Hb & Hc & Hst). simpl. unfold tstep.
      destruct m as [|[|i]].
      - destruct Hst as (-> & _). eauto.
      - destruct Hst as (-> & _). eauto.
      - destruct Hst as (Hpc' & Hrel & _).
        rewrite decide_True in Hpc' by lia. rewrite Hpc', Hb.
        destruct (t_pendingRequests (trig w0) !! i) as [r|] eqn:Hr; [|eauto].
        unfold closeChan. rewrite (inflight_open w r Hw); [simpl; eauto|].
        apply elem_of_app. left. unfold inflight. rewrite Hpc', Hb.
        apply list_elem_of_lookup. exists 0. by rewrite lookup_drop, Nat.add_0_r. }
    exists w'. split.
    + replace (S m) with (m + 1) by lia. rewrite replicate_add.
      apply run_app_Ok. exists w. split; [done|].
      apply run_cons_Ok. by exists w'.
    + by apply (release_stage_exec w0 ATrigger m w w' HB Hw ltac:(lia) Hst Hex).
Qed.

Lemma release_stage_init w0 :
  inv w0 → t_pc (trig w0) = T120 → release_stage 0 w0 w0.
Proof.
  intros Hw0 Hpc. split_and!; try done.
  - pose proof (reg_count _ (proj2 Hw0)) as Hc. by rewrite Hpc in Hc.
  - exists []. by rewrite app_nil_r.
Qed.

(** C7.  [waitForEnter] has just unlocked the mutex in [w0] with a
    non-empty drained slice; [w1] is the state just after the loop of lines
    128-130 ends, under any interleaving.  The channels closed in between
    are exactly those of the drained requests, each once and in the order of
    the slice; every one of them was open in [w0] and is closed in [w1]; no
    channel occurs twice in the whole history of closes; the number printed
    by line 125 is the length of the slice.  None of these statements
    blocks or panics. *)
Theorem release_fires_each_once (w0 w1 : World) (sch : list action) :
  reachable w0 → t_pc (trig w0) = T120 →
  t_pendingRequests (trig w0) ≠ [] →
  tsteps sch = length (t_pendingRequests (trig w0)) + 2 →
  run (sch ++ [ATrigger]) w0 = Ok w1 →
  released w1 = released w0 ++ t_pendingRequests (trig w0) ∧
  NoDup (responseChan <$> released w1) ∧
  (∀ r, r ∈ t_pendingRequests (trig w0) →
        chans w0 !! responseChan r = Some false ∧
        chans w1 !! responseChan r = Some true) ∧
  (∃ pre post,
     stdout w1 =
     stdout w0 ++ pre ++
     Printf "\nReleasing %d pending request(s)...\n"
            [AInt (len (t_pendingRequests (trig w0)))] :: post) ∧
  t_pc (trig w1) = T112 ∧
  (∃ w', run (replicate (length (t_pendingRequests (trig w0)) + 3) ATrigger) w0
         = Ok w').
Proof.
  intros Hreach Hpc HB Hn Hrun.
  pose proof (reachable_inv _ Hreach) as Hw0.
  pose proof (inv_run _ _ _ Hw0 Hrun) as Hw1.
  pose proof (stage_run_last is_trigger (λ k, release_stage k w0) _
                (λ a k w w', release_stage_exec w0 a k w w' HB)
                sch ATrigger 0 w0 w1 Hw0 (release_stage_init _ Hw0 Hpc)
                eq_refl Hrun) as H.
  unfold tsteps in Hn. rewrite Hn in H. specialize (H ltac:(lia)).
  replace (S (0 + (length (t_pendingRequests (trig w0)) + 2)))
    with (S (S (length (t_pendingRequests (trig w0)) + 1))) in H by lia.
  destruct H as (Hb & Hc & Hpc1 & Hrel & Hout).
  rewrite decide_False in Hpc1 by lia.
  rewrite take_ge in Hrel by lia.
  assert (NoDup (responseChan <$> released w1)) as Hnd.
  { pose proof (reg_nodup _ (proj2 Hw1)) as H.
    rewrite (reg_split _ (proj2 Hw1)), fmap_app in H.
    by apply NoDup_app in H as (? & _). }
  split_and!; try done.
  - intros r Hr. split.
    + apply inflight_open; [done|]. apply elem_of_app. left.
      unfold inflight. by rewrite Hpc.
    + apply (reg_closed _ (proj2 Hw1)). rewrite Hrel, fmap_app.
      apply elem_of_app. right. by apply list_elem_of_fmap_2.
  - destruct (release_progress w0 (length (t_pendingRequests (trig w0)) + 3)
                Hw0 Hpc HB ltac:(lia)) as (w' & Hrun' & _). eauto.
Qed.

Lemma release_fires_each_once_witness :
  released ex_two_released = released ex_two ++ t_pendingRequests (trig ex_two) ∧
  NoDup (responseChan <$> released ex_two_released) ∧
  (∀ r, r ∈ t_pendingRequests (trig ex_two) →
        chans ex_two !! responseChan r = Some false ∧
        chans ex_two_released !! responseChan r = Some true) ∧
  (∃ pre post,
     stdout ex_two_released =
     stdout ex_two ++ pre ++
     Printf "\nReleasing %d pending request(s)...\n"
            [AInt (len (t_pendingRequests (trig ex_two)))] :: post) ∧
  t_pc (trig ex_two_released) = T112 ∧
  (∃ w', run (replicate (length (t_pendingRequests (trig ex_two)) + 3) ATrigger)
             ex_two = Ok w').
Proof.
  apply (release_fires_each_once ex_two ex_two_released ex_sched_release).
  - exists ∅, ex_now, ex_sched_two. vm_compute. reflexivity.
  - vm_compute. reflexivity.
  - vm_compute. discriminate.
  - vm_compute. reflexivity.
  - vm_compute. reflexivity.
Defined.

(** C10.  In the loop of lines 128-130 the channels are closed one after
    the other in the order of the drained slice, which is the order in which
    the requests were appended: after [i] closes the history of closes has
    grown by the first [i] drained requests, the drained slice is a segment
    of the history of appends, and the closes are at every moment a prefix
    of the appends. *)
Theorem release_in_registration_order (w0 w1 : World) (sch : list action) (i : nat) :
  reachable w0 → t_pc (trig w0) = T120 →
  t_pendingRequests (trig w0) ≠ [] →
  i ≤ length (t_pendingRequests (trig w0)) →
  tsteps sch = i + 1 →
  run (sch ++ [ATrigger]) w0 = Ok w1 →
  released w1 = released w0 ++ take i (t_pendingRequests (trig w0)) ∧
  registered w0 =
    released w0 ++ t_pendingRequests (trig w0) ++ pendingRequests (srv w0) ∧
  released w1 `prefix_of` registered w1.
Proof.
  intros Hreach Hpc HB Hi Hn Hrun.
  pose proof (reachable_inv _ Hreach) as Hw0.
  pose proof (inv_run _ _ _ Hw0 Hrun) as Hw1.
  pose proof (stage_run_last is_trigger (λ k, release_stage k w0) _
                (λ a k w w', release_stage_exec w0 a k w w' HB)
                sch ATrigger 0 w0 w1 Hw0 (release_stage_init _ Hw0 Hpc)
                eq_refl Hrun) as H.
  unfold tsteps in Hn. rewrite Hn in H. specialize (H ltac:(lia)).
  replace (S (0 + (i + 1))) with (S (S i)) in H by lia.
  destruct H as (Hb & Hc & Hpc1 & Hrel & Hout).
  split_and!; [done| |].
  - pose proof (reg_split _ (proj2 Hw0)) as Hs. unfold inflight in Hs.
    by rewrite Hpc in Hs.
  - rewrite (reg_split _ (proj2 Hw1)). by eexists.
Qed.

Lemma release_in_registration_order_witness :
  released ex_two_released1 =
    released ex_two ++ take 1 (t_pendingRequests (trig ex_two)) ∧
  registered ex_two =
    released ex_two ++ t_pendingRequests (trig ex_two) ++
    pendingRequests (srv ex_two) ∧
  released ex_two_released1 `prefix_of` registered ex_two_released1.
Proof.
  apply (release_in_registration_order ex_two ex_two_released1 ex_sched_release1 1).
  - exists ∅, ex_now, ex_sched_two. vm_compute. reflexivity.
  - vm_compute. reflexivity.
  - vm_compute. discriminate.
  - vm_compute. lia.
  - vm_compute. reflexivity.
  - vm_compute. reflexivity.
Defined.

(** ** What a handler has done, by program counter *)

(** A closed channel stays closed, and the clock never goes back. *)
Lemma world_grows a w w' :
  exec a w = Ok w' →
  (clock w ≤ clock w')%Z ∧
  ∀ c, chans w !! c = Some true → chans w' !! c = Some true.
Proof.
  intros Hex. destruct a as [r|t| |l| |d].
  - injection Hex as <-. simpl. split; [lia|done].
  - apply exec_handler in Hex as (h & w1 & h1 & Hh & Hs & ->).
    hstep_cases Hs; simpl; (split; [lia|]); try done.
    intros c Hc. by apply lookup_app_l_Some.
  - simpl in Hex. tstep_cases Hex; simpl; (split; [lia|]); try done.
    intros c Hc. destruct (decide (c = responseChan p)) as [->|Hne].
    + congruence.
    + by rewrite list_lookup_insert_ne.
  - simpl in Hex. destruct (stdinClosed w); [done|]. injection Hex as <-.
    simpl. split; [lia|done].
  - injection Hex as <-. simpl. split; [lia|done].
  - injection Hex as <-. simpl. split; [lia|done].
Qed.

Lemma handler_ok_grows w w' h :
  (clock w ≤ clock w')%Z →
  (∀ c, chans w !! c = Some true → chans w' !! c = Some true) →
  handler_ok w h → handler_ok w' h.
Proof.
  intros Hcl Hch [H1 H2 H3 H4 H5 H6]. split; try done.
  - intros Ha. specialize (H3 Ha). lia.
  - auto.
  - intros Ha. specialize (H5 Ha). lia.
  - intros Ha. destruct (H6 Ha) as (tm & ? & ?). exists tm. split; [done|lia].
Qed.

Lemma inv_handler_init env now : inv_handler (init env now).
Proof. intros t h H. simpl in H. by rewrite lookup_nil in H. Qed.

Lemma hstep_ok t w h w1 h1 :
  hstep t w h = Ok (w1, h1) → handler_ok w h → handler_ok w1 h1.
Proof.
  intros Hs [H1 H2 H3 H4 H5 H6].
  hstep_cases Hs; split; simpl in *; try done;
    rewrite ?H1; try done; try lia; auto.
  - match goal with H : Http.isFlusher _ = false |- _ => by rewrite H1 in H end.
  - intros _. exists (clock w). split; [done|]. specialize (H5 eq_refl). lia.
Qed.

Lemma inv_handler_exec a w w' :
  inv_handler w → exec a w = Ok w' → inv_handler w'.
Proof.
  intros IH Hex. pose proof (world_grows _ _ _ Hex) as [Hcl Hch].
  destruct a as [r|t| |l| |d].
  - injection Hex as <-. intros t h [H|[_ H]]%lookup_app_Some.
    + eapply handler_ok_grows; [..|by eapply IH]; done.
    + apply list_lookup_singleton_Some in H as [_ <-]. by split.
  - apply exec_handler in Hex as (h & w1 & h1 & Hh & Hs & ->).
    destruct (hstep_handlers _ _ _ _ _ Hs) as [Ehs _].
    simpl. rewrite Ehs.
    intros t' h' [[-> ->]|[Hne Hh']]%lookup_handlers_insert.
    + eapply handler_ok_grows; [| |eapply hstep_ok; [done|by eapply IH]]; done.
    + eapply handler_ok_grows; [..|by eapply IH]; done.
  - simpl in Hex. assert (handlers w' = handlers w) as E
      by (by apply tstep_mutex in Hex as [? _]).
    intros t h Hh. rewrite E in Hh.
    eapply handler_ok_grows; [..|by eapply IH]; done.
  - simpl in Hex. destruct (stdinClosed w); [done|]. injection Hex as <-.
    intros t h Hh. eapply handler_ok_grows; [..|by eapply (IH t)]; done.
  - injection Hex as <-. intros t h Hh.
    eapply handler_ok_grows; [..|by eapply (IH t)]; done.
  - injection Hex as <-. intros t h Hh.
    eapply handler_ok_grows; [..|by eapply (IH t)]; done.
Qed.

Lemma inv_handler_run sch w w' :
  inv_handler w → run sch w = Ok w' → inv_handler w'.
Proof.
  revert w. induction sch as [|a sch IH]; intros w Hw Hrun.
  - by injection Hrun as <-.
  - apply run_cons_Ok in Hrun as (w1 & Hex & Hrun).
    eapply IH; [|done]. by eapply inv_handler_exec.
Qed.

Lemma reachable_inv_handler w : reachable w → inv_handler w.
Proof.
  intros (env & now & sch & Hrun).
  eapply inv_handler_run; [apply inv_handler_init|done].
Qed.

(** The handler reads and writes its own entry of [handlers] only through
    [exec]: [hstep] neither reads nor changes the list. *)
Lemma hstep_set_handlers t x w h :
  hstep t (set_handlers x w) h =
  bind (hstep t w h) (λ '(w1, h1), Ok (set_handlers x w1, h1)).
Proof.
  unfold hstep, Lock, Unlock, recvChan, makeChan. simpl.
  destruct (h_pc h); simpl; try done.
  - by destruct (mu (srv w)).
  - by destruct (mu (srv w)).
  - by destruct (chans w !! responseChan (h_req h)) as [[]|].
Qed.

Lemma set_handlers_twice x y w :
  set_handlers x (set_handlers y w) = set_handlers x w.
Proof. done. Qed.

Lemma run_handler_alone_gen n t w h :
  t < length (handlers w) →
  run (replicate n (AHandler t)) (set_handlers (<[t := h]> (handlers w)) w) =
  bind (hrun n t w h)
       (λ '(w1, h1), Ok (set_handlers (<[t := h1]> (handlers w)) w1)).
Proof.
  revert w h. induction n as [|n IH]; intros w h Hlt; [done|].
  cbn [replicate run exec hrun]. cbn [handlers set_handlers].
  rewrite list_lookup_insert_eq by done. rewrite hstep_set_handlers.
  destruct (hstep t w h) as [[w1 h1]| |] eqn:Hs; simpl; [|done..].
  destruct (hstep_handlers _ _ _ _ _ Hs) as [Ehs _].
  rewrite list_insert_insert_eq, set_handlers_twice, <- Ehs.
  by rewrite IH by (by rewrite Ehs).
Qed.

Lemma run_handler_alone n t w h :
  handlers w !! t = Some h →
  run (replicate n (AHandler t)) w =
  bind (hrun n t w h)
       (λ '(w1, h1), Ok (set_handlers (<[t := h1]> (handlers w)) w1)).
Proof.
  intros Hh. rewrite <- run_handler_alone_gen by by eapply lookup_lt_Some.
  f_equal. destruct w; simpl in *. unfold set_handlers; simpl.
  by rewrite list_insert_id.
Qed.

(** ** The response body *)

Lemma escape_safe s : safeString s = true → GoStd.escape s = s.
Proof.
  induction s as [|c s IH]; simpl; [done|].
  intros [Hc Hs]%andb_true_iff. unfold GoStd.escapeByte.
  rewrite Hc. simpl. by rewrite IH.
Qed.

Lemma append_assoc (s1 s2 s3 : string) :
  (s1 +:+ s2) +:+ s3 = s1 +:+ (s2 +:+ s3).
Proof.
  induction s1 as [|c s1 IH]; [done|].
  change (String c ((s1 +:+ s2) +:+ s3) = String c (s1 +:+ s2 +:+ s3)).
  by f_equal.
Qed.

Lemma safeString_app s1 s2 :
  safeString (s1 +:+ s2) = safeString s1 && safeString s2.
Proof.
  induction s1 as [|c s1 IH]; simpl; [done|]. by rewrite IH, andb_assoc.
Qed.

Lemma digit_safe n : GoStd.htmlSafe (GoStd.digit n) = true.
Proof.
  unfold GoStd.digit.
  assert (Z.to_nat (n mod 10) < 10) as Hlt
    by (pose proof (Z.mod_pos_bound n 10); lia).
  generalize dependent (Z.to_nat (n mod 10)). intros k Hk.
  do 10 (destruct k as [|k]; [reflexivity|]). lia.
Qed.

Lemma pad2_safe n : safeString (GoStd.pad2 n) = true.
Proof. unfold GoStd.pad2. cbn [safeString]. by rewrite !digit_safe. Qed.

Lemma decimal_safe n : safeString (GoStd.decimal n) = true.
Proof.
  unfold GoStd.decimal. generalize (N.to_uint n). intros d.
  assert (safeString (NilEmpty.string_of_uint d) = true) as H
    by (induction d; simpl; done).
  destruct d; done.
Qed.

Lemma pad4_safe y : safeString (GoStd.pad4 y) = true.
Proof.
  unfold GoStd.pad4.
  assert (safeString
            (if (Z.abs y <? 10000)%Z
             then String (GoStd.digit (Z.abs y / 1000))
                    (String (GoStd.digit (Z.abs y / 100))
                       (String (GoStd.digit (Z.abs y / 10))
                          (String (GoStd.digit (Z.abs y)) EmptyString)))
             else GoStd.decimal (Z.to_N (Z.abs y))) = true) as H.
  { destruct (Z.abs y <? 10000)%Z; [|apply decimal_safe].
    cbn [safeString]. by rewrite !digit_safe. }
  destruct (y <? 0)%Z; [|done]. cbn [safeString]. by rewrite H.
Qed.

Lemma formatRFC3339UTC_safe tm : safeString (GoStd.formatRFC3339UTC tm) = true.
Proof.
  unfold GoStd.formatRFC3339UTC. destruct (GoStd.civil _) as [[y m] d].
  rewrite !safeString_app, pad4_safe, !pad2_safe. done.
Qed.

(** What line 107 writes is the object with the single member
    [timestamp], followed by a newline. *)
Lemma Encode_timestamp tm :
  GoStd.Encode [("timestamp", GoStd.formatRFC3339UTC tm)] = timestampJSON tm.
Proof.
  unfold GoStd.Encode, GoStd.members, GoStd.quote, timestampJSON.
  rewrite (escape_safe (GoStd.formatRFC3339UTC tm))
    by apply formatRFC3339UTC_safe.
  rewrite (escape_safe "timestamp") by done.
  generalize (GoStd.formatRFC3339UTC tm). intros s.
  by rewrite !append_assoc.
Qed.

(** C6.  In every reachable state and for every handler: when it is about
    to wait on line 94, the status line 200 with the header
    [Content-Type: text/plain] is on the wire and nothing is left in the
    buffer; it cannot pass line 94 while its channel is open; and a piece of
    body is buffered or on the wire only if the handler has passed line 94
    and its channel is closed, in which case the header block went out
    first. *)
Theorem headers_before_wait_body_after (w : World) (t : nat) (h : Handler) :
  reachable w → handlers w !! t = Some h →
  (h_pc h = H94 →
     Http.wire (h_w h) = [Http.WHead 200 [("Content-Type", "text/plain")]] ∧
     Http.buffered (h_w h) = [] ∧
     (chans w !! responseChan (h_req h) = Some false →
      exec (AHandler t) w = Blocked)) ∧
  (∀ s, Http.WBody s ∈ Http.buffered (h_w h) ++ Http.wire (h_w h) →
        resumed (h_pc h) = true ∧
        chans w !! responseChan (h_req h) = Some true) ∧
  (resumed (h_pc h) = true →
     ∃ rest, Http.wire (h_w h) =
             Http.WHead 200 [("Content-Type", "text/plain")] :: rest ∧
             ∀ hd hdr, Http.WHead hd hdr ∉ rest).
Proof.
  intros Hreach Hh.
  pose proof (reachable_inv_handler _ Hreach _ _ Hh) as [H1 _ _ H4 _ _].
  split_and!.
  - intros Hpc. rewrite H1, Hpc. split_and!; [done..|].
    intros Hopen. simpl. rewrite Hh. unfold hstep, recvChan.
    by rewrite Hpc, Hopen.
  - intros s Hin. assert (resumed (h_pc h) = true) as Hres.
    { rewrite H1 in Hin. destruct (h_pc h); try done; simpl in Hin;
        repeat match goal with
        | H : _ ∈ [] |- _ => by apply elem_of_nil in H
        | H : _ ∈ _ :: _ |- _ => apply elem_of_cons in H as [?|?]; [done|]
        end. }
    split; [done|]. by apply H4.
  - intros Hres. rewrite H1. destruct (h_pc h); try done.
    all: eexists; (split; [reflexivity|]).
    all: intros hd hdr Hin; simpl in Hin;
      repeat match goal with
      | H : _ ∈ [] |- _ => by apply elem_of_nil in H
      | H : _ ∈ _ :: _ |- _ => apply elem_of_cons in H as [?|?]; [done|]
      end.
Qed.

Lemma headers_before_wait_body_after_witness :
  let h := ex_handler ex_two 1 in
  (h_pc h = H94 →
     Http.wire (h_w h) = [Http.WHead 200 [("Content-Type", "text/plain")]] ∧
     Http.buffered (h_w h) = [] ∧
     (chans ex_two !! responseChan (h_req h) = Some false →
      exec (AHandler 1) ex_two = Blocked)) ∧
  (∀ s, Http.WBody s ∈ Http.buffered (h_w h) ++ Http.wire (h_w h) →
        resumed (h_pc h) = true ∧
        chans ex_two !! responseChan (h_req h) = Some true) ∧
  (resumed (h_pc h) = true →
     ∃ rest, Http.wire (h_w h) =
             Http.WHead 200 [("Content-Type", "text/plain")] :: rest ∧
             ∀ hd hdr, Http.WHead hd hdr ∉ rest).
Proof.
  apply (headers_before_wait_body_after ex_two 1 (ex_handler ex_two 1)).
  - exists ∅, ex_now, ex_sched_two. vm_compute. reflexivity.
  - vm_compute. reflexivity.
Defined.

Lemma writer_at_H94 ts :
  writer_at H94 ts =
  Http.mkWriter [("Content-Type", "text/plain")] true []
                [Http.WHead 200 [("Content-Type", "text/plain")]] true.
Proof. reflexivity. Qed.

Lemma writer_at_HDone ts :
  writer_at HDone ts =
  Http.mkWriter [("Content-Type", "text/plain")] true []
                [Http.WHead 200 [("Content-Type", "text/plain")];
                 Http.WBody (GoStd.Encode [("timestamp", ts)])] true.
Proof. reflexivity. Qed.

Lemma writer_at_finish b :
  Http.Flush (Http.Write_ b (writer_at H94 EmptyString)) =
  Http.mkWriter [("Content-Type", "text/plain")] true []
                [Http.WHead 200 [("Content-Type", "text/plain")];
                 Http.WBody b] true.
Proof. reflexivity. Qed.

Lemma hrun_S n t w h :
  hrun (S n) t w h = bind (hstep t w h) (λ '(w1, h1), hrun n t w1 h1).
Proof. reflexivity. Qed.

(** One statement of lines 94-108: where it leads and what it changes of
    the writer and of [timestamp]. *)
Lemma hstep_tail t w h :
  match h_pc h with
  | H94 => chans w !! responseChan (h_req h) = Some true
  | H96 | H97 | H99 | H103 | H104 | H108 => True
  | _ => False
  end →
  ∃ w' h', hstep t w h = Ok (w', h') ∧
    clock w' = clock w ∧ handlers w' = handlers w ∧
    h_pc h' = match h_pc h with
              | H94 => H96 | H96 => H97 | H97 => H99 | H99 => H103
              | H103 => H104 | H104 => H108 | _ => HDone
              end ∧
    h_timestamp h' = match h_pc h with
                     | H103 => GoStd.formatRFC3339UTC (clock w)
                     | _ => h_timestamp h
                     end ∧
    h_w h' = match h_pc h with
             | H104 => Http.Write_
                         (GoStd.Encode [("timestamp", h_timestamp h)]) (h_w h)
             | H108 => Http.Flush (h_w h)
             | _ => h_w h
             end.
Proof.
  intros Hpre. unfold hstep, recvChan.
  destruct (h_pc h); try done; try (by eexists _, _).
  rewrite Hpre. by eexists _, _.
Qed.

(** Lines 94-108 run without interruption once the channel is closed. *)
Lemma hrun_release t w h :
  h_pc h = H94 → chans w !! responseChan (h_req h) = Some true →
  ∃ w' h', hrun 7 t w h = Ok (w', h') ∧ h_pc h' = HDone ∧
        handlers w' = handlers w ∧
        h_w h' = Http.Flush
                   (Http.Write_
                      (GoStd.Encode
                         [("timestamp", GoStd.formatRFC3339UTC (clock w))])
                      (h_w h)).
Proof.
  intros Hpc Hclosed.
  destruct (hstep_tail t w h) as (w1 & h1 & E1 & C1 & L1 & P1 & T1 & W1);
    [by rewrite Hpc|]. rewrite Hpc in P1, T1, W1.
  destruct (hstep_tail t w1 h1) as (w2 & h2 & E2 & C2 & L2 & P2 & T2 & W2);
    [by rewrite P1|]. rewrite P1 in P2, T2, W2.
  destruct (hstep_tail t w2 h2) as (w3 & h3 & E3 & C3 & L3 & P3 & T3 & W3);
    [by rewrite P2|]. rewrite P2 in P3, T3, W3.
  destruct (hstep_tail t w3 h3) as (w4 & h4 & E4 & C4 & L4 & P4 & T4 & W4);
    [by rewrite P3|]. rewrite P3 in P4, T4, W4.
  destruct (hstep_tail t w4 h4) as (w5 & h5 & E5 & C5 & L5 & P5 & T5 & W5);
    [by rewrite P4|]. rewrite P4 in P5, T5, W5.
  destruct (hstep_tail t w5 h5) as (w6 & h6 & E6 & C6 & L6 & P6 & T6 & W6);
    [by rewrite P5|]. rewrite P5 in P6, T6, W6.
  destruct (hstep_tail t w6 h6) as (w7 & h7 & E7 & C7 & L7 & P7 & T7 & W7);
    [by rewrite P6|]. rewrite P6 in P7, T7, W7.
  exists w7, h7. split_and!.
  - rewrite hrun_S, E1. cbn [bind]. rewrite hrun_S, E2. cbn [bind].
    rewrite hrun_S, E3. cbn [bind]. rewrite hrun_S, E4. cbn [bind].
    rewrite hrun_S, E5. cbn [bind]. rewrite hrun_S, E6. cbn [bind].
    rewrite hrun_S, E7. done.
  - done.
  - congruence.
  - rewrite W7, W6, T5, W5, W4, W3, W2, W1. congruence.
Qed.

(** C5.  A handler that has returned has sent, after the header block,
    exactly one piece of body: the JSON object whose single member
    [timestamp] is the RFC 3339 UTC rendering of a clock reading [tm] taken
    after the handler received its release signal (after the reading of
    line 96, itself after the arrival time), followed by a newline.  And a
    handler whose channel is closed while it waits on line 94 does return:
    run on its own it sends that body for the clock of that moment. *)
Theorem released_response_body (w : World) (t : nat) (h : Handler) :
  reachable w → handlers w !! t = Some h →
  (h_pc h = HDone →
     ∃ tm, Http.wire (h_w h) =
             [Http.WHead 200 [("Content-Type", "text/plain")];
              Http.WBody (timestampJSON tm)] ∧
           Http.buffered (h_w h) = [] ∧
           (h_requestTime h ≤ h_responseTime h ≤ tm)%Z ∧ (tm ≤ clock w)%Z ∧
           chans w !! responseChan (h_req h) = Some true) ∧
  (h_pc h = H94 → chans w !! responseChan (h_req h) = Some true →
     ∃ w' h', run (replicate 7 (AHandler t)) w = Ok w' ∧
              handlers w' !! t = Some h' ∧ h_pc h' = HDone ∧
              Http.wire (h_w h') =
                [Http.WHead 200 [("Content-Type", "text/plain")];
                 Http.WBody (timestampJSON (clock w))]).
Proof.
  intros Hreach Hh.
  pose proof (reachable_inv_handler _ Hreach _ _ Hh) as [H1 _ _ H4 H5 H6].
  split.
  - intros Hpc. rewrite Hpc in *.
    destruct (H6 eq_refl) as (tm & Hts & Htm). specialize (H5 eq_refl).
    exists tm. rewrite H1, Hts, writer_at_HDone, Encode_timestamp.
    split_and!; [done|done|lia|lia|lia|by apply H4].
  - intros Hpc Hclosed. rewrite (run_handler_alone _ _ _ _ Hh).
    destruct (hrun_release t w h Hpc Hclosed) as (w' & h' & E & P & L & W).
    rewrite E. cbn [bind]. eexists _, h'. split; [reflexivity|].
    split_and!.
    + cbn [handlers set_handlers].
      apply list_lookup_insert_eq. by eapply lookup_lt_Some.
    + done.
    + rewrite W, H1, Hpc, (writer_at_H94 (h_timestamp h)),
        <- (writer_at_H94 EmptyString), writer_at_finish, Encode_timestamp.
      done.
Qed.

Lemma released_response_body_witness :
  let h := ex_handler ex_done 0 in
  (h_pc h = HDone →
     ∃ tm, Http.wire (h_w h) =
             [Http.WHead 200 [("Content-Type", "text/plain")];
              Http.WBody (timestampJSON tm)] ∧
           Http.buffered (h_w h) = [] ∧
           (h_requestTime h ≤ h_responseTime h ≤ tm)%Z ∧ (tm ≤ clock ex_done)%Z ∧
           chans ex_done !! responseChan (h_req h) = Some true) ∧
  (h_pc h = H94 → chans ex_done !! responseChan (h_req h) = Some true →
     ∃ w' h', run (replicate 7 (AHandler 0)) ex_done = Ok w' ∧
              handlers w' !! 0 = Some h' ∧ h_pc h' = HDone ∧
              Http.wire (h_w h') =
                [Http.WHead 200 [("Content-Type", "text/plain")];
                 Http.WBody (timestampJSON (clock ex_done))]).
Proof.
  apply (released_response_body ex_done 0 (ex_handler ex_done 0)).
  - exists ∅, ex_now,
      (ex_sched_two ++ (ex_sched_release ++ [ATrigger]) ++ ex_sched_finish).
    vm_compute. reflexivity.
  - vm_compute. reflexivity.
Defined.

Example released_response_body_sample :
  h_pc (ex_handler ex_done 0) = HDone ∧
  Http.wire (h_w (ex_handler ex_done 0)) =
    [Http.WHead 200 [("Content-Type", "text/plain")];
     Http.WBody (timestampJSON 1765802101123456789%Z)] ∧
  GoStd.formatRFC3339UTC 1765802101123456789%Z = "2025-12-15T12:35:01Z".
Proof. vm_compute. done. Qed.

(** ** The listen address (lines 135-147) *)

(** C8.  The address handed to [http.ListenAndServe] is a colon followed by
    the value of [PORT] when the variable is set to a non-empty string, and
    [:8080] when it is unset or empty. *)
Theorem listen_port (env : gmap string string) (v : string) :
  (env !! "PORT" = Some v → v ≠ EmptyString →
   port env = v ∧ addr env = ":" +:+ v) ∧
  (env !! "PORT" = None ∨ env !! "PORT" = Some EmptyString →
   port env = "8080" ∧ addr env = ":8080").
Proof.
  unfold addr, port, Getenv. split.
  - intros -> Hne. simpl. by destruct (decide (v = EmptyString)).
  - intros [-> | ->]; done.
Qed.

Lemma listen_port_witness :
  (port {["PORT" := "3000"]} = "3000" ∧ addr {["PORT" := "3000"]} = ":3000") ∧
  (port ∅ = "8080" ∧ addr ∅ = ":8080").
Proof.
  split.
  - apply (proj1 (listen_port {["PORT" := "3000"]} "3000")).
    + vm_compute. reflexivity.
    + discriminate.
  - apply (proj2 (listen_port ∅ EmptyString)). left. vm_compute. reflexivity.
Defined.

(** ** The critical section of [handleRequest] (lines 73-78) *)

Lemma register_stage_exec t w0 a k w w' :
  inv w → k < 5 → register_stage t k w0 w → exec a w = Ok w' →
  register_stage t (if is_handler t a then S k else k) w0 w'.
Proof.
  intros [IM _] Hk (h0 & h & Hh0 & Hh & Hreq & Hpc & Hp & Hr & Hc & Hn & Hcnt & Hmu) Hex.
  assert (mu (srv w) = Some (OwnHandler t)) as Hown.
  { apply (mutex_handler _ IM _ _ Hh). rewrite Hpc.
    by destruct k as [|[|[|[|[|k]]]]]; [..|lia]. }
  destruct (is_handler t a) eqn:Ha.
  - destruct a as [r|t'| |l| |d]; try done. simpl in Ha.
    apply bool_decide_eq_true in Ha as ->.
    apply exec_handler in Hex as (h_ & w1 & h1 & Hh_ & Hs & ->).
    rewrite Hh in Hh_. injection Hh_ as <-.
    exists h0, h1. split; [done|]. split.
    { destruct (hstep_handlers _ _ _ _ _ Hs) as [Ehs _]. simpl. rewrite Ehs.
      apply list_lookup_insert_eq. by eapply lookup_lt_Some. }
    unfold hstep, Unlock in Hs. rewrite Hpc in Hs.
    destruct k as [|[|[|[|[|k]]]]]; [..|lia]; simpl in Hs;
      rewrite ?Hown in Hs; simpl in Hs; injection Hs as <- <-; simpl;
      rewrite ?Hreq, ?Hp, ?Hr, ?Hc; simpl;
      split_and!; try done; try lia; auto with lia.
  - destruct (frame_handler_locked _ _ _ _ IM Hown Ha Hex) as (Es & Er & Eh).
    exists h0, h. rewrite Es, Er, Eh. split_and!; done.
Qed.

(** Lines 74-78 run without interruption: the holder of the mutex reaches
    its [Unlock] on its own. *)
Lemma register_progress t w h :
  inv w → handlers w !! t = Some h → h_pc h = H74 →
  ∃ w', run (replicate 5 (AHandler t)) w = Ok w'.
Proof.
  intros [IM _] Hh Hpc.
  assert (mu (srv w) = Some (OwnHandler t)) as Hown
    by (apply (mutex_handler _ IM _ _ Hh); by rewrite Hpc).
  rewrite (run_handler_alone _ _ _ _ Hh).
  unfold hrun, hstep. rewrite Hpc. cbn [bind h_goto h_pc].
  unfold Unlock. cbn [srv set_srv set_registered mu]. rewrite Hown.
  cbn [bind]. eauto.
Qed.

(** C4.  Goroutine [t] holds the mutex in [w0] (it has just run line 73)
    and [w1] is the state just after its [Unlock] of line 78, under any
    interleaving.  Its request object carries the arrival time and the
    fields of the HTTP request; its channel is open, belongs to no other
    handler and was never registered; in [w1] the object is the last element
    of the registry, the counter is one more (as an [int]) than in [w0],
    [requestNum] is the new counter and [pendingCount] the new length: the
    section computes [register].  Lines 74-78 never block or panic. *)
Theorem register_appends_and_numbers
    (t : nat) (w0 w1 : World) (h0 : Handler) (sch : list action) :
  reachable w0 → handlers w0 !! t = Some h0 → h_pc h0 = H74 →
  hsteps t sch = 4 → run (sch ++ [AHandler t]) w0 = Ok w1 →
  h_req h0 = mkPending (h_requestTime h0) (responseChan (h_req h0))
               (Http.RemoteAddr (h_r h0)) (Http.URLPath (h_r h0))
               (Http.Method (h_r h0)) ∧
  chans w0 !! responseChan (h_req h0) = Some false ∧
  (responseChan (h_req h0) ∉ responseChan <$> registered w0) ∧
  (∀ t' h', handlers w0 !! t' = Some h' → allocated (h_pc h') = true →
            responseChan (h_req h') = responseChan (h_req h0) → t' = t) ∧
  (∃ h1, handlers w1 !! t = Some h1 ∧ h_pc h1 = H80 ∧ h_req h1 = h_req h0 ∧
     pendingRequests (srv w1) = pendingRequests (srv w0) ++ [h_req h0] ∧
     requestCounter (srv w1) = GoInt.incr (requestCounter (srv w0)) ∧
     h_requestNum h1 = requestCounter (srv w1) ∧
     h_pendingCount h1 = len (pendingRequests (srv w1)) ∧
     register (h_req h0) (srv w0) =
       (mkServer (mu (srv w0)) (pendingRequests (srv w1))
                 (requestCounter (srv w1)),
        h_requestNum h1, h_pendingCount h1)) ∧
  (∃ w', run (replicate 5 (AHandler t)) w0 = Ok w').
Proof.
  intros Hreach Hh0 Hpc Hn Hrun.
  pose proof (reachable_inv _ Hreach) as Hw0.
  pose proof (reachable_inv_handler _ Hreach _ _ Hh0) as [_ Hreq _ _ _ _].
  assert (allocated (h_pc h0) = true) as Hal by by rewrite Hpc.
  pose proof (han_appended _ (proj2 Hw0) _ _ Hh0 Hal) as Hfresh.
  rewrite Hpc in Hfresh. simpl in Hfresh.
  assert (register_stage t 0 w0 w0) as H0.
  { exists h0, h0. split_and!; try done; lia. }
  pose proof (stage_run_last (is_handler t) (λ k, register_stage t k w0) 5
                (register_stage_exec t w0) sch (AHandler t) 0 w0 w1 Hw0 H0) as H.
  simpl in H. rewrite bool_decide_eq_true_2 in H by done.
  specialize (H eq_refl Hrun). unfold hsteps in Hn. rewrite Hn in H.
  destruct (H ltac:(lia))
    as (h0' & h1 & Hh0' & Hh1 & Er & Ep & Epen & Ereg & Ec & En & Ecnt & Emu).
  rewrite Hh0 in Hh0'. injection Hh0' as <-. simpl in *.
  split_and!.
  - by apply Hreq.
  - pose proof (han_alloc _ (proj2 Hw0) _ _ Hh0 Hal) as Hlt.
    apply lookup_lt_is_Some in Hlt as [b Hb]. destruct b; [|done]. exfalso.
    apply (reg_closed _ (proj2 Hw0)) in Hb. apply Hfresh.
    rewrite (reg_split _ (proj2 Hw0)), fmap_app. apply elem_of_app. by left.
  - done.
  - intros t' h' Hh' Hal' Heq.
    by apply (han_distinct _ (proj2 Hw0) t' t h' h0).
  - exists h1. rewrite Epen, Ec, En by lia. rewrite Ecnt by lia.
    split_and!; done.
  - by eapply register_progress.
Qed.

Lemma register_appends_and_numbers_witness :
  let h0 := ex_handler ex_reg_locked 1 in
  h_req h0 = mkPending (h_requestTime h0) (responseChan (h_req h0))
               (Http.RemoteAddr (h_r h0)) (Http.URLPath (h_r h0))
               (Http.Method (h_r h0)) ∧
  chans ex_reg_locked !! responseChan (h_req h0) = Some false ∧
  (responseChan (h_req h0) ∉ responseChan <$> registered ex_reg_locked) ∧
  (∀ t' h', handlers ex_reg_locked !! t' = Some h' →
            allocated (h_pc h') = true →
            responseChan (h_req h') = responseChan (h_req h0) → t' = 1) ∧
  (∃ h1, handlers ex_registered !! 1 = Some h1 ∧ h_pc h1 = H80 ∧
     h_req h1 = h_req h0 ∧
     pendingRequests (srv ex_registered) =
       pendingRequests (srv ex_reg_locked) ++ [h_req h0] ∧
     requestCounter (srv ex_registered) =
       GoInt.incr (requestCounter (srv ex_reg_locked)) ∧
     h_requestNum h1 = requestCounter (srv ex_registered) ∧
     h_pendingCount h1 = len (pendingRequests (srv ex_registered)) ∧
     register (h_req h0) (srv ex_reg_locked) =
       (mkServer (mu (srv ex_reg_locked)) (pendingRequests (srv ex_registered))
                 (requestCounter (srv ex_registered)),
        h_requestNum h1, h_pendingCount h1)) ∧
  (∃ w', run (replicate 5 (AHandler 1)) ex_reg_locked = Ok w').
Proof.
  apply (register_appends_and_numbers 1 ex_reg_locked ex_registered
           (ex_handler ex_reg_locked 1) ex_sched_reg).
  - exists ∅, ex_now,
      (ex_sched_locked ++ (ex_sched_drain ++ [ATrigger]) ++ ex_sched_reg_locked).
    vm_compute. reflexivity.
  - vm_compute. reflexivity.
  - vm_compute. reflexivity.
  - vm_compute. reflexivity.
  - vm_compute. reflexivity.
Defined.

(** ** The request numbers *)

Lemma wrap_wrap_succ x : GoInt.incr (GoInt.wrap x) = GoInt.wrap (x + 1).
Proof.
  unfold GoInt.incr, GoInt.wrap.
  replace ((x + 2 ^ 63) mod 2 ^ 64 - 2 ^ 63 + 1 + 2 ^ 63)%Z
    with ((x + 2 ^ 63) mod 2 ^ 64 + 1)%Z by lia.
  replace (x + 1 + 2 ^ 63)%Z with ((x + 2 ^ 63) + 1)%Z by lia.
  by rewrite Zplus_mod_idemp_l.
Qed.

Lemma wrap_small x : (GoInt.int_min ≤ x ≤ GoInt.int_max)%Z → GoInt.wrap x = x.
Proof.
  unfold GoInt.wrap, GoInt.int_min, GoInt.int_max. intros Hx.
  rewrite Z.mod_small; lia.
Qed.

Lemma issued_numf hs : issued hs = omap numf hs.
Proof. done. Qed.

Lemma issued_insert_same hs t h h1 :
  hs !! t = Some h → numf h1 = numf h → issued (<[t := h1]> hs) = issued hs.
Proof.
  intros Hh Hf. unfold issued. fold numf.
  rewrite insert_take_drop by by eapply lookup_lt_Some.
  transitivity (omap numf (take t hs ++ h :: drop (S t) hs));
    [|by rewrite take_drop_middle].
  rewrite !omap_app. simpl. by rewrite Hf.
Qed.

Lemma issued_insert_new hs t h h1 x :
  hs !! t = Some h → numf h = None → numf h1 = Some x →
  issued (<[t := h1]> hs) ≡ₚ issued hs ++ [x].
Proof.
  intros Hh Hf Hf1. unfold issued. fold numf.
  rewrite insert_take_drop by by eapply lookup_lt_Some.
  transitivity (omap numf (take t hs ++ h :: drop (S t) hs) ++ [x]);
    [|by rewrite take_drop_middle].
  rewrite !omap_app. simpl. rewrite Hf, Hf1.
  rewrite <- (assoc_L (++)). apply Permutation_app_head.
  by rewrite <- Permutation_cons_append.
Qed.

(** What a statement of the handler does to the counter and to its own
    request number. *)
Lemma hstep_count t w h w1 h1 :
  hstep t w h = Ok (w1, h1) →
  (h_pc h = H74 ∧ h_pc h1 = H75 ∧ registered w1 = registered w ++ [h_req h] ∧
   requestCounter (srv w1) = requestCounter (srv w) ∧ numf h1 = numf h) ∨
  (h_pc h = H75 ∧ h_pc h1 = H76 ∧ registered w1 = registered w ∧
   requestCounter (srv w1) = GoInt.incr (requestCounter (srv w)) ∧
   numf h1 = numf h) ∨
  (h_pc h = H76 ∧ h_pc h1 = H77 ∧ registered w1 = registered w ∧
   requestCounter (srv w1) = requestCounter (srv w) ∧
   numf h = None ∧ numf h1 = Some (requestCounter (srv w))) ∨
  (registered w1 = registered w ∧
   requestCounter (srv w1) = requestCounter (srv w) ∧ numf h1 = numf h ∧
   ((h_pc h = H73 ∧ h_pc h1 = H74) ∨ (h_pc h = H77 ∧ h_pc h1 = H78) ∨
    (h_pc h = H78 ∧ h_pc h1 = H80) ∨
    (hcrit (h_pc h) = false ∧ hcrit (h_pc h1) = false))).
Proof.
  intros H. unfold numf.
  hstep_cases H; simpl;
    first [ left; by repeat split
          | right; left; by repeat split
          | right; right; left; by repeat split
          | right; right; right; split_and!; [done..|]; auto 6 ].
Qed.

Lemma holder_pc_self w t h :
  inv_mutex w → handlers w !! t = Some h → hcrit (h_pc h) = true →
  holder_pc w = Some (h_pc h).
Proof.
  intros IM Hh Hc. apply (mutex_handler _ IM _ _ Hh) in Hc.
  unfold holder_pc. by rewrite Hc, Hh.
Qed.

Lemma holder_pc_step t w h w1 h1 :
  inv_mutex w → handlers w !! t = Some h → hstep t w h = Ok (w1, h1) →
  let w' := set_handlers (<[t := h1]> (handlers w1)) w1 in
  (hcrit (h_pc h) = true → holder_pc w = Some (h_pc h)) ∧
  (hcrit (h_pc h1) = true → holder_pc w' = Some (h_pc h1)) ∧
  (hcrit (h_pc h) = false → hcrit (h_pc h1) = false →
   holder_pc w' = holder_pc w) ∧
  (hcrit (h_pc h) = false → hcrit (h_pc h1) = true → holder_pc w = None) ∧
  (hcrit (h_pc h) = true → hcrit (h_pc h1) = false → holder_pc w' = None).
Proof.
  intros IM Hh Hs w'.
  assert (exec (AHandler t) w = Ok w') as Hex.
  { simpl. rewrite Hh, Hs. done. }
  pose proof (inv_mutex_exec _ _ _ IM Hex) as IM'.
  destruct (hstep_handlers _ _ _ _ _ Hs) as [Ehs _].
  assert (handlers w' !! t = Some h1) as Hh1.
  { subst w'. simpl. rewrite Ehs. apply list_lookup_insert_eq.
    by eapply lookup_lt_Some. }
  pose proof (mutex_handler _ IM _ _ Hh) as IMt.
  pose proof (mutex_handler _ IM' _ _ Hh1) as IMt'.
  pose proof (hstep_mutex _ _ _ _ _ Hs) as Hmu.
  assert (mu (srv w') = mu (srv w1)) as Emu by done.
  split_and!.
  - by apply (holder_pc_self w t).
  - by apply (holder_pc_self w' t).
  - intros Hc Hc1. destruct Hmu as [[_ E]|[(P & P1 & _)|(P & _)]];
      [|by rewrite P1 in Hc1|by rewrite P in Hc].
    unfold holder_pc. rewrite Emu, E.
    destruct (mu (srv w)) as [[t0|]|] eqn:Hm; [|done..].
    destruct (decide (t0 = t)) as [->|Hne].
    + destruct IMt as [_ IMt]. by rewrite IMt in Hc.
    + subst w'. simpl. rewrite Ehs. by rewrite list_lookup_insert_ne.
  - intros Hc Hc1. destruct Hmu as [[E _]|[(_ & _ & M & _)|(P & P1 & _)]].
    + congruence.
    + unfold holder_pc. by rewrite M.
    + by rewrite P1 in Hc1.
  - intros Hc Hc1. destruct Hmu as [[E _]|[(P & _)|(_ & _ & M)]].
    + congruence.
    + by rewrite P in Hc.
    + unfold holder_pc. by rewrite Emu, M.
Qed.

Lemma inv_counter_init env now : inv_counter (init env now).
Proof. split; simpl; done. Qed.

Lemma inv_counter_same w w' :
  uncounted w' = uncounted w → unnumbered w' = unnumbered w →
  registered w' = registered w →
  requestCounter (srv w') = requestCounter (srv w) →
  issued (handlers w') = issued (handlers w) →
  inv_counter w → inv_counter w'.
Proof.
  intros Eu En Er Ec Ei [I1 I2 I3 I4].
  split; by rewrite ?Eu, ?En, ?Er, ?Ec, ?Ei.
Qed.

Lemma inv_counter_same_holder w w' :
  holder_pc w' = holder_pc w → registered w' = registered w →
  requestCounter (srv w') = requestCounter (srv w) →
  issued (handlers w') = issued (handlers w) →
  inv_counter w → inv_counter w'.
Proof.
  intros Eh. apply inv_counter_same; unfold uncounted, unnumbered; by rewrite Eh.
Qed.

Lemma tstep_count w w' :
  tstep w = Ok w' →
  registered w' = registered w ∧
  requestCounter (srv w') = requestCounter (srv w) ∧
  handlers w' = handlers w.
Proof. intros H. tstep_cases H; done. Qed.

Lemma inv_counter_exec a w w' :
  inv w → inv_counter w → exec a w = Ok w' → inv_counter w'.
Proof.
  intros [IM IR] IC Hex. destruct a as [r|t| |l| |d].
  - injection Hex as <-. apply (inv_counter_same_holder w); try done.
    + unfold holder_pc. simpl. destruct (mu (srv w)) as [[t|]|] eqn:Hm; try done.
      rewrite lookup_app_l; [done|]. by apply (mutex_holder _ IM).
    + simpl. unfold issued. rewrite omap_app. simpl. by rewrite app_nil_r.
  - apply exec_handler in Hex as (h & w1 & h1 & Hh & Hs & ->).
    destruct (hstep_handlers _ _ _ _ _ Hs) as [Ehs _].
    pose proof (holder_pc_step _ _ _ _ _ IM Hh Hs) as (P1 & P2 & P3 & P4 & P5).
    destruct (hstep_count _ _ _ _ _ Hs)
      as [(Hpc & Hpc1 & Er & Ec & Ef)|[(Hpc & Hpc1 & Er & Ec & Ef)
         |[(Hpc & Hpc1 & Er & Ec & Ef & Ef1)|(Er & Ec & Ef & Hpcs)]]].
    + destruct IC as [I1 I2 I3 I4].
      rewrite Hpc, Hpc1 in *. specialize (P1 eq_refl). specialize (P2 eq_refl).
      unfold uncounted, unnumbered in *. rewrite P1 in *.
      split; unfold uncounted, unnumbered; rewrite P2; simpl;
        rewrite ?Er, ?Ec, ?Ehs, ?length_app; simpl.
      * lia.
      * lia.
      * rewrite I3. f_equal. lia.
      * rewrite (issued_insert_same _ _ _ _ Hh Ef).
        by replace (length (registered w) + 1 - 1)
          with (length (registered w) - 0) by lia.
    + destruct IC as [I1 I2 I3 I4].
      rewrite Hpc, Hpc1 in *. specialize (P1 eq_refl). specialize (P2 eq_refl).
      unfold uncounted, unnumbered in *. rewrite P1 in *.
      split; unfold uncounted, unnumbered; rewrite P2; simpl;
        rewrite ?Er, ?Ec, ?Ehs; simpl.
      * lia.
      * lia.
      * rewrite I3, wrap_wrap_succ. f_equal. lia.
      * by rewrite (issued_insert_same _ _ _ _ Hh Ef).
    + destruct IC as [I1 I2 I3 I4].
      rewrite Hpc, Hpc1 in *. specialize (P1 eq_refl). specialize (P2 eq_refl).
      unfold uncounted, unnumbered in *. rewrite P1 in *.
      split; unfold uncounted, unnumbered; rewrite P2; simpl;
        rewrite ?Er, ?Ec, ?Ehs; simpl.
      * lia.
      * lia.
      * done.
      * rewrite (issued_insert_new _ _ _ _ _ Hh Ef Ef1), I4, I3.
        destruct (length (registered w)) as [|n] eqn:Hlen; [lia|].
        replace (S n - 1) with n by lia. replace (S n - 0) with (S n) by lia.
        rewrite seq_S, fmap_app. simpl. unfold number_of.
        by replace (Z.of_nat n + 1)%Z with (Z.of_nat (S n)) by lia.
    + apply (inv_counter_same w); try done.
      * unfold uncounted.
        destruct Hpcs as [[Hpc Hpc1]|[[Hpc Hpc1]|[[Hpc Hpc1]|[Hc Hc1]]]];
          rewrite ?Hpc, ?Hpc1 in *.
        -- by rewrite (P2 eq_refl), (P4 eq_refl eq_refl).
        -- by rewrite (P1 eq_refl), (P2 eq_refl).
        -- by rewrite (P1 eq_refl), (P5 eq_refl eq_refl).
        -- by rewrite P3.
      * unfold unnumbered.
        destruct Hpcs as [[Hpc Hpc1]|[[Hpc Hpc1]|[[Hpc Hpc1]|[Hc Hc1]]]];
          rewrite ?Hpc, ?Hpc1 in *.
        -- by rewrite (P2 eq_refl), (P4 eq_refl eq_refl).
        -- by rewrite (P1 eq_refl), (P2 eq_refl).
        -- by rewrite (P1 eq_refl), (P5 eq_refl eq_refl).
        -- by rewrite P3.
      * simpl. rewrite Ehs. by apply issued_insert_same with h.
  - simpl in Hex. destruct (tstep_count _ _ Hex) as (Er & Ec & Eh).
    apply (inv_counter_same_holder w); try done; [|by rewrite Eh].
    unfold holder_pc. rewrite Eh.
    pose proof (mutex_trigger _ IM) as IMT.
    destruct (tstep_mutex _ _ Hex) as [_ [[_ E]|[(_ & _ & M & M1)|(P & _ & M1)]]].
    + by rewrite E.
    + by rewrite M, M1.
    + rewrite M1. rewrite P in IMT. destruct IMT as [IMT _].
      by rewrite (IMT eq_refl).
  - simpl in Hex. destruct (stdinClosed w); [done|]. injection Hex as <-.
    by apply (inv_counter_same_holder w).
  - injection Hex as <-. by apply (inv_counter_same_holder w).
  - injection Hex as <-. by apply (inv_counter_same_holder w).
Qed.

Lemma inv_counter_run sch w w' :
  inv w → inv_counter w → run sch w = Ok w' → inv_counter w'.
Proof.
  revert w. induction sch as [|a sch IH]; intros w Hw Hc Hrun.
  - by injection Hrun as <-.
  - apply run_cons_Ok in Hrun as (w1 & Hex & Hrun).
    eapply IH; [by eapply inv_exec| |done]. by eapply inv_counter_exec.
Qed.

Lemma reachable_inv_counter w : reachable w → inv_counter w.
Proof.
  intros (env & now & sch & Hrun).
  eapply inv_counter_run; [apply inv_init|apply inv_counter_init|done].
Qed.

Lemma number_of_small i :
  (Z.of_nat i + 1 ≤ GoInt.int_max)%Z → number_of i = (Z.of_nat i + 1)%Z.
Proof.
  intros Hi. unfold number_of. apply wrap_small.
  unfold GoInt.int_min, GoInt.int_max in *. lia.
Qed.

Lemma numbers_small n :
  (Z.of_nat n ≤ GoInt.int_max)%Z →
  number_of <$> seq 0 n = seqZ 1 (Z.of_nat n).
Proof.
  intros Hn. unfold seqZ. rewrite Nat2Z.id.
  apply list_fmap_ext. intros i x [-> Hx]%lookup_seq.
  apply number_of_small. lia.
Qed.

Lemma counter_exec a w w' :
  exec a w = Ok w' →
  requestCounter (srv w') = requestCounter (srv w) ∨
  requestCounter (srv w') = GoInt.incr (requestCounter (srv w)).
Proof.
  intros Hex. destruct a as [r|t| |l| |d].
  - injection Hex as <-. by left.
  - apply exec_handler in Hex as (h & w1 & h1 & Hh & Hs & ->). simpl.
    destruct (hstep_count _ _ _ _ _ Hs)
      as [(_ & _ & _ & Ec & _)|[(_ & _ & _ & Ec & _)
         |[(_ & _ & _ & Ec & _)|(_ & Ec & _)]]]; auto.
  - simpl in Hex. destruct (tstep_count _ _ Hex) as (_ & Ec & _). by left.
  - simpl in Hex. destruct (stdinClosed w); [done|]. injection Hex as <-.
    by left.
  - injection Hex as <-. by left.
  - injection Hex as <-. by left.
Qed.

Lemma counter_value w :
  inv_counter w → (len (registered w) ≤ GoInt.int_max)%Z →
  requestCounter (srv w) = (len (registered w) - Z.of_nat (uncounted w))%Z.
Proof.
  intros [I1 I2 I3 I4] Hb. rewrite I3. unfold len in *.
  rewrite wrap_small; unfold GoInt.int_min, GoInt.int_max in *; lia.
Qed.

Lemma counter_mono sch w w' :
  inv w → inv_counter w → run sch w = Ok w' →
  (len (registered w') ≤ GoInt.int_max)%Z →
  (requestCounter (srv w) ≤ requestCounter (srv w'))%Z.
Proof.
  revert w. induction sch as [|a sch IH]; intros w Hw Hc Hrun Hb.
  - injection Hrun as <-. lia.
  - apply run_cons_Ok in Hrun as (w1 & Hex & Hrun).
    pose proof (inv_exec _ _ _ Hw Hex) as Hw1.
    pose proof (inv_counter_exec _ _ _ Hw Hc Hex) as Hc1.
    specialize (IH w1 Hw1 Hc1 Hrun Hb).
    destruct (registered_run _ _ _ Hrun) as [l1 E1].
    destruct (registered_exec _ _ _ Hex) as [l0 E0].
    assert (len (registered w1) ≤ GoInt.int_max)%Z as Hb1.
    { unfold len in *. rewrite E1, length_app in Hb. lia. }
    assert (len (registered w) ≤ GoInt.int_max)%Z as Hb0.
    { unfold len in *. rewrite E0, length_app in Hb1. lia. }
    pose proof (counter_value _ Hc Hb0) as V0.
    pose proof (counter_value _ Hc1 Hb1) as V1.
    pose proof (cnt_bound _ Hc1). pose proof (cnt_uncounted _ Hc1).
    pose proof (cnt_bound _ Hc). pose proof (cnt_uncounted _ Hc).
    destruct (counter_exec _ _ _ Hex) as [E|E]; [lia|].
    assert (requestCounter (srv w) ≤ requestCounter (srv w1))%Z; [|lia].
    rewrite E. unfold GoInt.incr, GoInt.wrap.
    unfold len, GoInt.int_max in *.
    destruct (decide (requestCounter (srv w) + 1 ≤ 2 ^ 63 - 1)%Z).
    + rewrite Z.mod_small; lia.
    + exfalso. assert (requestCounter (srv w) = 2 ^ 63 - 1)%Z as Emax by lia.
      assert (GoInt.incr (2 ^ 63 - 1) = - 2 ^ 63)%Z as Ewrap by by vm_compute.
      rewrite E, Emax, Ewrap in V1. lia.
Qed.

(** C2 (amended).  In every reachable state whose number of registrations
    does not exceed the largest [int], the request numbers read so far on
    line 76 are, up to their order, exactly [1 .. N] with [N] their count (no
    number is missing and none is repeated), the counter is the number of
    registrations counted so far, and it has not decreased since any
    earlier state. *)
Theorem request_numbers_bounded (w w' : World) (sch : list action) :
  reachable w → run sch w = Ok w' →
  (len (registered w') ≤ GoInt.int_max)%Z →
  issued (handlers w') ≡ₚ seqZ 1 (len (issued (handlers w'))) ∧
  NoDup (issued (handlers w')) ∧
  len (issued (handlers w')) =
    (len (registered w') - Z.of_nat (unnumbered w'))%Z ∧
  requestCounter (srv w') =
    (len (registered w') - Z.of_nat (uncounted w'))%Z ∧
  (requestCounter (srv w) ≤ requestCounter (srv w'))%Z.
Proof.
  intros Hreach Hrun Hb.
  pose proof (reachable_inv _ Hreach) as Hw.
  pose proof (reachable_inv_counter _ Hreach) as Hc.
  pose proof (inv_counter_run _ _ _ Hw Hc Hrun) as Hc'.
  pose proof (cnt_issued _ Hc') as Hi. pose proof (cnt_bound _ Hc') as Hbd.
  assert (length (issued (handlers w')) =
          length (registered w') - unnumbered w') as Hlen.
  { rewrite Hi. by rewrite length_fmap, length_seq. }
  rewrite numbers_small in Hi by (unfold len in Hb; lia).
  split_and!.
  - unfold len. by rewrite Hlen.
  - rewrite Hi. apply NoDup_seqZ.
  - unfold len. rewrite Hlen. lia.
  - by apply counter_value.
  - by eapply counter_mono.
Qed.

Lemma request_numbers_bounded_witness :
  issued (handlers ex_done) ≡ₚ seqZ 1 (len (issued (handlers ex_done))) ∧
  NoDup (issued (handlers ex_done)) ∧
  len (issued (handlers ex_done)) =
    (len (registered ex_done) - Z.of_nat (unnumbered ex_done))%Z ∧
  requestCounter (srv ex_done) =
    (len (registered ex_done) - Z.of_nat (uncounted ex_done))%Z ∧
  (requestCounter (srv ex_two) ≤ requestCounter (srv ex_done))%Z.
Proof.
  apply (request_numbers_bounded ex_two ex_done
           ((ex_sched_release ++ [ATrigger]) ++ ex_sched_finish)).
  - exists ∅, ex_now, ex_sched_two. vm_compute. reflexivity.
  - vm_compute. reflexivity.
  - vm_compute. discriminate.
Defined.

Example request_numbers_sample : issued (handlers ex_done) = [1%Z; 2%Z].
Proof. vm_compute. reflexivity. Qed.

Lemma wrap_wrap_add x y : GoInt.wrap (GoInt.wrap x + y) = GoInt.wrap (x + y).
Proof.
  unfold GoInt.wrap.
  replace ((x + 2 ^ 63) mod 2 ^ 64 - 2 ^ 63 + y + 2 ^ 63)%Z
    with ((x + 2 ^ 63) mod 2 ^ 64 + y)%Z by lia.
  replace (x + y + 2 ^ 63)%Z with ((x + 2 ^ 63) + y)%Z by lia.
  by rewrite Zplus_mod_idemp_l.
Qed.

(** The numbers of successive registrations wrap around with the counter. *)
Lemma registrations_lookup n req s i :
  i < n →
  registrations n req s !! i =
  Some (GoInt.wrap (requestCounter s + Z.of_nat i + 1)).
Proof.
  revert s i. induction n as [|n IH]; intros s i Hi; [lia|].
  cbn [registrations register drainAll requestCounter].
  destruct i as [|i].
  - simpl. unfold GoInt.incr. do 2 f_equal. lia.
  - cbn [lookup list_lookup]. rewrite IH by lia.
    cbn [requestCounter]. f_equal. unfold GoInt.incr.
    rewrite <- Z.add_assoc, wrap_wrap_add. f_equal. lia.
Qed.

Lemma registrations_overflow n req :
  Z.of_nat n = (2 ^ 63)%Z →
  ¬ (registrations n req NewServer ≡ₚ seqZ 1 (Z.of_nat n)).
Proof.
  intros Hn Hperm.
  assert (n - 1 < n) as Hlt by lia.
  pose proof (registrations_lookup n req NewServer (n - 1) Hlt) as Hl.
  replace (requestCounter NewServer + Z.of_nat (n - 1) + 1)%Z
    with (2 ^ 63)%Z in Hl by (cbn [requestCounter NewServer]; lia).
  assert (GoInt.wrap (2 ^ 63) = - 2 ^ 63)%Z as Ewrap by by vm_compute.
  rewrite Ewrap in Hl.
  apply list_elem_of_lookup_2 in Hl. rewrite Hperm in Hl.
  apply elem_of_seqZ in Hl. lia.
Qed.

(** C2 as stated fails: the number of the registration of rank [2^63] is
    [- 2^63], so the numbers of [2^63] registrations are not [1 .. 2^63]. *)
Lemma request_numbers_overflow :
  ¬ (registrations (Z.to_nat (2 ^ 63)) ex_pending NewServer
       ≡ₚ seqZ 1 (Z.of_nat (Z.to_nat (2 ^ 63)))).
Proof. apply registrations_overflow. apply Z2Nat.id. done. Qed.

Example counter_wraps :
  register ex_pending (mkServer None [] GoInt.int_max) =
  (mkServer None [ex_pending] GoInt.int_min, GoInt.int_min, 1%Z).
Proof. vm_compute. reflexivity. Qed.

(** * Further properties of the program *)

(** ** Mutual exclusion and absence of panics *)

(** In every reachable state at most one goroutine is between a [Lock] and
    its [Unlock]: two handlers inside lines 74-78 are the same goroutine,
    and then [waitForEnter] is not inside lines 115-118. *)
Theorem mutual_exclusion (w : World) (t1 t2 : nat) (h1 h2 : Handler) :
  reachable w → handlers w !! t1 = Some h1 → handlers w !! t2 = Some h2 →
  hcrit (h_pc h1) = true →
  (hcrit (h_pc h2) = true → t1 = t2) ∧ tcrit (t_pc (trig w)) = false.
Proof.
  intros Hreach Hh1 Hh2 Hc1.
  destruct (reachable_inv _ Hreach) as [IM _].
  apply (mutex_handler _ IM _ _ Hh1) in Hc1. split.
  - intros Hc2. apply (mutex_handler _ IM _ _ Hh2) in Hc2. congruence.
  - destruct (tcrit (t_pc (trig w))) eqn:Hc; [|done].
    apply (mutex_trigger _ IM) in Hc. congruence.
Qed.

Lemma mutual_exclusion_witness :
  (hcrit (h_pc (ex_handler ex_reg_locked 0)) = true → 1 = 0) ∧
  tcrit (t_pc (trig ex_reg_locked)) = false.
Proof.
  apply (mutual_exclusion ex_reg_locked 1 0
           (ex_handler ex_reg_locked 1) (ex_handler ex_reg_locked 0)).
  - exists ∅, ex_now,
      (ex_sched_locked ++ (ex_sched_drain ++ [ATrigger]) ++ ex_sched_reg_locked).
    vm_compute. reflexivity.
  - vm_compute. reflexivity.
  - vm_compute. reflexivity.
  - vm_compute. reflexivity.
Defined.

(** No statement of any goroutine panics in a reachable state: [close] is
    never applied to a closed channel and [Unlock] never to a free mutex. *)
Theorem never_panics (w : World) (a : action) (msg : string) :
  reachable w → exec a w ≠ Panic msg.
Proof.
  intros Hreach Hex. pose proof (reachable_inv _ Hreach) as Hw.
  destruct Hw as [IM IR]. destruct a as [r|t| |l| |d]; try done.
  - simpl in Hex. destruct (handlers w !! t) as [h|] eqn:Hh; [|done].
    destruct (hstep t w h) as [[w1 h1]| |m] eqn:Hs; simpl in Hex; try done.
    pose proof (mutex_handler _ IM _ _ Hh) as IMt.
    unfold hstep, Lock, Unlock, recvChan, makeChan in Hs.
    destruct (h_pc h) eqn:Hpc; simpl in Hs; try done.
    + by destruct (mu (srv w)).
    + destruct (mu (srv w)) eqn:Hm; [done|].
      destruct IMt as [IMt _]. by specialize (IMt eq_refl).
    + by destruct (chans w !! responseChan (h_req h)) as [[]|].
  - simpl in Hex. pose proof (mutex_trigger _ IM) as IMT.
    unfold tstep, Lock, Unlock in Hex.
    destruct (t_pc (trig w)) eqn:Hpc; simpl in Hex; try done.
    + destruct (stdin w); [|done]. by destruct (stdinClosed w).
    + by destruct (mu (srv w)).
    + destruct (mu (srv w)) eqn:Hm; [done|].
      destruct IMT as [IMT _]. by specialize (IMT eq_refl).
    + destruct (t_pendingRequests (trig w) !! i) as [r|] eqn:Hr; [|done].
      unfold closeChan in Hex.
      rewrite (inflight_open w r (conj IM IR)) in Hex; [done|].
      apply elem_of_app. left. unfold inflight. rewrite Hpc.
      apply list_elem_of_lookup. exists 0. by rewrite lookup_drop, Nat.add_0_r.
  - simpl in Hex. by destruct (stdinClosed w).
Qed.

Lemma never_panics_witness :
  exec ATrigger ex_two_released1 ≠ Panic "close of closed channel".
Proof.
  apply (never_panics ex_two_released1 ATrigger).
  exists ∅, ex_now, (ex_sched_two ++ ex_sched_release1 ++ [ATrigger]).
  vm_compute. reflexivity.
Defined.

(** ** No request is lost *)

(** In every reachable state the requests appended so far are, in the order
    of their registration, those already signalled, then those drained and
    not yet signalled, then those pending; no two of them share a channel;
    the request of every handler past line 74 is among them; and the channel
    of a registered request is closed exactly when the request was
    signalled. *)
Theorem no_request_lost (w : World) :
  reachable w →
  registered w = released w ++ inflight (trig w) ++ pendingRequests (srv w) ∧
  NoDup (responseChan <$> registered w) ∧
  (∀ t h, handlers w !! t = Some h → appended (h_pc h) = true →
          h_req h ∈ registered w) ∧
  (∀ r, r ∈ registered w →
        chans w !! responseChan r = Some true ↔ r ∈ released w).
Proof.
  intros Hreach. destruct (reachable_inv _ Hreach) as [IM IR].
  split_and!.
  - apply (reg_split _ IR).
  - apply (reg_nodup _ IR).
  - intros t h Hh Ha.
    assert (allocated (h_pc h) = true) as Hal by by destruct (h_pc h).
    pose proof (han_appended _ IR _ _ Hh Hal) as H. by rewrite Ha in H.
  - intros r Hr. rewrite (reg_closed _ IR). split.
    + intros (r' & Heq & Hr')%list_elem_of_fmap.
      assert (r' ∈ registered w) as Hreg'.
      { rewrite (reg_split _ IR). apply elem_of_app. by left. }
      apply list_elem_of_lookup in Hr as [i Hi].
      apply list_elem_of_lookup in Hreg' as [j Hj].
      assert (i = j) as ->.
      { apply (NoDup_lookup _ _ _ (responseChan r) (reg_nodup _ IR));
          rewrite list_lookup_fmap; [by rewrite Hi|by rewrite Hj, Heq]. }
      congruence.
    + apply list_elem_of_fmap_2.
Qed.

Lemma no_request_lost_witness :
  registered ex_two_released1 =
    released ex_two_released1 ++ inflight (trig ex_two_released1) ++
    pendingRequests (srv ex_two_released1) ∧
  NoDup (responseChan <$> registered ex_two_released1) ∧
  (∀ t h, handlers ex_two_released1 !! t = Some h → appended (h_pc h) = true →
          h_req h ∈ registered ex_two_released1) ∧
  (∀ r, r ∈ registered ex_two_released1 →
        chans ex_two_released1 !! responseChan r = Some true ↔
        r ∈ released ex_two_released1).
Proof.
  apply (no_request_lost ex_two_released1).
  exists ∅, ex_now, (ex_sched_two ++ ex_sched_release1 ++ [ATrigger]).
  vm_compute. reflexivity.
Defined.

(** ** The operator's input stream *)

Lemma exited_exec a w w' :
  t_pc (trig w) = TExit → exec a w = Ok w' →
  t_pc (trig w') = TExit ∧ released w' = released w.
Proof.
  intros Hpc Hex. destruct (is_trigger a) eqn:Ha.
  - destruct a; try done. simpl in Hex. unfold tstep in Hex.
    by rewrite Hpc in Hex.
  - destruct (frame_not_trigger _ _ _ Ha Hex) as [-> ->]. done.
Qed.

(** When the input stream is closed and no line is left, [waitForEnter]
    leaves its loop; from then on it never runs again and no request is
    ever released, while the handlers go on registering. *)
Theorem no_release_after_exit (w0 w w' : World) (sch : list action) :
  t_pc (trig w0) = T112 → stdin w0 = [] → stdinClosed w0 = true →
  exec ATrigger w0 = Ok w → run sch w = Ok w' →
  t_pc (trig w) = TExit ∧ t_pc (trig w') = TExit ∧
  released w' = released w0 ∧ exec ATrigger w' = Blocked.
Proof.
  intros Hpc Hin Hcl Hex Hrun.
  assert (t_pc (trig w) = TExit ∧ released w = released w0) as [Hpc1 Hrel1].
  { simpl in Hex. unfold tstep in Hex. rewrite Hpc, Hin, Hcl in Hex.
    by injection Hex as <-. }
  assert (t_pc (trig w') = TExit ∧ released w' = released w) as [Hpc2 Hrel2].
  { clear Hex. revert w Hpc1 Hrel1 Hrun.
    induction sch as [|a sch IH]; intros w Hpc1 Hrel1 Hrun.
    - by injection Hrun as <-.
    - apply run_cons_Ok in Hrun as (w1 & Hex & Hrun).
      destruct (exited_exec _ _ _ Hpc1 Hex) as [Hpc' Hrel'].
      destruct (IH w1 Hpc' ltac:(congruence) Hrun) as [? ?].
      split; congruence. }
  split_and!; try done; [congruence|].
  simpl. unfold tstep. by rewrite Hpc2.
Qed.

Lemma no_release_after_exit_witness :
  t_pc (trig ex_exited) = TExit ∧ t_pc (trig ex_after_exit) = TExit ∧
  released ex_after_exit = released (world_of (run [AEOF] (init ∅ ex_now))) ∧
  exec ATrigger ex_after_exit = Blocked.
Proof.
  apply (no_release_after_exit (world_of (run [AEOF] (init ∅ ex_now)))
           ex_exited ex_after_exit ex_sched_after_exit).
  - vm_compute. reflexivity.
  - vm_compute. reflexivity.
  - vm_compute. reflexivity.
  - vm_compute. reflexivity.
  - vm_compute. reflexivity.
Defined.

Lemma silent_exec a w w' :
  is_input a = false → silent w → exec a w = Ok w' → silent w'.
Proof.
  intros Ha (Hin & Hpc & Hrel) Hex. destruct a as [r|t| |l| |d]; try done.
  - by injection Hex as <-.
  - apply exec_handler in Hex as (h & w1 & h1 & Hh & Hs & ->).
    unfold silent. hstep_cases Hs; done.
  - simpl in Hex. unfold tstep in Hex. unfold silent.
    destruct Hpc as [Hpc|Hpc]; rewrite Hpc, ?Hin in Hex; [|done].
    destruct (stdinClosed w); [|done]. injection Hex as <-. simpl. auto.
  - by injection Hex as <-.
  - by injection Hex as <-.
Qed.

(** As long as the operator types nothing, no channel is closed, no handler
    gets past line 94 and no handler has written a byte of body, whatever
    the number of requests and however long they wait. *)
Theorem held_until_line
    (env : gmap string string) (now : GoStd.Time) (sch : list action) (w : World) :
  run sch (init env now) = Ok w → Forall (λ a, is_input a = false) sch →
  released w = [] ∧
  (∀ c, chans w !! c ≠ Some true) ∧
  (∀ t h, handlers w !! t = Some h →
          resumed (h_pc h) = false ∧
          ∀ s, Http.WBody s ∉ Http.buffered (h_w h) ++ Http.wire (h_w h)).
Proof.
  intros Hrun Hsch.
  assert (silent w) as (_ & _ & Hrel).
  { assert (silent (init env now)) as H0 by (split_and!; auto).
    revert Hrun H0. generalize (init env now). clear -Hsch.
    induction Hsch as [|a sch Ha _ IH]; intros w0 Hrun H0.
    - by injection Hrun as <-.
    - apply run_cons_Ok in Hrun as (w1 & Hex & Hrun).
      apply (IH w1 Hrun). by eapply silent_exec. }
  assert (reachable w) as Hreach by by exists env, now, sch.
  destruct (reachable_inv _ Hreach) as [IM IR].
  assert (∀ c, chans w !! c ≠ Some true) as Hopen.
  { intros c Hc. apply (reg_closed _ IR) in Hc. rewrite Hrel in Hc.
    by apply elem_of_nil in Hc. }
  split_and!; try done.
  intros t h Hh.
  pose proof (reachable_inv_handler _ Hreach _ _ Hh) as [H1 _ _ H4 _ _].
  assert (resumed (h_pc h) = false) as Hres.
  { destruct (resumed (h_pc h)); [|done]. by destruct (Hopen _ (H4 eq_refl)). }
  split; [done|]. intros s Hin. rewrite H1 in Hin.
  destruct (h_pc h); try done; simpl in Hin;
    repeat match goal with
    | H : _ ∈ [] |- _ => by apply elem_of_nil in H
    | H : _ ∈ _ :: _ |- _ => apply elem_of_cons in H as [?|?]; [done|]
    end.
Qed.

Lemma held_until_line_witness :
  released ex_silent = [] ∧
  (∀ c, chans ex_silent !! c ≠ Some true) ∧
  (∀ t h, handlers ex_silent !! t = Some h →
          resumed (h_pc h) = false ∧
          ∀ s, Http.WBody s ∉ Http.buffered (h_w h) ++ Http.wire (h_w h)).
Proof.
  apply (held_until_line ∅ ex_now ex_sched_silent ex_silent).
  - vm_compute. reflexivity.
  - unfold ex_sched_silent. repeat constructor.
Defined.

(** ** Standard output *)

Lemma stdout_run sch w w' :
  run sch w = Ok w' → ∃ l, stdout w' = stdout w ++ l.
Proof.
  revert w. induction sch as [|a sch IH]; intros w Hrun.
  - injection Hrun as <-. exists []. by rewrite app_nil_r.
  - apply run_cons_Ok in Hrun as (w1 & Hex & Hrun).
    apply stdout_exec in Hex as [l1 E1]. apply IH in Hrun as [l2 E2].
    exists (l1 ++ l2). by rewrite E2, E1, (assoc_L (++)).
Qed.

(** Nothing printed is ever taken back, and the output of every run starts
    with the four lines [main] prints, the first of which shows the listen
    address computed from [PORT]. *)
Theorem banner_first
    (env : gmap string string) (now : GoStd.Time) (sch sch' : list action)
    (w w' : World) :
  run sch (init env now) = Ok w → run sch' w = Ok w' →
  stdout w `prefix_of` stdout w' ∧
  ∃ rest, stdout w =
    Printf "Starting server on http://localhost%s\n" [AStr (":" +:+ port env)]
    :: Println "The server can hold multiple requests."
    :: Println "Press ENTER to release ALL pending requests at once."
    :: Println EmptyString :: rest.
Proof.
  intros Hrun Hrun'. split.
  - apply stdout_run in Hrun' as [l ->]. by exists l.
  - apply stdout_run in Hrun as [l ->]. by exists l.
Qed.

Lemma banner_first_witness :
  stdout ex_two `prefix_of` stdout ex_done ∧
  ∃ rest, stdout ex_two =
    Printf "Starting server on http://localhost%s\n" [AStr (":" +:+ port ∅)]
    :: Println "The server can hold multiple requests."
    :: Println "Press ENTER to release ALL pending requests at once."
    :: Println EmptyString :: rest.
Proof.
  apply (banner_first ∅ ex_now ex_sched_two
           ((ex_sched_release ++ [ATrigger]) ++ ex_sched_finish)).
  - vm_compute. reflexivity.
  - vm_compute. reflexivity.
Defined.

(** ** The numbers a handler prints on arrival *)

(** The pending count a handler reads on line 77 counts its own request and
    never exceeds its request number: with fewer than [2^63 - 1] earlier
    registrations, [requestNum] is the rank of the registration and
    [1 <= pendingCount <= requestNum]. *)
Theorem pending_count_bounds
    (t : nat) (w0 w1 : World) (h0 : Handler) (sch : list action) :
  reachable w0 → handlers w0 !! t = Some h0 → h_pc h0 = H74 →
  hsteps t sch = 4 → run (sch ++ [AHandler t]) w0 = Ok w1 →
  (len (registered w0) < GoInt.int_max)%Z →
  ∃ h1, handlers w1 !! t = Some h1 ∧
        h_requestNum h1 = (len (registered w0) + 1)%Z ∧
        h_pendingCount h1 = (len (pendingRequests (srv w0)) + 1)%Z ∧
        (1 ≤ h_pendingCount h1 ≤ h_requestNum h1)%Z.
Proof.
  intros Hreach Hh0 Hpc Hn Hrun Hb.
  pose proof (reachable_inv _ Hreach) as Hw0.
  pose proof (reachable_inv_counter _ Hreach) as Hc0.
  assert (register_stage t 0 w0 w0) as H0.
  { exists h0, h0. split_and!; try done; lia. }
  pose proof (stage_run_last (is_handler t) (λ k, register_stage t k w0) 5
                (register_stage_exec t w0) sch (AHandler t) 0 w0 w1 Hw0 H0) as H.
  simpl in H. rewrite bool_decide_eq_true_2 in H by done.
  specialize (H eq_refl Hrun). unfold hsteps in Hn. rewrite Hn in H.
  destruct (H ltac:(lia))
    as (h0' & h1 & Hh0' & Hh1 & Er & Ep & Epen & Ereg & Ec & En & Ecnt & Emu).
  rewrite Hh0 in Hh0'. injection Hh0' as <-.
  assert (requestCounter (srv w0) = len (registered w0)) as Ecount.
  { rewrite (counter_value _ Hc0) by lia.
    assert (holder_pc w0 = Some H74) as Hhold.
    { rewrite <- Hpc. apply (holder_pc_self w0 t); [apply Hw0|done|].
      by rewrite Hpc. }
    unfold uncounted. rewrite Hhold. lia. }
  assert (length (pendingRequests (srv w0)) ≤ length (registered w0)) as Hle.
  { rewrite (reg_split _ (proj2 Hw0)), !length_app. lia. }
  exists h1. rewrite En, Ecnt by lia. rewrite Ecount.
  unfold GoInt.incr. rewrite wrap_small
    by (unfold GoInt.int_min, GoInt.int_max, len in *; lia).
  unfold len in *. rewrite length_app. simpl.
  split_and!; try done; lia.
Qed.

Lemma pending_count_bounds_witness :
  ∃ h1, handlers ex_registered !! 1 = Some h1 ∧
        h_requestNum h1 = (len (registered ex_reg_locked) + 1)%Z ∧
        h_pendingCount h1 = (len (pendingRequests (srv ex_reg_locked)) + 1)%Z ∧
        (1 ≤ h_pendingCount h1 ≤ h_requestNum h1)%Z.
Proof.
  apply (pending_count_bounds 1 ex_reg_locked ex_registered
           (ex_handler ex_reg_locked 1) ex_sched_reg).
  - exists ∅, ex_now,
      (ex_sched_locked ++ (ex_sched_drain ++ [ATrigger]) ++ ex_sched_reg_locked).
    vm_compute. reflexivity.
  - vm_compute. reflexivity.
  - vm_compute. reflexivity.
  - vm_compute. reflexivity.
  - vm_compute. reflexivity.
  - vm_compute. reflexivity.
Defined.

(** ** A request is held *)

(** One statement of lines 61-91: where it leads and what it changes of the
    mutex, of the registry and of the request object. *)
Lemma hstep_head t w h :
  match h_pc h with
  | H73 => mu (srv w) = None
  | H78 => mu (srv w) ≠ None
  | H61 | H64 | H74 | H75 | H76 | H77 | H80 | H82 | H85 | H86 | H89 => True
  | _ => False
  end →
  ∃ w' h', hstep t w h = Ok (w', h') ∧
    h_pc h' = match h_pc h with
              | H61 => H64 | H64 => H73 | H73 => H74 | H74 => H75
              | H75 => H76 | H76 => H77 | H77 => H78 | H78 => H80
              | H80 => H82 | H82 => H85 | H85 => H86 | H86 => H89
              | _ => H94
              end ∧
    handlers w' = handlers w ∧
    mu (srv w') = match h_pc h with
                  | H73 => Some (OwnHandler t)
                  | H78 => None
                  | _ => mu (srv w)
                  end ∧
    pendingRequests (srv w') =
      match h_pc h with
      | H74 => pendingRequests (srv w) ++ [h_req h]
      | _ => pendingRequests (srv w)
      end ∧
    h_req h' =
      match h_pc h with
      | H64 => mkPending (h_requestTime h) (length (chans w))
                         (Http.RemoteAddr (h_r h)) (Http.URLPath (h_r h))
                         (Http.Method (h_r h))
      | _ => h_req h
      end ∧
    h_r h' = h_r h.
Proof.
  intros Hpre. unfold hstep, Lock, Unlock, makeChan.
  destruct (h_pc h); try done; try (by eexists _, _).
  - rewrite Hpre. by eexists _, _.
  - destruct (mu (srv w)); [|done]. by eexists _, _.
  - destruct (Http.isFlusher (h_w h)); by eexists _, _.
Qed.

(** Lines 61-91 run without interruption when the mutex is free: the
    handler reaches the receive of line 94 with its request appended. *)
Lemma hrun_arrival t w0 h0 :
  h_pc h0 = H61 → mu (srv w0) = None →
  ∃ w' h', hrun 13 t w0 h0 = Ok (w', h') ∧ h_pc h' = H94 ∧
    handlers w' = handlers w0 ∧ mu (srv w') = None ∧
    pendingRequests (srv w') = pendingRequests (srv w0) ++ [h_req h'] ∧
    h_r h' = h_r h0.
Proof.
  intros Hpc0 Hmu0.
  destruct (hstep_head t w0 h0) as (w1 & h1 & E1 & P1 & L1 & M1 & N1 & R1 & Q1);
    [by rewrite Hpc0|].
  rewrite Hpc0 in P1, M1, N1, R1. simpl in P1, M1, N1, R1.
  destruct (hstep_head t w1 h1) as (w2 & h2 & E2 & P2 & L2 & M2 & N2 & R2 & Q2);
    [rewrite P1; simpl; try done|].
  rewrite P1 in P2, M2, N2, R2. simpl in P2, M2, N2, R2.
  destruct (hstep_head t w2 h2) as (w3 & h3 & E3 & P3 & L3 & M3 & N3 & R3 & Q3);
    [rewrite P2; simpl; congruence|].
  rewrite P2 in P3, M3, N3, R3. simpl in P3, M3, N3, R3.
  destruct (hstep_head t w3 h3) as (w4 & h4 & E4 & P4 & L4 & M4 & N4 & R4 & Q4);
    [rewrite P3; simpl; try done|].
  rewrite P3 in P4, M4, N4, R4. simpl in P4, M4, N4, R4.
  destruct (hstep_head t w4 h4) as (w5 & h5 & E5 & P5 & L5 & M5 & N5 & R5 & Q5);
    [rewrite P4; simpl; try done|].
  rewrite P4 in P5, M5, N5, R5. simpl in P5, M5, N5, R5.
  destruct (hstep_head t w5 h5) as (w6 & h6 & E6 & P6 & L6 & M6 & N6 & R6 & Q6);
    [rewrite P5; simpl; try done|].
  rewrite P5 in P6, M6, N6, R6. simpl in P6, M6, N6, R6.
  destruct (hstep_head t w6 h6) as (w7 & h7 & E7 & P7 & L7 & M7 & N7 & R7 & Q7);
    [rewrite P6; simpl; try done|].
  rewrite P6 in P7, M7, N7, R7. simpl in P7, M7, N7, R7.
  destruct (hstep_head t w7 h7) as (w8 & h8 & E8 & P8 & L8 & M8 & N8 & R8 & Q8);
    [rewrite P7; simpl; congruence|].
  rewrite P7 in P8, M8, N8, R8. simpl in P8, M8, N8, R8.
  destruct (hstep_head t w8 h8) as (w9 & h9 & E9 & P9 & L9 & M9 & N9 & R9 & Q9);
    [rewrite P8; simpl; try done|].
  rewrite P8 in P9, M9, N9, R9. simpl in P9, M9, N9, R9.
  destruct (hstep_head t w9 h9) as (w10 & h10 & E10 & P10 & L10 & M10 & N10 & R10 & Q10);
    [rewrite P9; simpl; try done|].
  rewrite P9 in P10, M10, N10, R10. simpl in P10, M10, N10, R10.
  destruct (hstep_head t w10 h10) as (w11 & h11 & E11 & P11 & L11 & M11 & N11 & R11 & Q11);
    [rewrite P10; simpl; try done|].
  rewrite P10 in P11, M11, N11, R11. simpl in P11, M11, N11, R11.
  destruct (hstep_head t w11 h11) as (w12 & h12 & E12 & P12 & L12 & M12 & N12 & R12 & Q12);
    [rewrite P11; simpl; try done|].
  rewrite P11 in P12, M12, N12, R12. simpl in P12, M12, N12, R12.
  destruct (hstep_head t w12 h12) as (w13 & h13 & E13 & P13 & L13 & M13 & N13 & R13 & Q13);
    [rewrite P12; simpl; try done|].
  rewrite P12 in P13, M13, N13, R13. simpl in P13, M13, N13, R13.
  exists w13, h13. split_and!.
  - rewrite hrun_S, E1. cbn [bind]. rewrite hrun_S, E2. cbn [bind]. rewrite hrun_S, E3. cbn [bind]. rewrite hrun_S, E4. cbn [bind]. rewrite hrun_S, E5. cbn [bind]. rewrite hrun_S, E6. cbn [bind]. rewrite hrun_S, E7. cbn [bind]. rewrite hrun_S, E8. cbn [bind]. rewrite hrun_S, E9. cbn [bind]. rewrite hrun_S, E10. cbn [bind]. rewrite hrun_S, E11. cbn [bind]. rewrite hrun_S, E12. cbn [bind]. rewrite hrun_S, E13. cbn [bind].
    done.
  - done.
  - congruence.
  - congruence.
  - rewrite N13, N12, N11, N10, N9, N8, N7, N6, N5, N4, N3, N2, N1.
    congruence.
  - congruence.
Qed.

Lemma arrival_run (w : World) (r : Http.Request) :
  reachable w → mu (srv w) = None →
  ∃ w' h',
    run (AServe r :: replicate 13 (AHandler (length (handlers w)))) w = Ok w' ∧
    handlers w' = handlers w ++ [h'] ∧ h_pc h' = H94 ∧
    pendingRequests (srv w') = pendingRequests (srv w) ++ [h_req h'] ∧
    remoteAddr (h_req h') = Http.RemoteAddr r ∧
    path (h_req h') = Http.URLPath r ∧ method (h_req h') = Http.Method r ∧
    chans w' !! responseChan (h_req h') = Some false ∧
    Http.wire (h_w h') = [Http.WHead 200 [("Content-Type", "text/plain")]] ∧
    mu (srv w') = None ∧
    exec (AHandler (length (handlers w))) w' = Blocked.
Proof.
  intros Hreach Hmu. set (t := length (handlers w)).
  set (w1 := set_handlers (handlers w ++ [newHandler r]) w).
  assert (handlers w1 !! t = Some (newHandler r)) as Hh1.
  { subst w1 t. simpl. rewrite lookup_app_r by lia.
    by rewrite Nat.sub_diag. }
  destruct (hrun_arrival t w1 (newHandler r) eq_refl Hmu)
    as (w2 & h' & E & P & L & M & N & Q).
  assert (run (AServe r :: replicate 13 (AHandler t)) w =
          Ok (set_handlers (<[t := h']> (handlers w1)) w2)) as Hrun.
  { apply run_cons_Ok. exists w1. split; [done|].
    rewrite (run_handler_alone _ _ _ _ Hh1), E. done. }
  set (w' := set_handlers (<[t := h']> (handlers w1)) w2) in *.
  assert (handlers w' = handlers w ++ [h']) as Ehs.
  { subst w' w1 t. simpl.
    replace (length (handlers w)) with (length (handlers w) + 0) at 1 by lia.
    by rewrite insert_app_r. }
  assert (handlers w' !! t = Some h') as Hh'.
  { rewrite Ehs. subst t. rewrite lookup_app_r by lia.
    by rewrite Nat.sub_diag. }
  pose proof (reachable_run _ _ _ Hreach Hrun) as Hreach'.
  pose proof (reachable_inv _ Hreach') as Hw'.
  pose proof (reachable_inv_handler _ Hreach' _ _ Hh') as [H1 H2 _ _ _ _].
  assert (chans w' !! responseChan (h_req h') = Some false) as Hopen.
  { apply inflight_open; [done|]. apply elem_of_app. right.
    subst w'. simpl. rewrite N. apply elem_of_app. right.
    by apply list_elem_of_singleton. }
  exists w', h'. split_and!; try done.
  - rewrite H2 by by rewrite P. simpl. by rewrite Q.
  - rewrite H2 by by rewrite P. simpl. by rewrite Q.
  - rewrite H2 by by rewrite P. simpl. by rewrite Q.
  - by rewrite H1, P.
  - unfold exec. rewrite Hh'. unfold hstep, recvChan. by rewrite P, Hopen.
Qed.

(** A request that arrives while the mutex is free, served without
    interruption, is registered last in the registry with the address, path
    and method of the request, its header block goes out, and its handler
    then blocks on a channel that is still open: the body is withheld.  No
    other handler is touched. *)
Theorem request_is_held (w : World) (r : Http.Request) :
  reachable w → mu (srv w) = None →
  ∃ w' h',
    run (AServe r :: replicate 13 (AHandler (length (handlers w)))) w = Ok w' ∧
    handlers w' = handlers w ++ [h'] ∧ h_pc h' = H94 ∧
    pendingRequests (srv w') = pendingRequests (srv w) ++ [h_req h'] ∧
    remoteAddr (h_req h') = Http.RemoteAddr r ∧
    path (h_req h') = Http.URLPath r ∧ method (h_req h') = Http.Method r ∧
    chans w' !! responseChan (h_req h') = Some false ∧
    Http.wire (h_w h') = [Http.WHead 200 [("Content-Type", "text/plain")]] ∧
    mu (srv w') = None ∧
    exec (AHandler (length (handlers w))) w' = Blocked.
Proof. apply arrival_run. Qed.

Lemma request_is_held_witness :
  ∃ w' h',
    run (AServe ex_req :: replicate 13 (AHandler (length (handlers ex_two))))
        ex_two = Ok w' ∧
    handlers w' = handlers ex_two ++ [h'] ∧ h_pc h' = H94 ∧
    pendingRequests (srv w') = pendingRequests (srv ex_two) ++ [h_req h'] ∧
    remoteAddr (h_req h') = Http.RemoteAddr ex_req ∧
    path (h_req h') = Http.URLPath ex_req ∧
    method (h_req h') = Http.Method ex_req ∧
    chans w' !! responseChan (h_req h') = Some false ∧
    Http.wire (h_w h') = [Http.WHead 200 [("Content-Type", "text/plain")]] ∧
    mu (srv w') = None ∧
    exec (AHandler (length (handlers ex_two))) w' = Blocked.
Proof.
  apply (request_is_held ex_two ex_req).
  - exists ∅, ex_now, ex_sched_two. vm_compute. reflexivity.
  - vm_compute. reflexivity.
Defined.

Lemma silent_run env now sch w :
  run sch (init env now) = Ok w → Forall (λ a, is_input a = false) sch →
  silent w.
Proof.
  intros Hrun Hsch.
  assert (silent (init env now)) as H0 by (split_and!; auto).
  revert Hrun H0. generalize (init env now).
  induction Hsch as [|a sch Ha _ IH]; intros w0 Hrun H0.
  - by injection Hrun as <-.
  - apply run_cons_Ok in Hrun as (w1 & Hex & Hrun).
    apply (IH w1 Hrun). by eapply silent_exec.
Qed.

Lemma holds_n (env : gmap string string) (now : GoStd.Time) (n : nat) :
  ∃ sch w, run sch (init env now) = Ok w ∧
    Forall (λ a, is_input a = false) sch ∧
    length (pendingRequests (srv w)) = n ∧ length (handlers w) = n ∧
    mu (srv w) = None ∧
    ∀ t h, handlers w !! t = Some h → h_pc h = H94.
Proof.
  induction n as [|n (sch & w & Hrun & Hsil & Hp & Hh & Hmu & Hall)].
  - exists [], (init env now). split_and!; try done.
  - assert (reachable w) as Hreach by by exists env, now, sch.
    destruct (arrival_run w ex_req Hreach Hmu)
      as (w' & h' & Hrun' & Ehs & P & N & _ & _ & _ & Hopen & _ & Hmu' & _).
    exists (sch ++ AServe ex_req :: replicate 13 (AHandler (length (handlers w)))), w'.
    split_and!.
    + apply run_app_Ok. eauto.
    + apply Forall_app. split; [done|]. constructor; [done|].
      by apply Forall_replicate.
    + rewrite N, length_app. simpl. lia.
    + rewrite Ehs, length_app. simpl. lia.
    + done.
    + intros t h Ht. rewrite Ehs in Ht.
      apply lookup_app_Some in Ht as [Ht|[_ Ht]]; [by eapply Hall|].
      by apply list_lookup_singleton_Some in Ht as [_ <-].
Qed.

(** There is no cap on the number of held requests: for every [n] some run
    of the program reaches a state with [n] pending requests, each with its
    handler blocked on line 94 in front of an open channel. *)
Theorem unbounded_holds (env : gmap string string) (now : GoStd.Time) (n : nat) :
  ∃ sch w, run sch (init env now) = Ok w ∧
    length (pendingRequests (srv w)) = n ∧ length (handlers w) = n ∧
    ∀ t h, handlers w !! t = Some h →
           h_pc h = H94 ∧ chans w !! responseChan (h_req h) = Some false ∧
           exec (AHandler t) w = Blocked.
Proof.
  destruct (holds_n env now n) as (sch & w & Hrun & Hsil & Hp & Hh & Hmu & Hall).
  exists sch, w. split_and!; try done.
  intros t h Ht. pose proof (Hall _ _ Ht) as Hpc.
  assert (reachable w) as Hreach by by exists env, now, sch.
  destruct (reachable_inv _ Hreach) as [IM IR].
  destruct (silent_run _ _ _ _ Hrun Hsil) as (_ & _ & Hrel).
  assert (chans w !! responseChan (h_req h) = Some false) as Hopen.
  { assert (allocated (h_pc h) = true) as Hal by by rewrite Hpc.
    pose proof (han_alloc _ IR _ _ Ht Hal) as Hlt.
    apply lookup_lt_is_Some in Hlt as [b Hb]. destruct b; [|done].
    apply (reg_closed _ IR) in Hb. rewrite Hrel in Hb.
    by apply elem_of_nil in Hb. }
  split_and!; try done.
  unfold exec. rewrite Ht. unfold hstep, recvChan. by rewrite Hpc, Hopen.
Qed.

(** ** One line releases everything *)

(** Lines 112-118 run without interruption when a line is available and
    the mutex is free. *)
Lemma scan_and_drain w l rest :
  t_pc (trig w) = T112 → stdin w = l :: rest → mu (srv w) = None →
  ∃ w', run (replicate 6 ATrigger) w = Ok w' ∧
    t_pc (trig w') = T120 ∧
    t_pendingRequests (trig w') = pendingRequests (srv w) ∧
    pendingRequests (srv w') = [] ∧ released w' = released w ∧
    stdin w' = rest ∧ handlers w' = handlers w.
Proof.
  intros Hpc Hin Hmu.
  unfold replicate, run, exec, tstep. rewrite Hpc, Hin. cbn [bind].
  cbn [trig set_trig t_goto t_pc]. unfold Lock.
  cbn [srv set_stdin set_trig]. rewrite Hmu. cbn [bind].
  cbn [trig set_trig t_goto t_pc srv set_srv]. unfold Unlock.
  cbn [trig set_trig t_goto t_pc srv set_srv mu bind].
  eexists. split; [reflexivity|]. done.
Qed.

Lemma registered_trigger_run m w w' :
  run (replicate m ATrigger) w = Ok w' → registered w' = registered w.
Proof.
  revert w. induction m as [|m IH]; intros w Hrun.
  - by injection Hrun as <-.
  - apply run_cons_Ok in Hrun as (w1 & Hex & Hrun).
    simpl in Hex. destruct (tstep_count _ _ Hex) as (E & _).
    rewrite (IH _ Hrun). done.
Qed.

(** With a line typed, the mutex free and requests pending, [waitForEnter]
    run on its own consumes the line, drains the registry and closes the
    channel of every pending request, in their order, then waits for the
    next line: a single line releases all of them and leaves none pending. *)
Theorem one_line_releases_all (w : World) (l : string) (rest : list string) :
  reachable w → t_pc (trig w) = T112 → stdin w = l :: rest →
  mu (srv w) = None → pendingRequests (srv w) ≠ [] →
  ∃ w', run (replicate (length (pendingRequests (srv w)) + 9) ATrigger) w
        = Ok w' ∧
    released w' = released w ++ pendingRequests (srv w) ∧
    pendingRequests (srv w') = [] ∧
    (∀ r, r ∈ pendingRequests (srv w) →
          chans w !! responseChan r = Some false ∧
          chans w' !! responseChan r = Some true) ∧
    t_pc (trig w') = T112.
Proof.
  intros Hreach Hpc Hin Hmu Hne.
  destruct (scan_and_drain w l rest Hpc Hin Hmu)
    as (w1 & Hrun1 & Hpc1 & Hb & Hp1 & Hrel1 & Hin1 & Hhs1).
  pose proof (reachable_inv _ Hreach) as Hw.
  pose proof (reachable_run _ _ _ Hreach Hrun1) as Hreach1.
  pose proof (reachable_inv _ Hreach1) as Hw1.
  assert (t_pendingRequests (trig w1) ≠ []) as HB by by rewrite Hb.
  destruct (release_progress w1 (length (t_pendingRequests (trig w1)) + 3)
              Hw1 Hpc1 HB ltac:(lia)) as (w' & Hrun2 & Hst).
  replace (length (t_pendingRequests (trig w1)) + 3)
    with (S (S (length (t_pendingRequests (trig w1)) + 1))) in Hst by lia.
  destruct Hst as (Hb' & Hc' & Hpc' & Hrel' & _).
  rewrite decide_False in Hpc' by lia. rewrite take_ge in Hrel' by lia.
  assert (run (replicate (length (pendingRequests (srv w)) + 9) ATrigger) w
          = Ok w') as Hrun.
  { replace (length (pendingRequests (srv w)) + 9)
      with (6 + (length (t_pendingRequests (trig w1)) + 3))
      by (rewrite Hb; lia).
    rewrite replicate_add. apply run_app_Ok. eauto. }
  pose proof (reachable_run _ _ _ Hreach Hrun) as Hreach'.
  pose proof (reachable_inv _ Hreach') as Hw'.
  exists w'. split_and!; try done.
  - by rewrite Hrel', Hrel1, Hb.
  - pose proof (reg_split _ (proj2 Hw')) as Hs'.
    pose proof (reg_split _ (proj2 Hw1)) as Hs1.
    unfold inflight in Hs', Hs1. rewrite Hpc' in Hs'. rewrite Hpc1, Hp1 in Hs1.
    rewrite (registered_trigger_run _ _ _ Hrun2), Hs1, Hrel' in Hs'.
    rewrite app_nil_r in Hs'. simpl in Hs'.
    rewrite <- (app_nil_r (released w1 ++ t_pendingRequests (trig w1))) in Hs' at 1.
    by apply app_inv_head in Hs'.
  - intros r Hr. split.
    + apply inflight_open; [done|]. apply elem_of_app. by right.
    + apply (reg_closed _ (proj2 Hw')). rewrite Hrel', fmap_app.
      apply elem_of_app. right. apply list_elem_of_fmap_2. by rewrite Hb.
Qed.

Lemma one_line_releases_all_witness :
  ∃ w', run (replicate (length (pendingRequests (srv ex_waiting)) + 9) ATrigger)
            ex_waiting = Ok w' ∧
    released w' = released ex_waiting ++ pendingRequests (srv ex_waiting) ∧
    pendingRequests (srv w') = [] ∧
    (∀ r, r ∈ pendingRequests (srv ex_waiting) →
          chans ex_waiting !! responseChan r = Some false ∧
          chans w' !! responseChan r = Some true) ∧
    t_pc (trig w') = T112.
Proof.
  apply (one_line_releases_all ex_waiting EmptyString []).
  - exists ∅, ex_now, ex_sched_waiting. vm_compute. reflexivity.
  - vm_compute. reflexivity.
  - vm_compute. reflexivity.
  - vm_compute. reflexivity.
  - vm_compute. discriminate.
Defined.

(** ** The registry operations composed *)

Lemma wrap_range x : (GoInt.int_min ≤ GoInt.wrap x ≤ GoInt.int_max)%Z.
Proof.
  unfold GoInt.wrap, GoInt.int_min, GoInt.int_max.
  pose proof (Z.mod_pos_bound (x + 2 ^ 63) (2 ^ 64)). lia.
Qed.

Lemma register_all_state reqs s :
  (GoInt.int_min ≤ requestCounter s ≤ GoInt.int_max)%Z →
  mu (register_all reqs s) = mu s ∧
  pendingRequests (register_all reqs s) = pendingRequests s ++ reqs ∧
  requestCounter (register_all reqs s) =
    GoInt.wrap (requestCounter s + len reqs).
Proof.
  revert s. induction reqs as [|r reqs IH]; intros s Hs.
  - unfold register_all, len. simpl. rewrite app_nil_r, Z.add_0_r.
    by rewrite wrap_small.
  - change (register_all (r :: reqs) s)
      with (register_all reqs (register r s).1.1).
    destruct (IH (register r s).1.1) as (E1 & E2 & E3).
    { cbn [register fst requestCounter]. apply wrap_range. }
    rewrite E1, E2, E3. cbn [register fst mu pendingRequests requestCounter].
    split_and!; [done|by rewrite <- (assoc_L (++))|].
    unfold GoInt.incr. rewrite wrap_wrap_add. f_equal.
    unfold len. simpl. lia.
Qed.

(** Registering any requests one after the other and then draining returns
    what was pending followed by exactly those requests, in their order,
    with its length, leaves the registry empty, and has advanced the counter
    by their number (as an [int]). *)
Theorem registry_round_trip (s : Server) (reqs : list pendingRequest) :
  (GoInt.int_min ≤ requestCounter s ≤ GoInt.int_max)%Z →
  drainAll (register_all reqs s) =
  (mkServer (mu s) [] (GoInt.wrap (requestCounter s + len reqs)),
   pendingRequests s ++ reqs, len (pendingRequests s ++ reqs)).
Proof.
  intros Hs. destruct (register_all_state reqs s Hs) as (E1 & E2 & E3).
  unfold drainAll. by rewrite E1, E2, E3.
Qed.

Lemma registry_round_trip_witness :
  drainAll (register_all [ex_pending; ex_pending] NewServer) =
  (mkServer (mu NewServer) []
            (GoInt.wrap (requestCounter NewServer + len [ex_pending; ex_pending])),
   pendingRequests NewServer ++ [ex_pending; ex_pending],
   len (pendingRequests NewServer ++ [ex_pending; ex_pending])).
Proof.
  apply (registry_round_trip NewServer [ex_pending; ex_pending]).
  vm_compute. split; discriminate.
Defined.

(** ** The arrival and release lines a handler prints *)

Lemma handler_logged_grows w w' h l :
  stdout w' = stdout w ++ l → handler_logged w h → handler_logged w' h.
Proof.
  intros E [L1 L2 L3 L4]. split; try done.
  - intros Ha. destruct (L1 Ha) as (pre & mid & post & Hout).
    exists pre, mid, (post ++ l). rewrite E, Hout.
    rewrite <- !(assoc_L (++)). simpl. by rewrite <- !(assoc_L (++)).
  - intros Hpc. rewrite E. apply elem_of_app. left. by apply L2.
  - intros Hr. rewrite E. apply elem_of_app. left. by apply L4.
Qed.

Lemma hstep_logged t w h w1 h1 :
  hstep t w h = Ok (w1, h1) → handler_logged w h → handler_logged w1 h1.
Proof.
  intros Hs [L1 L2 L3 L4].
  hstep_cases Hs; split; simpl in *; try done; auto;
    try (intros [?|?]; done).
  - intros _. apply elem_of_app. right. by apply list_elem_of_singleton.
  - intros _. destruct (list_elem_of_split _ _ (L2 eq_refl)) as (pre & mid & E).
    exists pre, mid, []. rewrite E. by rewrite <- (assoc_L (++)).
  - intros _. destruct (L1 eq_refl) as (pre & mid & post & E).
    eexists pre, mid, (post ++ [_]). rewrite E.
    rewrite <- !(assoc_L (++)). simpl. by rewrite <- !(assoc_L (++)).
  - intros _. apply elem_of_app. right. by apply list_elem_of_singleton.
Qed.

Lemma inv_logged_exec a w w' :
  inv_logged w → exec a w = Ok w' → inv_logged w'.
Proof.
  intros IH Hex. destruct (stdout_exec _ _ _ Hex) as [l Hl].
  destruct a as [r|t| |l'| |d].
  - injection Hex as <-. intros t h [H|[_ H]]%lookup_app_Some.
    + apply (handler_logged_grows w _ _ []); [by rewrite app_nil_r|].
      by apply (IH t).
    + apply list_lookup_singleton_Some in H as [_ <-]. by split.
  - apply exec_handler in Hex as (h & w1 & h1 & Hh & Hs & ->).
    destruct (hstep_handlers _ _ _ _ _ Hs) as [Ehs _].
    simpl. rewrite Ehs.
    intros t' h' [[-> ->]|[Hne Hh']]%lookup_handlers_insert.
    + apply (handler_logged_grows w1 _ _ []); [by rewrite app_nil_r|].
      eapply hstep_logged; [done|]. by apply (IH t).
    + by apply (handler_logged_grows w _ _ l), (IH t').
  - simpl in Hex. assert (handlers w' = handlers w) as E
      by (by apply tstep_mutex in Hex as [? _]).
    intros t h Hh. rewrite E in Hh.
    by apply (handler_logged_grows w _ _ l), (IH t).
  - intros t h Hh. apply (handler_logged_grows w _ _ l); [done|].
    apply (IH t). simpl in Hex. destruct (stdinClosed w); [done|].
    by injection Hex as <-.
  - intros t h Hh. apply (handler_logged_grows w _ _ l); [done|].
    apply (IH t). by injection Hex as <-.
  - intros t h Hh. apply (handler_logged_grows w _ _ l); [done|].
    apply (IH t). by injection Hex as <-.
Qed.

Lemma reachable_inv_logged w : reachable w → inv_logged w.
Proof.
  intros (env & now & sch & Hrun).
  assert (inv_logged (init env now)) as H0.
  { intros t h H. simpl in H. by rewrite lookup_nil in H. }
  revert Hrun H0. generalize (init env now).
  induction sch as [|a sch IH]; intros w0 Hrun H0.
  - by injection Hrun as <-.
  - apply run_cons_Ok in Hrun as (w1 & Hex & Hrun).
    apply (IH w1 Hrun). by eapply inv_logged_exec.
Qed.

(** Every handler that has run line 82 has printed its two arrival lines,
    the first before the second, with the arrival time, number, method,
    path, remote address and pending count it holds; every handler that has
    run line 100 has printed its release line with its number and a wait
    that is the response time minus the arrival time and is not
    negative. *)
Theorem handler_log_lines (w : World) (t : nat) (h : Handler) :
  reachable w → handlers w !! t = Some h →
  (announced (h_pc h) = true →
   ∃ pre mid post,
     stdout w =
     pre ++ Printf "\n[%s] Request #%d: %s %s from %s\n"
              [AClock (h_requestTime h); AInt (h_requestNum h);
               AStr (Http.Method (h_r h)); AStr (Http.URLPath (h_r h));
               AStr (Http.RemoteAddr (h_r h))]
         :: mid ++
         Printf "Pending requests: %d (Press ENTER to release all)\n"
                [AInt (h_pendingCount h)] :: post) ∧
  (reported (h_pc h) = true →
   Printf "[%s] Request #%d: Response body sent after waiting %s\n"
          [AClock (h_responseTime h); AInt (h_requestNum h);
           ADuration (h_duration h)] ∈ stdout w ∧
   h_duration h = GoStd.Sub (h_responseTime h) (h_requestTime h) ∧
   (0 ≤ h_duration h)%Z).
Proof.
  intros Hreach Hh.
  pose proof (reachable_inv_logged _ Hreach _ _ Hh) as [L1 L2 L3 L4].
  pose proof (reachable_inv_handler _ Hreach _ _ Hh) as [_ _ _ _ H5 _].
  split; [exact L1|]. intros Hr.
  assert (timed (h_pc h) = true) as Ht by by destruct (h_pc h).
  specialize (H5 Ht). split_and!.
  - by apply L4.
  - apply L3. by right.
  - rewrite L3 by by right. unfold GoStd.Sub, GoInt.saturate, GoInt.int_min,
      GoInt.int_max. lia.
Qed.

Lemma handler_log_lines_witness :
  let h := ex_handler ex_done 0 in
  (announced (h_pc h) = true →
   ∃ pre mid post,
     stdout ex_done =
     pre ++ Printf "\n[%s] Request #%d: %s %s from %s\n"
              [AClock (h_requestTime h); AInt (h_requestNum h);
               AStr (Http.Method (h_r h)); AStr (Http.URLPath (h_r h));
               AStr (Http.RemoteAddr (h_r h))]
         :: mid ++
         Printf "Pending requests: %d (Press ENTER to release all)\n"
                [AInt (h_pendingCount h)] :: post) ∧
  (reported (h_pc h) = true →
   Printf "[%s] Request #%d: Response body sent after waiting %s\n"
          [AClock (h_responseTime h); AInt (h_requestNum h);
           ADuration (h_duration h)] ∈ stdout ex_done ∧
   h_duration h = GoStd.Sub (h_responseTime h) (h_requestTime h) ∧
   (0 ≤ h_duration h)%Z).
Proof.
  apply (handler_log_lines ex_done 0 (ex_handler ex_done 0)).
  - exists ∅, ex_now,
      (ex_sched_two ++ (ex_sched_release ++ [ATrigger]) ++ ex_sched_finish).
    vm_compute. reflexivity.
  - vm_compute. reflexivity.
Defined.

(** ** Absence of deadlock *)

Lemma holder_runs w t :
  inv w → mu (srv w) = Some (OwnHandler t) → exec (AHandler t) w ≠ Blocked.
Proof.
  intros [IM _] Hmu. pose proof (mutex_holder _ IM _ Hmu) as Hlt.
  apply lookup_lt_is_Some in Hlt as [h Hh].
  pose proof (proj2 (mutex_handler _ IM _ _ Hh) Hmu) as Hc.
  unfold exec. rewrite Hh. unfold hstep, Unlock.
  destruct (h_pc h); try done. by rewrite Hmu.
Qed.

Lemma drainer_runs w :
  inv w → mu (srv w) = Some OwnTrigger → exec ATrigger w ≠ Blocked.
Proof.
  intros [IM _] Hmu. pose proof (proj2 (mutex_trigger _ IM) Hmu) as Hc.
  unfold exec, tstep, Unlock. destruct (t_pc (trig w)); try done.
  by rewrite Hmu.
Qed.

(** When no goroutine of the program can run a statement, nobody holds the
    mutex; every handler has returned or waits at line 94 for a channel
    that is open and whose request is pending in the registry; and
    [waitForEnter] has returned or waits at line 112 for a line of an input
    that is open.  The program stands still only to wait for the operator,
    never over the mutex. *)
Theorem blocks_only_for_input (w : World) :
  reachable w → quiescent w →
  mu (srv w) = None ∧
  (∀ t h, handlers w !! t = Some h →
          h_pc h = HDone ∨
          (h_pc h = H94 ∧ chans w !! responseChan (h_req h) = Some false ∧
           h_req h ∈ pendingRequests (srv w))) ∧
  (t_pc (trig w) = TExit ∨
   (t_pc (trig w) = T112 ∧ stdin w = [] ∧ stdinClosed w = false)).
Proof.
  intros Hreach [HT HH]. pose proof (reachable_inv _ Hreach) as Hw.
  assert (mu (srv w) = None) as Hmu.
  { destruct (mu (srv w)) as [[t|]|] eqn:Hmu; [| |done].
    - by destruct (holder_runs w t Hw Hmu).
    - by destruct (drainer_runs w Hw Hmu). }
  assert (t_pc (trig w) = TExit ∨
          (t_pc (trig w) = T112 ∧ stdin w = [] ∧ stdinClosed w = false)) as HT'.
  { unfold exec, tstep, Lock, Unlock, closeChan in HT. rewrite Hmu in HT.
    destruct (t_pc (trig w)) as [| | | | | | | | |i|] eqn:Hpc; try done.
    - right. destruct (stdin w); [|done]. by destruct (stdinClosed w).
    - destruct (t_pendingRequests (trig w) !! i) as [r|]; [|done].
      simpl in HT. by destruct (chans w !! responseChan r) as [[]|].
    - by left. }
  split_and!; [done| |done].
  intros t h Hh. specialize (HH t). unfold exec in HH. rewrite Hh in HH.
  destruct Hw as [IM IR].
  unfold hstep, Lock, Unlock, recvChan, makeChan in HH. rewrite Hmu in HH.
  destruct (h_pc h) eqn:Hpc; try done; [|by left].
  right. split; [done|].
  pose proof (han_alloc _ IR _ _ Hh) as Hal. rewrite Hpc in Hal.
  apply lookup_lt_is_Some in Hal as [b Hb]; [|done].
  rewrite Hb in HH. destruct b; [done|]. split; [done|].
  pose proof (han_appended _ IR _ _ Hh) as Hap. rewrite Hpc in Hap.
  specialize (Hap eq_refl). simpl in Hap.
  rewrite (reg_split _ IR) in Hap.
  apply elem_of_app in Hap as [Hap|Hap].
  - assert (chans w !! responseChan (h_req h) = Some true) as Hc
      by (apply (reg_closed _ IR); by apply list_elem_of_fmap_2).
    congruence.
  - apply elem_of_app in Hap as [Hap|Hap]; [|done].
    unfold inflight in Hap. destruct HT' as [E|[E _]]; rewrite E in Hap;
      by apply elem_of_nil in Hap.
Qed.

Lemma blocks_only_for_input_witness :
  mu (srv ex_silent) = None ∧
  (∀ t h, handlers ex_silent !! t = Some h →
          h_pc h = HDone ∨
          (h_pc h = H94 ∧
           chans ex_silent !! responseChan (h_req h) = Some false ∧
           h_req h ∈ pendingRequests (srv ex_silent))) ∧
  (t_pc (trig ex_silent) = TExit ∨
   (t_pc (trig ex_silent) = T112 ∧ stdin ex_silent = [] ∧
    stdinClosed ex_silent = false)).
Proof.
  apply (blocks_only_for_input ex_silent).
  - exists ∅, ex_now, ex_sched_silent. vm_compute. reflexivity.
  - split; [vm_compute; reflexivity|].
    intros [|[|t]]; vm_compute; reflexivity.
Defined.

(** ** Every request can be answered *)

Lemma exit_closed w : reachable w → t_pc (trig w) = TExit → stdinClosed w = true.
Proof.
  intros (env & now & sch & Hrun).
  assert (t_pc (trig (init env now)) = TExit →
          stdinClosed (init env now) = true) as H0 by done.
  revert Hrun H0. generalize (init env now).
  induction sch as [|a sch IH]; intros w0 Hrun H0.
  - by injection Hrun as <-.
  - apply run_cons_Ok in Hrun as (w1 & Hex & Hrun).
    apply (IH w1 Hrun). clear IH Hrun. destruct a as [r|t| |l| |d].
    + by injection Hex as <-.
    + apply exec_handler in Hex as (h & w2 & h1 & Hh & Hs & ->).
      hstep_cases Hs; done.
    + simpl in Hex. tstep_cases Hex; simpl; try done.
    + simpl in Hex. destruct (stdinClosed w0) eqn:E; [done|].
      injection Hex as <-. simpl. by rewrite E.
    + by injection Hex as <-.
    + by injection Hex as <-.
Qed.

Lemma closed_run sch w w' c :
  run sch w = Ok w' → chans w !! c = Some true → chans w' !! c = Some true.
Proof.
  revert w. induction sch as [|a sch IH]; intros w Hrun Hc.
  - by injection Hrun as <-.
  - apply run_cons_Ok in Hrun as (w1 & Hex & Hrun).
    apply (IH _ Hrun). by apply (world_grows _ _ _ Hex).
Qed.

(** One statement of [handleRequest]: it runs unless the handler has
    returned, waits for its channel, or waits for a mutex held by somebody
    else. *)
Lemma hstep_advance t w h :
  inv w → handlers w !! t = Some h → free_for t w → h_pc h ≠ HDone →
  (h_pc h = H94 → chans w !! responseChan (h_req h) = Some true) →
  ∃ w1 h1, hstep t w h = Ok (w1, h1) ∧
    hrank (h_pc h1) < hrank (h_pc h) ∧ handlers w1 = handlers w ∧
    trig w1 = trig w ∧ stdin w1 = stdin w ∧ stdinClosed w1 = stdinClosed w ∧
    free_for t w1 ∧
    (allocated (h_pc h) = true →
     allocated (h_pc h1) = true ∧ h_req h1 = h_req h) ∧
    (parked (h_pc h) = true → parked (h_pc h1) = true ∧ srv w1 = srv w).
Proof.
  intros [IM _] Hh Hfree Hnd Hch.
  pose proof (mutex_handler _ IM _ _ Hh) as Hc.
  unfold free_for in *. unfold hstep, Lock, Unlock, recvChan, makeChan.
  destruct (h_pc h) eqn:Hpc; try done; simpl in Hc |- *.
  all: try match type of Hpc with
       | _ = H73 =>
           assert (mu (srv w) = None) as ->
             by (destruct Hfree as [?|H]; [done|]; by apply Hc in H)
       | _ = H78 => rewrite (proj1 Hc eq_refl)
       | _ = H94 => rewrite (Hch eq_refl)
       end.
  all: simpl; eexists _, _; (split; [reflexivity|]); simpl.
  all: split_and!; first [lia | done | auto].
  by destruct (Http.isFlusher (h_w h)).
Qed.

Lemma handler_advance t w h :
  inv w → handlers w !! t = Some h → free_for t w → h_pc h ≠ HDone →
  (h_pc h = H94 → chans w !! responseChan (h_req h) = Some true) →
  ∃ w' h', exec (AHandler t) w = Ok w' ∧
    handlers w' = <[t := h']> (handlers w) ∧
    hrank (h_pc h') < hrank (h_pc h) ∧
    trig w' = trig w ∧ stdin w' = stdin w ∧ stdinClosed w' = stdinClosed w ∧
    free_for t w' ∧
    (allocated (h_pc h) = true →
     allocated (h_pc h') = true ∧ h_req h' = h_req h) ∧
    (parked (h_pc h) = true → parked (h_pc h') = true ∧ srv w' = srv w).
Proof.
  intros Hw Hh Hfree Hnd Hch.
  destruct (hstep_advance t w h Hw Hh Hfree Hnd Hch)
    as (w1 & h1 & Hs & Hr & Hhs & Ht & Hi & Hcl & Hf & Ha & Hp).
  exists (set_handlers (<[t := h1]> (handlers w1)) w1), h1.
  unfold exec. rewrite Hh, Hs. simpl. rewrite Hhs. by split_and!.
Qed.

(** A goroutine of [handleRequest] that nobody interrupts runs until it
    returns or waits at line 94 for a channel that is not closed. *)
Lemma handler_runs m : ∀ w t h,
  reachable w → handlers w !! t = Some h → free_for t w →
  hrank (h_pc h) ≤ m →
  ∃ k w' h', run (replicate k (AHandler t)) w = Ok w' ∧
    handlers w' = <[t := h']> (handlers w) ∧
    trig w' = trig w ∧ stdin w' = stdin w ∧ stdinClosed w' = stdinClosed w ∧
    mu (srv w') = None ∧
    (h_pc h' = HDone ∨
     (h_pc h' = H94 ∧ chans w' !! responseChan (h_req h') ≠ Some true)) ∧
    (allocated (h_pc h) = true → h_req h' = h_req h) ∧
    (parked (h_pc h) = true → srv w' = srv w).
Proof.
  induction m as [|m IH]; intros w t h Hreach Hh Hfree Hm.
  all: pose proof (reachable_inv _ Hreach) as Hw.
  all: assert (h_pc h = HDone ∨
               (h_pc h = H94 ∧ chans w !! responseChan (h_req h) ≠ Some true) →
               ∃ k w' h', run (replicate k (AHandler t)) w = Ok w' ∧
                 handlers w' = <[t := h']> (handlers w) ∧
                 trig w' = trig w ∧ stdin w' = stdin w ∧
                 stdinClosed w' = stdinClosed w ∧ mu (srv w') = None ∧
                 (h_pc h' = HDone ∨
                  (h_pc h' = H94 ∧
                   chans w' !! responseChan (h_req h') ≠ Some true)) ∧
                 (allocated (h_pc h) = true → h_req h' = h_req h) ∧
                 (parked (h_pc h) = true → srv w' = srv w)) as Hstop.
  1, 3: intros Hst; exists 0, w, h; split_and!; try done;
    [by rewrite list_insert_id|];
    destruct Hfree as [?|Hmu]; [done|];
    apply (mutex_handler _ (proj1 Hw) _ _ Hh) in Hmu;
    by destruct Hst as [E|[E _]]; rewrite E in Hmu.
  - apply Hstop. left. destruct (h_pc h); simpl in Hm; try lia. done.
  - destruct (decide (h_pc h = HDone)) as [Hd|Hnd]; [by apply Hstop; left|].
    destruct (decide (h_pc h = H94 ∧
                      chans w !! responseChan (h_req h) ≠ Some true))
      as [Hb|Hnb]; [by apply Hstop; right|].
    clear Hstop.
    destruct (handler_advance t w h Hw Hh Hfree Hnd)
      as (w1 & h1 & Hex & Hhs & Hr & Ht & Hi & Hcl & Hf & Ha & Hp).
    { intros Hpc. destruct (decide (chans w !! responseChan (h_req h)
                                   = Some true)) as [?|Hn]; [done|].
      destruct Hnb. done. }
    assert (run [AHandler t] w = Ok w1) as Hrun1
      by (cbn [run]; by rewrite Hex).
    assert (handlers w1 !! t = Some h1) as Hh1.
    { rewrite Hhs. apply list_lookup_insert_eq. by eapply lookup_lt_Some. }
    destruct (IH w1 t h1 (reachable_run _ _ _ Hreach Hrun1) Hh1 Hf ltac:(lia))
      as (k & w' & h' & Hrun & Hhs' & Ht' & Hi' & Hcl' & Hmu' & Hend & Ha' & Hp').
    exists (S k), w', h'. split_and!; try congruence.
    + cbn [replicate run]. rewrite Hex. done.
    + by rewrite Hhs', Hhs, list_insert_insert_eq.
    + intros Hal. destruct (Ha Hal) as [Hal1 E1]. rewrite <- E1. by apply Ha'.
    + intros Hpk. destruct (Hp Hpk) as [Hpk1 E1]. rewrite <- E1. by apply Hp'.
Qed.

(** One statement of [waitForEnter]: it runs unless it waits for a line or
    for a mutex held by a handler. *)
Lemma trigger_advance w :
  inv w → no_handler_holds w → trank w ≠ 0 →
  ∃ w', exec ATrigger w = Ok w' ∧ trank w' < trank w ∧
    handlers w' = handlers w ∧ stdin w' = stdin w ∧
    stdinClosed w' = stdinClosed w ∧ no_handler_holds w' ∧
    (drained (t_pc (trig w)) = true →
     drained (t_pc (trig w')) = true ∧
     pendingRequests (srv w') = pendingRequests (srv w)).
Proof.
  intros Hw Hno Hr. pose proof Hw as [IM IR].
  pose proof (mutex_trigger _ IM) as Hc.
  pose proof (reg_count _ IR) as Hcnt.
  unfold no_handler_holds, trank in *. unfold exec, tstep, Lock, Unlock.
  destruct (t_pc (trig w)) as [| | | | | | | | |i|] eqn:Hpc; try done;
    simpl in Hc, Hr |- *.
  - assert (mu (srv w) = None) as ->.
    { destruct (mu (srv w)) as [[t|]|] eqn:Hmu; [by destruct (Hno t)| |done].
      by pose proof (proj2 Hc eq_refl). }
    simpl. try rewrite Hpc. eexists. split; [reflexivity|]. simpl.
    split_and!; try done. lia.
  - try rewrite Hpc. eexists. split; [reflexivity|]. simpl. split_and!; try done. lia.
  - try rewrite Hpc. eexists. split; [reflexivity|]. simpl. split_and!; try done. lia.
  - try rewrite Hpc. eexists. split; [reflexivity|]. simpl. split_and!; try done. lia.
  - rewrite (proj1 Hc eq_refl). simpl. try rewrite Hpc.
    eexists. split; [reflexivity|]. simpl. split_and!; try done. lia.
  - try rewrite Hpc. eexists. split; [reflexivity|]. simpl.
    destruct (t_count (trig w) =? 0)%Z; simpl; split_and!; try done; lia.
  - try rewrite Hpc. eexists. split; [reflexivity|]. simpl. split_and!; try done. lia.
  - try rewrite Hpc. eexists. split; [reflexivity|]. simpl. split_and!; try done. lia.
  - try rewrite Hpc.
    destruct (t_pendingRequests (trig w) !! i) as [r|] eqn:Hi.
    + assert (chans w !! responseChan r = Some false) as Hopen.
      { apply (inflight_open w r Hw). apply elem_of_app. left.
        unfold inflight. rewrite Hpc. apply list_elem_of_lookup. exists 0.
        by rewrite lookup_drop, Nat.add_0_r. }
      unfold closeChan. rewrite Hopen. simpl.
      eexists. split; [reflexivity|]. simpl. split_and!; try done.
      apply lookup_lt_Some in Hi. lia.
    + eexists. split; [reflexivity|]. simpl. split_and!; try done. lia.
Qed.

(** [waitForEnter], not interrupted and with no handler holding the mutex,
    finishes its round: it comes back to line 112 (or has returned) with the
    mutex free. *)
Lemma trigger_runs m : ∀ w,
  reachable w → no_handler_holds w → trank w ≤ m →
  ∃ k w', run (replicate k ATrigger) w = Ok w' ∧ trank w' = 0 ∧
    handlers w' = handlers w ∧ stdin w' = stdin w ∧
    stdinClosed w' = stdinClosed w ∧ mu (srv w') = None ∧
    (drained (t_pc (trig w)) = true →
     pendingRequests (srv w') = pendingRequests (srv w)).
Proof.
  induction m as [|m IH]; intros w Hreach Hno Hm.
  all: pose proof (reachable_inv _ Hreach) as Hw.
  all: assert (trank w = 0 →
               ∃ k w', run (replicate k ATrigger) w = Ok w' ∧ trank w' = 0 ∧
                 handlers w' = handlers w ∧ stdin w' = stdin w ∧
                 stdinClosed w' = stdinClosed w ∧ mu (srv w') = None ∧
                 (drained (t_pc (trig w)) = true →
                  pendingRequests (srv w') = pendingRequests (srv w)))
         as Hstop.
  1, 3: intros Hz; exists 0, w; split_and!; try done;
    destruct (mu (srv w)) as [[t|]|] eqn:Hmu; [by destruct (Hno t)| |done];
    apply (mutex_trigger _ (proj1 Hw)) in Hmu; unfold trank in Hz;
    by destruct (t_pc (trig w)).
  - apply Hstop. lia.
  - destruct (decide (trank w = 0)) as [Hz|Hnz]; [by apply Hstop|]. clear Hstop.
    destruct (trigger_advance w Hw Hno Hnz)
      as (w1 & Hex & Hr & Hhs & Hi & Hcl & Hno1 & Hd).
    assert (run [ATrigger] w = Ok w1) as Hrun1
      by (cbn [run]; by rewrite Hex).
    destruct (IH w1 (reachable_run _ _ _ Hreach Hrun1) Hno1 ltac:(lia))
      as (k & w' & Hrun & Hz' & Hhs' & Hi' & Hcl' & Hmu' & Hd').
    exists (S k), w'. split_and!; try congruence.
    + cbn [replicate run]. rewrite Hex. done.
    + intros Hdr. destruct (Hd Hdr) as [Hdr1 E1]. rewrite <- E1. by apply Hd'.
Qed.

Lemma program_only_handler k t : program_only (replicate k (AHandler t)).
Proof. by apply Forall_replicate. Qed.

Lemma program_only_trigger k : program_only (replicate k ATrigger).
Proof. by apply Forall_replicate. Qed.

Lemma program_only_app s1 s2 :
  program_only s1 → program_only s2 → program_only (s1 ++ s2).
Proof. intros H1 H2. apply Forall_app. by split. Qed.

(** Goroutine after goroutine: what a run establishes for one handler
    without undoing it for the handlers before, it establishes for all. *)
Lemma sweep (I : World → Prop) (Q : World → nat → Prop) (n : nat) :
  (∀ w t, I w → t < n → (∀ t', t' < t → Q w t') →
          ∃ sch w', run sch w = Ok w' ∧ program_only sch ∧ I w' ∧
                    ∀ t', t' ≤ t → Q w' t') →
  ∀ w, I w →
  ∃ sch w', run sch w = Ok w' ∧ program_only sch ∧ I w' ∧
            ∀ t, t < n → Q w' t.
Proof.
  intros Hstep w HI.
  assert (∀ j, j ≤ n →
          ∃ sch w', run sch w = Ok w' ∧ program_only sch ∧ I w' ∧
                    ∀ t, t < j → Q w' t) as H.
  { induction j as [|j IH]; intros Hj.
    - exists [], w. split_and!; [done|by apply Forall_nil_2|done|].
      intros t Ht. lia.
    - destruct (IH ltac:(lia)) as (s1 & w1 & Hr1 & Hp1 & HI1 & HQ1).
      destruct (Hstep w1 j HI1 ltac:(lia) HQ1) as (s2 & w2 & Hr2 & Hp2 & HI2 & HQ2).
      exists (s1 ++ s2), w2. split_and!; try done.
      + apply run_app_Ok. eauto.
      + by apply program_only_app.
      + intros t Ht. apply HQ2. lia. }
  by apply H.
Qed.

(** Whoever holds the mutex gives it back when it is left to run. *)
Lemma free_mutex w :
  reachable w →
  ∃ sch w', run sch w = Ok w' ∧ program_only sch ∧ mu (srv w') = None ∧
    stdinClosed w' = stdinClosed w.
Proof.
  intros Hreach. pose proof (reachable_inv _ Hreach) as Hw.
  destruct (mu (srv w)) as [[t|]|] eqn:Hmu.
  - pose proof (mutex_holder _ (proj1 Hw) _ Hmu) as Hlt.
    apply lookup_lt_is_Some in Hlt as [h Hh].
    destruct (handler_runs (hrank (h_pc h)) w t h Hreach Hh
                ltac:(by right) ltac:(lia))
      as (k & w' & h' & Hrun & _ & _ & _ & Hcl & Hmu' & _).
    exists (replicate k (AHandler t)), w'. split_and!; try done.
    apply program_only_handler.
  - destruct (trigger_runs (trank w) w Hreach) as
      (k & w' & Hrun & _ & _ & _ & Hcl & Hmu' & _); [|lia|].
    { intros t. by rewrite Hmu. }
    exists (replicate k ATrigger), w'. split_and!; try done.
    apply program_only_trigger.
  - exists [], w. split_and!; try done. apply Forall_nil_2.
Qed.

(** With the mutex free, every handler left to run reaches line 94. *)
Lemma park_all w :
  reachable w → mu (srv w) = None →
  ∃ sch w', run sch w = Ok w' ∧ program_only sch ∧ mu (srv w') = None ∧
    trig w' = trig w ∧ stdin w' = stdin w ∧ stdinClosed w' = stdinClosed w ∧
    ∀ t h, handlers w' !! t = Some h → parked (h_pc h) = true.
Proof.
  intros Hreach Hmu.
  destruct (sweep
    (λ w1, reachable w1 ∧ mu (srv w1) = None ∧
           length (handlers w1) = length (handlers w) ∧ trig w1 = trig w ∧
           stdin w1 = stdin w ∧ stdinClosed w1 = stdinClosed w)
    (λ w1 t, ∀ h, handlers w1 !! t = Some h → parked (h_pc h) = true)
    (length (handlers w))) with (w := w)
    as (sch & w' & Hrun & Hp & (_ & Hmu' & Hlen & Ht & Hi & Hcl) & HQ).
  - intros w1 t (Hr1 & Hm1 & Hl1 & Ht1 & Hi1 & Hc1) Hlt HQ.
    rewrite <- Hl1 in Hlt. apply lookup_lt_is_Some in Hlt as [h Hh].
    destruct (handler_runs (hrank (h_pc h)) w1 t h Hr1 Hh
                ltac:(by left) ltac:(lia))
      as (k & w2 & h' & Hrun & Hhs & Ht2 & Hi2 & Hc2 & Hm2 & Hend & _).
    exists (replicate k (AHandler t)), w2. split_and!; try congruence.
    + apply program_only_handler.
    + by eapply reachable_run.
    + by rewrite Hhs, length_insert.
    + intros t' Ht' h2 Hh2. rewrite Hhs in Hh2.
      destruct (decide (t' = t)) as [->|Hne].
      * rewrite list_lookup_insert_eq in Hh2 by by eapply lookup_lt_Some.
        injection Hh2 as <-. by destruct Hend as [->|[-> _]].
      * rewrite list_lookup_insert_ne in Hh2 by done.
        apply (HQ t'); [lia|done].
  - by split_and!.
  - exists sch, w'. split_and!; try done.
    intros t h Hh. apply (HQ t); [|done]. rewrite <- Hlen. by eapply lookup_lt_Some.
Qed.

(** Handlers whose channels are closed all return when left to run. *)
Lemma finish_all w :
  reachable w → mu (srv w) = None →
  (∀ t h, handlers w !! t = Some h →
          parked (h_pc h) = true ∧
          chans w !! responseChan (h_req h) = Some true) →
  ∃ sch w', run sch w = Ok w' ∧ program_only sch ∧ srv w' = srv w ∧
    ∀ t h, handlers w' !! t = Some h → h_pc h = HDone.
Proof.
  intros Hreach Hmu Hall.
  destruct (sweep
    (λ w1, reachable w1 ∧ srv w1 = srv w ∧
           length (handlers w1) = length (handlers w) ∧
           ∀ t h, handlers w1 !! t = Some h →
                  parked (h_pc h) = true ∧
                  chans w1 !! responseChan (h_req h) = Some true)
    (λ w1 t, ∀ h, handlers w1 !! t = Some h → h_pc h = HDone)
    (length (handlers w))) with (w := w)
    as (sch & w' & Hrun & Hp & (_ & Hsrv & Hlen & _) & HQ).
  - intros w1 t (Hr1 & Hs1 & Hl1 & Ha1) Hlt HQ.
    rewrite <- Hl1 in Hlt. apply lookup_lt_is_Some in Hlt as [h Hh].
    destruct (Ha1 t h Hh) as [Hpk Hcl].
    destruct (handler_runs (hrank (h_pc h)) w1 t h Hr1 Hh) as
      (k & w2 & h' & Hrun & Hhs & _ & _ & _ & _ & Hend & Hreq & Hsrv);
      [left; by rewrite Hs1|lia|].
    rewrite Hreq in Hend by by destruct (h_pc h).
    assert (h_pc h' = HDone) as Hdone.
    { destruct Hend as [?|[_ Hn]]; [done|]. destruct Hn.
      by apply (closed_run _ _ _ _ Hrun). }
    exists (replicate k (AHandler t)), w2. split_and!.
    + done.
    + apply program_only_handler.
    + by eapply reachable_run.
    + rewrite Hsrv by done. done.
    + by rewrite Hhs, length_insert.
    + intros t' h2 Hh2. rewrite Hhs in Hh2.
      destruct (decide (t' = t)) as [->|Hne].
      * rewrite list_lookup_insert_eq in Hh2 by by eapply lookup_lt_Some.
        injection Hh2 as <-. rewrite Hdone. split; [done|].
        rewrite Hreq by by destruct (h_pc h).
        by apply (closed_run _ _ _ _ Hrun).
      * rewrite list_lookup_insert_ne in Hh2 by done.
        destruct (Ha1 t' h2 Hh2) as [? ?]. split; [done|].
        by apply (closed_run _ _ _ _ Hrun).
    + intros t' Ht' h2 Hh2. rewrite Hhs in Hh2.
      destruct (decide (t' = t)) as [->|Hne].
      * rewrite list_lookup_insert_eq in Hh2 by by eapply lookup_lt_Some.
        by injection Hh2 as <-.
      * rewrite list_lookup_insert_ne in Hh2 by done.
        apply (HQ t'); [lia|done].
  - by split_and!.
  - exists sch, w'. split_and!; try done.
    intros t h Hh. apply (HQ t); [|done]. rewrite <- Hlen. by eapply lookup_lt_Some.
Qed.

Lemma program_only_length sch w w' :
  run sch w = Ok w' → program_only sch →
  length (handlers w') = length (handlers w).
Proof.
  revert w. induction sch as [|a sch IH]; intros w Hrun Hp.
  - by injection Hrun as <-.
  - apply run_cons_Ok in Hrun as (w1 & Hex & Hrun).
    apply Forall_cons in Hp as [Ha Hp]. rewrite (IH _ Hrun Hp).
    destruct a as [r|t| |l| |d]; try done.
    + apply exec_handler in Hex as (h & w2 & h1 & Hh & Hs & ->).
      destruct (hstep_handlers _ _ _ _ _ Hs) as [Ehs _].
      simpl. by rewrite length_insert, Ehs.
    + simpl in Hex. by destruct (tstep_count _ _ Hex) as (_ & _ & ->).
Qed.

(** From every reachable state in which the input is open, the program can
    still answer every connection it has accepted.  Left to run, whoever
    holds the mutex gives it back, every handler reaches line 94 and
    [waitForEnter] comes back to line 112; the operator then types one line;
    [waitForEnter] drains the registry and closes every channel, and every
    handler returns.  No connection, no further line and no passing of time
    is needed; in the end the registry is empty and the mutex free. *)
Theorem every_request_can_finish (w : World) :
  reachable w → stdinClosed w = false →
  ∃ s1 s2 w',
    run (s1 ++ AInput EmptyString :: s2) w = Ok w' ∧
    program_only s1 ∧ program_only s2 ∧
    length (handlers w') = length (handlers w) ∧
    (∀ t h, handlers w' !! t = Some h → h_pc h = HDone) ∧
    pendingRequests (srv w') = [] ∧ mu (srv w') = None.
Proof.
  intros Hreach Hopen.
  destruct (free_mutex w Hreach) as (sa & w1 & Ra & Pa & Mu1 & Cl1).
  pose proof (reachable_run _ _ _ Hreach Ra) as R1.
  destruct (park_all w1 R1 Mu1) as (sb & w2 & Rb & Pb & Mu2 & Tr2 & In2 & Cl2 & Pk2).
  pose proof (reachable_run _ _ _ R1 Rb) as R2.
  destruct (trigger_runs (trank w2) w2 R2)
    as (k3 & w3 & Rc & Z3 & Hs3 & In3 & Cl3 & Mu3 & _); [|lia|].
  { intros t. by rewrite Mu2. }
  pose proof (reachable_run _ _ _ R2 Rc) as R3.
  assert (stdinClosed w3 = false) as Hopen3 by congruence.
  assert (t_pc (trig w3) = T112) as Pc3.
  { unfold trank in Z3. destruct (t_pc (trig w3)) eqn:E; try done.
    pose proof (exit_closed w3 R3 E). congruence. }
  set (w4 := set_stdin (stdin w3 ++ [EmptyString]) w3).
  assert (exec (AInput EmptyString) w3 = Ok w4) as Rin
    by (unfold exec; by rewrite Hopen3).
  assert (run [AInput EmptyString] w3 = Ok w4) as Rin'
    by (cbn [run]; by rewrite Rin).
  pose proof (reachable_run _ _ _ R3 Rin') as R4.
  assert (∃ l rest, stdin w4 = l :: rest) as (l & rest & Hin4).
  { unfold w4. simpl. destruct (stdin w3) as [|l rest]; simpl; eauto. }
  destruct (scan_and_drain w4 l rest Pc3 Hin4 Mu3)
    as (w5 & Rd & Pc5 & B5 & P5 & Rel5 & In5 & Hs5).
  pose proof (reachable_run _ _ _ R4 Rd) as R5.
  assert (handlers w5 = handlers w2) as Hs52 by (rewrite Hs5; apply Hs3).
  assert (no_handler_holds w5) as Hno5.
  { intros t Hm. destruct (reachable_inv _ R5) as [IM5 _].
    pose proof (mutex_holder _ IM5 _ Hm) as Hlt.
    apply lookup_lt_is_Some in Hlt as [h Hh].
    apply (mutex_handler _ IM5 _ _ Hh) in Hm.
    rewrite Hs52 in Hh. apply Pk2 in Hh. by destruct (h_pc h). }
  destruct (trigger_runs (trank w5) w5 R5 Hno5)
    as (k6 & w6 & Re & Z6 & Hs6 & In6 & Cl6 & Mu6 & Dr6); [lia|].
  rewrite Pc5 in Dr6. specialize (Dr6 eq_refl). rewrite P5 in Dr6.
  pose proof (reachable_run _ _ _ R5 Re) as R6.
  destruct (finish_all w6 R6 Mu6) as (sf & w7 & Rf & Pf & Srv7 & Done7).
  { intros t h Hh. destruct (reachable_inv _ R6) as [_ IR6].
    assert (parked (h_pc h) = true) as Hpk
      by (apply (Pk2 t); by rewrite <- Hs52, <- Hs6).
    split; [done|].
    pose proof (han_appended _ IR6 _ _ Hh) as Hap.
    assert (inflight (trig w6) = []) as Hfl.
    { unfold trank in Z6. unfold inflight. by destruct (t_pc (trig w6)). }
    rewrite (reg_split _ IR6), Hfl, Dr6, !app_nil_r in Hap.
    apply (reg_closed _ IR6). apply list_elem_of_fmap_2.
    destruct (h_pc h); try done; by apply Hap. }
  assert (run (sa ++ sb ++ replicate k3 ATrigger) w = Ok w3) as Rabc.
  { apply run_app_Ok. exists w1. split; [done|].
    apply run_app_Ok. eauto. }
  assert (run (replicate 6 ATrigger ++ replicate k6 ATrigger ++ sf) w4
          = Ok w7) as Rdef.
  { apply run_app_Ok. exists w5. split; [done|].
    apply run_app_Ok. eauto. }
  assert (program_only (sa ++ sb ++ replicate k3 ATrigger)) as Pabc.
  { repeat apply program_only_app; try done. apply program_only_trigger. }
  assert (program_only (replicate 6 ATrigger ++ replicate k6 ATrigger ++ sf))
    as Pdef.
  { repeat apply program_only_app; try done; apply program_only_trigger. }
  exists (sa ++ sb ++ replicate k3 ATrigger),
         (replicate 6 ATrigger ++ replicate k6 ATrigger ++ sf), w7.
  split_and!; try done.
  - apply run_app_Ok. exists w3. split; [done|].
    apply run_cons_Ok. eauto.
  - rewrite (program_only_length _ _ _ Rdef Pdef).
    by rewrite <- (program_only_length _ _ _ Rabc Pabc).
  - by rewrite Srv7.
  - by rewrite Srv7.
Qed.

Lemma every_request_can_finish_witness :
  ∃ s1 s2 w',
    run (s1 ++ AInput EmptyString :: s2) ex_reg_locked = Ok w' ∧
    program_only s1 ∧ program_only s2 ∧
    length (handlers w') = length (handlers ex_reg_locked) ∧
    (∀ t h, handlers w' !! t = Some h → h_pc h = HDone) ∧
    pendingRequests (srv w') = [] ∧ mu (srv w') = None.
Proof.
  apply (every_request_can_finish ex_reg_locked).
  - exists ∅, ex_now,
      (ex_sched_locked ++ (ex_sched_drain ++ [ATrigger]) ++ ex_sched_reg_locked).
    vm_compute. reflexivity.
  - vm_compute. reflexivity.
Defined.
